(** * connectf_server: the query engine of [querytgdb/utils/parser.py]

    A shallow embedding of the query grammar, the modifier evaluator, the
    table fetchers, the set-algebra evaluator [get_tf], the column reorder
    pass and the two entry points [parse_query] and [get_query_result],
    followed by the properties of the specification that concern them and
    by further properties of the engine, of the reader of uploaded gene
    lists ([querytgdb/utils/file.py]) and of [column_string]
    ([querytgdb/utils/__init__.py]).

    Conventions.
    - Python strings are [string]; the characters handled are the ASCII ones
      (the grammar's [pyparsing_unicode.alphanums] is read on ASCII).
    - A pandas frame is a record of row labels, labelled columns and the two
      metadata fields of [TargetFrame]; a cell is missing ([NaN]), a number
      or a text.
    - What is raised in Python is returned here as a value of [Exn]. *)

From Stdlib Require Import String Ascii List Bool Arith ZArith QArith Lia.
From Stdlib Require Import Permutation Sorted FunInd Recdef.
Import ListNotations.
Close Scope Q_scope.
Open Scope string_scope.

Set Warnings "-register-all".

(** ** Characters and strings *)

Module Str.

Definition in_range (lo hi c : ascii) : bool :=
  (nat_of_ascii lo <=? nat_of_ascii c)%nat && (nat_of_ascii c <=? nat_of_ascii hi)%nat.

Definition is_lower (c : ascii) : bool := in_range "a" "z" c.
Definition is_upper (c : ascii) : bool := in_range "A" "Z" c.
Definition is_alpha (c : ascii) : bool := is_lower c || is_upper c.
Definition is_digit (c : ascii) : bool := in_range "0" "9" c.

Fixpoint mem (c : ascii) (s : string) : bool :=
  match s with
  | EmptyString => false
  | String d s' => Ascii.eqb c d || mem c s'
  end.

Definition tab : ascii := "009"%char.
Definition lf : ascii := "010"%char.
Definition ff : ascii := "012"%char.
Definition cr : ascii := "013"%char.
Definition backslash : ascii := "\"%char.
Definition dquote : ascii := "034"%char.
Definition squote : ascii := "'"%char.

(** [str.upper()] and [str.lower()] on ASCII letters. *)
Definition upper_char (c : ascii) : ascii :=
  if is_lower c then ascii_of_nat (nat_of_ascii c - 32) else c.
Definition lower_char (c : ascii) : ascii :=
  if is_upper c then ascii_of_nat (nat_of_ascii c + 32) else c.

Fixpoint map (f : ascii -> ascii) (s : string) : string :=
  match s with
  | EmptyString => EmptyString
  | String c s' => String (f c) (map f s')
  end.

Definition upper : string -> string := map upper_char.
Definition lower : string -> string := map lower_char.

(** Case-insensitive equality, as [re.match(r'^key$', s, flags=re.I)] and
    the [__iexact] look-ups use it. *)
Definition ieq (a b : string) : bool := String.eqb (lower a) (lower b).

Fixpoint repeat (c : ascii) (n : nat) : string :=
  match n with
  | O => EmptyString
  | S n' => String c (repeat c n')
  end.

(** The longest prefix made of characters of the class [f], and the rest. *)
Fixpoint span (f : ascii -> bool) (s : string) : string * string :=
  match s with
  | EmptyString => (EmptyString, EmptyString)
  | String c s' =>
      if f c then let (w, r) := span f s' in (String c w, r)
      else (EmptyString, s)
  end.

(** [s.replace(a ++ b, r)] for a two-character pattern: leftmost,
    non-overlapping. *)
Fixpoint replace2 (a b r : ascii) (s : string) : string :=
  match s with
  | String c ((String d s'') as s') =>
      if Ascii.eqb c a && Ascii.eqb d b then String r (replace2 a b r s'')
      else String c (replace2 a b r s')
  | _ => s
  end.

Fixpoint join (sep : string) (l : list string) : string :=
  match l with
  | [] => EmptyString
  | [x] => x
  | x :: l' => x ++ sep ++ join sep l'
  end.

(** [str.expandtabs()]: a tab becomes the spaces that reach the next column
    that is a multiple of eight; the column restarts after a line break. *)
Fixpoint expandtabs_from (col : nat) (s : string) : string :=
  match s with
  | EmptyString => EmptyString
  | String c s' =>
      if Ascii.eqb c tab then
        let n := 8 - Nat.modulo col 8 in
        repeat " " n ++ expandtabs_from (col + n) s'
      else if Ascii.eqb c lf || Ascii.eqb c cr then String c (expandtabs_from 0 s')
      else String c (expandtabs_from (S col) s')
  end.

Definition expandtabs : string -> string := expandtabs_from 0.

End Str.

(** ** The grammar (pyparsing)

    A parser element maps the text that is left to a result: the tokens it
    produced with the text after them, a [ParseException], or [OutOfFuel]
    when the depth allowed to the two [Forward] elements of
    [infixNotation] is used up. *)

Module pp.

(** [ParseResults]: a plain token, an unnamed [Group], the group named
    ['modifier'] and the group named ['mod'] with its three named fields. *)
Inductive ParseResults : Type :=
| PStr (s : string)
| PGroup (toks : list ParseResults)
| PModifier (toks : list ParseResults)
| PMod (key oper value : string).

Inductive Res : Type :=
| Ok (toks : list ParseResults) (rest : string)
| ParseException
| OutOfFuel.

Definition ParserElement : Type := string -> Res.

Definition whitespace (c : ascii) : bool := Str.mem c (String " " (String Str.lf (String Str.tab (String Str.cr "")))).

(** [preParse]: every element skips the white space in front of it. *)
Fixpoint preParse (s : string) : string :=
  match s with
  | String c s' => if whitespace c then preParse s' else s
  | EmptyString => EmptyString
  end.

Definition alphanums (c : ascii) : bool := Str.is_alpha c || Str.is_digit c.

(** [Keyword.DEFAULT_KEYWORD_CHARS = alphanums + "_$"]. *)
Definition identChars (c : ascii) : bool := alphanums c || Str.mem c "_$".

(** [pp.Word(chars)] *)
Definition Word (chars : ascii -> bool) : ParserElement := fun s =>
  match Str.span chars (preParse s) with
  | (EmptyString, _) => ParseException
  | (w, rest) => Ok [PStr w] rest
  end.

(** [pp.Literal(c)] wrapped in [pp.Suppress]: the character is matched and
    no token is kept. *)
Definition Suppress (c : ascii) : ParserElement := fun s =>
  match preParse s with
  | String d rest => if Ascii.eqb c d then Ok [] rest else ParseException
  | EmptyString => ParseException
  end.

(** [s] starts with [kw], letter case apart: what is left of [s]. *)
Fixpoint caseless_prefix (kw s : string) : option string :=
  match kw, s with
  | EmptyString, _ => Some s
  | String k kw', String c s' =>
      if Ascii.eqb (Str.upper_char k) (Str.upper_char c) then caseless_prefix kw' s' else None
  | String _ _, EmptyString => None
  end.

(** [pp.CaselessKeyword(kw)]: the word, not followed by a keyword
    character; the token is the keyword as it was defined. *)
Definition CaselessKeyword (kw : string) : ParserElement := fun s =>
  match caseless_prefix kw (preParse s) with
  | Some rest =>
      match rest with
      | String c _ => if identChars (Str.upper_char c) then ParseException else Ok [PStr kw] rest
      | EmptyString => Ok [PStr kw] rest
      end
  | None => ParseException
  end.

Fixpoint prefix_rest (p s : string) : option string :=
  match p, s with
  | EmptyString, _ => Some s
  | String a p', String c s' => if Ascii.eqb a c then prefix_rest p' s' else None
  | String _ _, EmptyString => None
  end.

(** [pp.oneOf(strs)], the alternatives already in the order [oneOf] gives
    them (a symbol that extends another one comes first). *)
Fixpoint oneOf_ordered (alts : list string) (s : string) : Res :=
  match alts with
  | [] => ParseException
  | a :: alts' =>
      match prefix_rest a s with
      | Some rest => Ok [PStr a] rest
      | None => oneOf_ordered alts' s
      end
  end.

Definition oneOf (alts : list string) : ParserElement := fun s =>
  oneOf_ordered alts (preParse s).

(** The body of a quoted string after its opening quote, up to the closing
    quote: [(?:[^q\n\r\\]|(?:\\.))*q]. The characters between the quotes
    and the text after the closing quote. *)
Fixpoint quoted_body (q : ascii) (s : string) : option (string * string) :=
  match s with
  | EmptyString => None
  | String c s' =>
      if Ascii.eqb c q then Some (EmptyString, s')
      else if Ascii.eqb c Str.backslash then
        match s' with
        | String d s'' =>
            if Ascii.eqb d Str.lf then None
            else match quoted_body q s'' with
                 | Some (b, r) => Some (String c (String d b), r)
                 | None => None
                 end
        | EmptyString => None
        end
      else if Ascii.eqb c Str.lf || Ascii.eqb c Str.cr then None
      else match quoted_body q s' with
           | Some (b, r) => Some (String c b, r)
           | None => None
           end
  end.

(** [re.sub(r'\\(.)', r'\g<1>', ret)] *)
Fixpoint unescape (s : string) : string :=
  match s with
  | String c ((String d s'') as s') =>
      if Ascii.eqb c Str.backslash && negb (Ascii.eqb d Str.lf) then String d (unescape s'')
      else String c (unescape s')
  | _ => s
  end.

Definition unquote (body : string) : string :=
  let r := Str.replace2 Str.backslash "t" Str.tab body in
  let r := Str.replace2 Str.backslash "n" Str.lf r in
  let r := Str.replace2 Str.backslash "f" Str.ff r in
  let r := Str.replace2 Str.backslash "r" Str.cr r in
  unescape r.

(** [pp.QuotedString(q, escChar='\\')] *)
Definition QuotedString (q : ascii) : ParserElement := fun s =>
  match preParse s with
  | String c s' =>
      if Ascii.eqb c q then
        match quoted_body q s' with
        | Some (body, rest) => Ok [PStr (unquote body)] rest
        | None => ParseException
        end
      else ParseException
  | EmptyString => ParseException
  end.

(** [a + b] ([pp.And]) *)
Definition And (a b : ParserElement) : ParserElement := fun s =>
  match a s with
  | Ok t1 r1 =>
      match b r1 with
      | Ok t2 r2 => Ok (t1 ++ t2) r2
      | e => e
      end
  | e => e
  end.

(** [a | b] ([pp.MatchFirst]) *)
Definition MatchFirst (a b : ParserElement) : ParserElement := fun s =>
  match a s with
  | ParseException => b s
  | r => r
  end.

(** [pp.FollowedBy(a)]: a look-ahead, nothing is consumed. *)
Definition FollowedBy (a : ParserElement) : ParserElement := fun s =>
  match a s with
  | Ok _ _ => Ok [] s
  | e => e
  end.

(** [pp.Optional(a)] *)
Definition Optional (a : ParserElement) : ParserElement := fun s =>
  match a s with
  | ParseException => Ok [] (preParse s)
  | r => r
  end.

(** [pp.Group(a)] *)
Definition Group (a : ParserElement) : ParserElement := fun s =>
  match a s with
  | Ok t r => Ok [PGroup t] r
  | e => e
  end.

(** The repetitions of [pp.OneOrMore(a)] after the first one; [n] bounds
    their number, each of them consuming at least one character. *)
Fixpoint more (n : nat) (a : ParserElement) (acc : list ParseResults) (s : string) : Res :=
  match n with
  | O => OutOfFuel
  | S n' =>
      match a s with
      | Ok t r => more n' a (acc ++ t) r
      | ParseException => Ok acc s
      | OutOfFuel => OutOfFuel
      end
  end.

Definition OneOrMore (a : ParserElement) : ParserElement := fun s =>
  match a s with
  | Ok t r => more (S (String.length r)) a t r
  | e => e
  end.

Inductive opAssoc : Type := LEFT | RIGHT.

(** One precedence level of [infixNotation]: [thisExpr], from [lastExpr]
    and the operator definition. *)
Fixpoint unary_right (fuel : nat) (lastExpr opExpr : ParserElement) : ParserElement :=
  match fuel with
  | O => fun _ => OutOfFuel
  | S fuel' =>
      let thisExpr := unary_right fuel' lastExpr opExpr in
      MatchFirst (And (FollowedBy (And opExpr thisExpr)) (Group (And (Optional opExpr) thisExpr)))
                 lastExpr
  end.

Definition thisExpr (fuel : nat) (lastExpr : ParserElement)
    (operDef : ParserElement * nat * opAssoc) : ParserElement :=
  match operDef with
  | (opExpr, 1%nat, LEFT) =>
      MatchFirst (And (FollowedBy (And lastExpr opExpr)) (Group (And lastExpr (OneOrMore opExpr))))
                 lastExpr
  | (opExpr, 2%nat, LEFT) =>
      MatchFirst (And (FollowedBy (And lastExpr (And opExpr lastExpr)))
                      (Group (And lastExpr (OneOrMore (And opExpr lastExpr)))))
                 lastExpr
  | (opExpr, 1%nat, RIGHT) => unary_right fuel lastExpr opExpr
  | _ => fun _ => ParseException
  end.

(** [pp.infixNotation(baseExpr, opList)]; [fuel] bounds the depth of the
    references to the [Forward] element [ret]. *)
Fixpoint infixNotation (fuel : nat) (baseExpr : ParserElement)
    (opList : list (ParserElement * nat * opAssoc)) : ParserElement :=
  match fuel with
  | O => fun _ => OutOfFuel
  | S fuel' =>
      let ret := infixNotation fuel' baseExpr opList in
      fold_left (thisExpr fuel) opList
                (MatchFirst baseExpr (And (Suppress "(") (And ret (Suppress ")"))))
  end.

(** [parseString(instring, parseAll=True)] *)
Definition parseString (p : ParserElement) (instring : string) : Res :=
  match p (Str.expandtabs instring) with
  | Ok toks rest =>
      match preParse rest with
      | EmptyString => Ok toks EmptyString
      | String _ _ => ParseException
      end
  | e => e
  end.

(** *** The query language *)

Definition name_chars (c : ascii) : bool := alphanums c || Str.mem c "-_.:".

Definition name : ParserElement := Word name_chars.

Definition and_ : ParserElement := CaselessKeyword "and".
Definition or_ : ParserElement := CaselessKeyword "or".

Definition opers : list (ParserElement * nat * opAssoc) :=
  [ (CaselessKeyword "not", 1%nat, RIGHT);
    (and_, 2%nat, LEFT);
    (or_, 2%nat, LEFT) ].

Definition quoted_name : ParserElement :=
  MatchFirst (QuotedString Str.dquote) (QuotedString Str.squote).

(** [pp.Group(key + oper + value)('mod')] *)
Definition modname : ParserElement := fun s =>
  match And (MatchFirst name quoted_name)
            (And (oneOf ["<="; "<"; "="; ">="; ">"; "!="]) (MatchFirst name quoted_name)) s with
  | Ok [PStr k; PStr o; PStr v] r => Ok [PMod k o v] r
  | Ok _ _ => ParseException
  | e => e
  end.

(** [pp.Group(Suppress('[') + infixNotation(modname, opers) + Suppress(']'))('modifier')] *)
Definition modifier (fuel : nat) : ParserElement := fun s =>
  match And (Suppress "[") (And (infixNotation fuel modname opers) (Suppress "]")) s with
  | Ok t r => Ok [PModifier t] r
  | e => e
  end.

Definition gene : ParserElement := name.

Definition expr (fuel : nat) : ParserElement :=
  infixNotation fuel gene ((modifier fuel, 1%nat, LEFT) :: opers).

(** The depth given to the grammar for a text: more than its length. *)
Definition fuel_for (instring : string) : nat := S (String.length (Str.expandtabs instring)).

End pp.

(** ** Exceptions *)

Inductive Exn : Type :=
| QueryError (msg : string)
| ValueError (msg : string)
| KeyError (msg : string)
| IndexError (msg : string)
| TypeError (msg : string)
| AttributeError (msg : string)
| FileNotFoundError (path : string)
| RecursionError.

(** ** Frames (pandas) *)

Module pd.

Inductive Cell : Type :=
| NaN
| Num (x : Q)
| Txt (s : string).

Definition notna (c : Cell) : bool :=
  match c with
  | NaN => false
  | _ => true
  end.

(** A column label of the three-level column index: transcription factor,
    analysis id ([None] for a missing id), attribute. *)
Definition Label : Type := string * option Z * string.

Definition tf_of (lb : Label) : string := fst (fst lb).
Definition analysis_of (lb : Label) : option Z := snd (fst lb).
Definition attr_of (lb : Label) : string := snd lb.

(** Equality of labels as a look-up by label uses it; a missing analysis id
    is found by a label that also has none. *)
Definition label_eqb (a b : Label) : bool :=
  String.eqb (tf_of a) (tf_of b)
  && match analysis_of a, analysis_of b with
     | Some x, Some y => Z.eqb x y
     | None, None => true
     | _, _ => false
     end
  && String.eqb (attr_of a) (attr_of b).

Record Column : Type := mkColumn {
  label : Label;
  cells : string -> Cell
}.

(** [TargetFrame]: a frame with the metadata [include] and
    [filter_string]; the row labels are the target genes. *)
Record TargetFrame : Type := mkFrame {
  index : list string;
  columns : list Column;
  include : bool;
  filter_string : string
}.

(** [TargetFrame(...)]: the constructor sets [include=True] and an empty
    [filter_string]. *)
Definition new_frame (idx : list string) (cols : list Column) : TargetFrame :=
  mkFrame idx cols true "".

Definition set_include (b : bool) (df : TargetFrame) : TargetFrame :=
  mkFrame (index df) (columns df) b (filter_string df).

Definition set_filter_string (s : string) (df : TargetFrame) : TargetFrame :=
  mkFrame (index df) (columns df) (include df) s.

(** A frame derived from [df] by an operation that keeps its metadata
    ([__finalize__]). *)
Definition derive (df : TargetFrame) (idx : list string) (cols : list Column) : TargetFrame :=
  mkFrame idx cols (include df) (filter_string df).

Definition labels (df : TargetFrame) : list Label := List.map label (columns df).

(** [df.empty] and [df.size] *)
Definition empty (df : TargetFrame) : bool :=
  (length (index df) =? 0)%nat || (length (columns df) =? 0)%nat.

Definition size (df : TargetFrame) : nat := length (index df) * length (columns df).

(** [values.isin(l)] on one value. *)
Definition isin (x : string) (l : list string) : bool := existsb (String.eqb x) l.

Definition label_in (x : Label) (l : list Label) : bool := existsb (label_eqb x) l.

(** The frame as nested lists of cells, row by row. *)
Definition to_rows (df : TargetFrame) : list (list Cell) :=
  List.map (fun r => List.map (fun c => cells c r) (columns df)) (index df).

(** [df.loc[mask, :]] for a mask on the row labels. *)
Definition loc_rows (keep : string -> bool) (df : TargetFrame) : TargetFrame :=
  derive df (filter keep (index df)) (columns df).

(** Sorting of labels, ascending and stable. *)
Fixpoint insert_sorted {A : Type} (leb : A -> A -> bool) (x : A) (l : list A) : list A :=
  match l with
  | [] => [x]
  | y :: l' => if leb x y then x :: l else y :: insert_sorted leb x l'
  end.

Definition sort {A : Type} (leb : A -> A -> bool) (l : list A) : list A :=
  fold_right (insert_sorted leb) [] l.

Fixpoint dedup {A : Type} (eqb : A -> A -> bool) (l : list A) : list A :=
  match l with
  | [] => []
  | x :: l' => x :: filter (fun y => negb (eqb x y)) (dedup eqb l')
  end.

Inductive How : Type := inner | outer.

(** [left.index.join(right.index, how)] for indexes without duplicates:
    the labels of [left] that [right] has, in the order of [left]; or the
    sorted union. *)
Definition join_index (how : How) (l r : list string) : list string :=
  match how with
  | inner => filter (fun x => isin x r) l
  | outer => sort String.leb (l ++ filter (fun x => negb (isin x l)) r)
  end.

(** A column read through the row labels of the frame it comes from: a row
    that frame does not have is missing. *)
Definition align_rows (idx : list string) (c : Column) : Column :=
  mkColumn (label c) (fun r => if isin r idx then cells c r else NaN).

(** [items_overlap_with_suffix]: when the two column indexes share labels,
    every level value of every label that is found in the shared labels
    (a look-up of a single value in a multi-level index is a look-up in
    its first level) gets the suffix of its side. Analysis ids are numbers
    and are never found among the names of the first level. *)
Definition to_rename (l r : list Label) : list Label :=
  filter (fun x => label_in x r) l.

Definition renamer (shared : list Label) (suffix : string) (x : string) : string :=
  if existsb (fun lb => String.eqb (tf_of lb) x) shared then x ++ suffix else x.

Definition rename_label (f : string -> string) (lb : Label) : Label :=
  (f (tf_of lb), analysis_of lb, f (attr_of lb)).

Definition rename_column (f : string -> string) (c : Column) : Column :=
  mkColumn (rename_label f (label c)) (cells c).

(** [left.merge(right, how=how, left_index=True, right_index=True,
    suffixes=suffixes)]: the columns of [left], then those of [right], on
    the joined row labels. The result is a new [TargetFrame]: the metadata
    of the operands is not carried over. *)
Definition merge (how : How) (suffixes : string * string) (left right : TargetFrame)
  : Exn + TargetFrame :=
  let shared := to_rename (labels left) (labels right) in
  let idx := join_index how (index left) (index right) in
  let lcols := List.map (align_rows (index left)) (columns left) in
  let rcols := List.map (align_rows (index right)) (columns right) in
  match shared with
  | [] => inr (new_frame idx (lcols ++ rcols))
  | _ :: _ =>
      if (String.eqb (fst suffixes) "" && String.eqb (snd suffixes) "")%bool
      then inl (ValueError "columns overlap but no suffix specified")
      else inr (new_frame idx
                  (List.map (rename_column (renamer shared (fst suffixes))) lcols
                   ++ List.map (rename_column (renamer shared (snd suffixes))) rcols))
  end.

(** The key of the column group of a label: [groupby(level=[0, 1],
    axis=1)]; a label without analysis id belongs to no group. *)
Definition group_key (lb : Label) : option (string * Z) :=
  match analysis_of lb with
  | Some a => Some (tf_of lb, a)
  | None => None
  end.

Definition key_eqb (k1 k2 : string * Z) : bool :=
  String.eqb (fst k1) (fst k2) && Z.eqb (snd k1) (snd k2).

Definition in_group (k : string * Z) (c : Column) : bool :=
  match group_key (label c) with
  | Some k' => key_eqb k k'
  | None => false
  end.

(** [x.notna().any(axis=None)] on the column group [k] of [df]. *)
Definition group_notna_any (df : TargetFrame) (k : string * Z) : bool :=
  existsb (fun c => in_group k c && existsb (fun r => notna (cells c r)) (index df)) (columns df).

(** [df.groupby(level=[0, 1], axis=1).filter(lambda x:
    x.notna().any(axis=None))]: the columns of the groups that have a cell
    that is not missing. *)
Definition filter_groups (df : TargetFrame) : TargetFrame :=
  derive df (index df)
    (filter (fun c => match group_key (label c) with
                      | Some k => group_notna_any df k
                      | None => false
                      end) (columns df)).

(** [df[mask]] for a boolean frame [mask], read by label and row:
    [df.where(mask)]. *)
Definition Mask : Type := Label -> string -> bool.

Definition where_ (mask : Mask) (df : TargetFrame) : TargetFrame :=
  derive df (index df)
    (List.map (fun c => mkColumn (label c)
                          (fun r => if mask (label c) r then cells c r else NaN))
              (columns df)).

(** [df.dropna(how='all')] and [df.dropna(axis=1, how='all')] *)
Definition dropna_rows (df : TargetFrame) : TargetFrame :=
  derive df (filter (fun r => existsb (fun c => notna (cells c r)) (columns df)) (index df))
    (columns df).

Definition dropna_columns (df : TargetFrame) : TargetFrame :=
  derive df (index df)
    (filter (fun c => existsb (fun r => notna (cells c r)) (index df)) (columns df)).

(** The cells of row [r], and the same read through the row labels of the
    frame: the cells of a row the frame does not have are missing. *)
Definition row (df : TargetFrame) (r : string) : list Cell :=
  List.map (fun c => cells c r) (columns df).

Definition aligned_row (df : TargetFrame) (r : string) : list Cell :=
  if isin r (index df) then row df r else List.map (fun _ => NaN) (columns df).

(** The number of cells that are not missing in a column. *)
Definition count_column (idx : list string) (c : Column) : nat :=
  length (filter (fun r => notna (cells c r)) idx).

End pd.

(** ** The data source

    The tables of [querytgdb.models] that the engine reads, as the rows the
    ORM iterates over. *)

Module db.

Record AnalysisRow : Type := mkAnalysis {
  id : Z;
  tf_id : Z;
  tf__gene_id : string;
  tf__name : string
}.

Record AnalysisDataRow : Type := mkAnalysisData {
  analysisdata__analysis_id : Z;
  analysisdata__key__name : string;
  analysisdata__value : string
}.

Record InteractionRow : Type := mkInteraction {
  target__gene_id : string;
  analysis_id : Z
}.

Record RegulationRow : Type := mkRegulation {
  reg_analysis_id : Z;
  reg_target__gene_id : string;
  p_value : pd.Cell;
  foldchange : pd.Cell
}.

Record Database : Type := mkDatabase {
  Analysis : list AnalysisRow;
  AnalysisData : list AnalysisDataRow;
  Interaction : list InteractionRow;
  Regulation : list RegulationRow
}.

End db.

(** [re.match(r'^pat$', s, flags=re.I)]: the whole of [s], letter case
    apart; [$] also matches in front of a final line break. *)
Definition re_full_i (pat s : string) : bool :=
  Str.ieq s pat || Str.ieq s (pat ++ String Str.lf "").

Definition zin (x : Z) (l : list Z) : bool := existsb (Z.eqb x) l.

(** ** Table fetchers *)

(** A row of the long frame the fetchers build before reshaping. *)
Record Long : Type := mkLong {
  TARGET : string;
  ANALYSIS : Z;
  TF : string;
  EDGE : pd.Cell;
  Pvalue : pd.Cell;
  Log2FC : pd.Cell;
  ADD_EDGES : pd.Cell
}.

Definition long_value (v : string) (x : Long) : pd.Cell :=
  if String.eqb v "EDGE" then EDGE x
  else if String.eqb v "Pvalue" then Pvalue x
  else if String.eqb v "Log2FC" then Log2FC x
  else if String.eqb v "ADD_EDGES" then ADD_EDGES x
  else pd.NaN.

Definition set_EDGE (e : pd.Cell) (x : Long) : Long :=
  mkLong (TARGET x) (ANALYSIS x) (TF x) e (Pvalue x) (Log2FC x) (ADD_EDGES x).

Definition same_entry (x y : Long) : bool :=
  String.eqb (TF x) (TF y) && Z.eqb (ANALYSIS x) (ANALYSIS y) && String.eqb (TARGET x) (TARGET y).

Fixpoint has_duplicates (rows : list Long) : bool :=
  match rows with
  | [] => false
  | x :: rows' => existsb (same_entry x) rows' || has_duplicates rows'
  end.

Definition key_leb (k1 k2 : string * Z) : bool :=
  if String.eqb (fst k1) (fst k2) then Z.leb (snd k1) (snd k2) else String.leb (fst k1) (fst k2).

(** The reshaping shared by the two fetchers ([pivot] or [unstack], then
    the levels put in the order (TF, analysis, attribute), the columns
    sorted on the first two levels and the columns without any value
    dropped): one row per target, sorted; one column per (TF, analysis) of
    the long frame and value column, the value columns in their order. *)
Definition reshape (vals : list string) (rows : list Long) : Exn + pd.TargetFrame :=
  if has_duplicates rows
  then inl (ValueError "Index contains duplicate entries, cannot reshape")
  else
    let idx := pd.sort String.leb (pd.dedup String.eqb (List.map TARGET rows)) in
    let keys := pd.sort key_leb (pd.dedup pd.key_eqb (List.map (fun x => (TF x, ANALYSIS x)) rows)) in
    let column (k : string * Z) (v : string) : pd.Column :=
      pd.mkColumn (fst k, Some (snd k), v)
        (fun r => match find (fun x => pd.key_eqb k (TF x, ANALYSIS x) && String.eqb (TARGET x) r) rows with
                  | Some x => long_value v x
                  | None => pd.NaN
                  end) in
    inr (pd.dropna_columns
           (pd.new_frame idx (flat_map (fun k => List.map (column k) vals) keys))).

(** [df.merge(reg, on=['ANALYSIS', 'TARGET'], how='left')] *)
Definition merge_reg (reg : list db.RegulationRow) (rows : list Long) : list Long :=
  flat_map (fun x =>
    match filter (fun g => Z.eqb (db.reg_analysis_id g) (ANALYSIS x)
                           && String.eqb (db.reg_target__gene_id g) (TARGET x)) reg with
    | [] => [x]
    | found => List.map (fun g => mkLong (TARGET x) (ANALYSIS x) (TF x) (EDGE x)
                                          (db.p_value g) (db.foldchange g) (ADD_EDGES x)) found
    end) rows.

Section Engine.

(** The data source, and [add_edges], which only adds the values of the
    column [ADD_EDGES] from the edge annotations or raises
    [ValueError("No Edge Data")]. *)
Variable data : db.Database.
Variable add_edges : list Long -> list string -> Exn + list Long.

(** [if edges: try: df = add_edges(df, edges) except ValueError: pass] *)
Definition try_add_edges (rows : list Long) (edges : option (list string))
  : Exn + (list Long * bool) :=
  match edges with
  | None | Some [] => inr (rows, false)
  | Some es =>
      match add_edges rows es with
      | inr rows' => inr (rows', true)
      | inl (ValueError _) | inl (QueryError _) => inr (rows, false)
      | inl e => inl e
      end
  end.

Definition upper_isin (x : string) (l : list string) : bool :=
  pd.isin (Str.upper x) (List.map Str.upper l).

(** [get_tf_data]: the data of a single transcription factor. *)
Definition get_tf_data (query : string) (edges : option (list string))
    (tf_filter_list target_filter_list : option (list string)) : Exn + pd.TargetFrame :=
  let allowed :=
    match tf_filter_list with
    | Some l => existsb (re_full_i query) l
    | None => true
    end in
  let analyses :=
    if allowed
    then List.map db.id (filter (fun a => Str.ieq (db.tf__gene_id a) query) (db.Analysis data))
    else [] in
  let df :=
    if allowed
    then
      let rows := List.map (fun i => mkLong (db.target__gene_id i) (db.analysis_id i) query
                                            pd.NaN pd.NaN pd.NaN pd.NaN)
                    (filter (fun i => zin (db.analysis_id i) analyses) (db.Interaction data)) in
      match target_filter_list with
      | Some l => filter (fun x => upper_isin (TARGET x) l) rows
      | None => rows
      end
    else [] in
  match df with
  | _ :: _ =>
      let reg := filter (fun g => zin (db.reg_analysis_id g) analyses) (db.Regulation data) in
      let df := List.map (set_EDGE (pd.Txt "+")) df in
      let '(df, vals) :=
        match reg with
        | _ :: _ =>
            (List.map (fun x => if zin (ANALYSIS x) (List.map db.reg_analysis_id reg)
                                then set_EDGE pd.NaN x else x)
                      (merge_reg reg df),
             ["EDGE"; "Pvalue"; "Log2FC"])
        | [] => (df, ["EDGE"])
        end in
      match try_add_edges df edges with
      | inl e => inl e
      | inr (df, added) =>
          match reshape (if added then vals ++ ["ADD_EDGES"] else vals) df with
          | inl e => inl e
          | inr t => inr (pd.set_filter_string (pd.filter_string t ++ query) t)
          end
      end
  | [] =>
      let t := pd.new_frame [] [pd.mkColumn (query, None, "EDGE") (fun _ => pd.NaN)] in
      inr (pd.set_filter_string (pd.filter_string t ++ query) t)
  end.


(** [get_all_tf]: the data of all transcription factors at once; [query] is
    one of ["andalltfs"], ["oralltfs"] and ["multitype"]. *)
Definition get_all_tf (query : string) (edges : option (list string))
    (tf_filter_list target_filter_list : option (list string)) : Exn + pd.TargetFrame :=
  let restricted : Exn + list db.InteractionRow :=
    if String.eqb query "multitype" then
      let a := flat_map (fun an =>
                 List.map (fun d => (db.id an, db.tf_id an, db.analysisdata__value d))
                   (filter (fun d => Z.eqb (db.analysisdata__analysis_id d) (db.id an)
                                     && Str.ieq (db.analysisdata__key__name d) "EXPERIMENT_TYPE")
                           (db.AnalysisData data)))
                 (db.Analysis data) in
      match a with
      | [] => inl (KeyError "tf_id")
      | _ :: _ =>
          let nunique (tf : Z) : nat :=
            length (pd.dedup String.eqb
                      (List.map snd (filter (fun x => Z.eqb (snd (fst x)) tf) a))) in
          let ids := List.map (fun x => fst (fst x))
                       (filter (fun x => (1 <? nunique (snd (fst x)))%nat) a) in
          inr (filter (fun i => zin (db.analysis_id i) ids) (db.Interaction data))
      end
    else inr (db.Interaction data) in
  match restricted with
  | inl e => inl e
  | inr qs =>
      let qs :=
        match tf_filter_list with
        | Some l => filter (fun i => existsb (fun an => Z.eqb (db.id an) (db.analysis_id i)
                                                        && pd.isin (db.tf__gene_id an) l)
                                             (db.Analysis data)) qs
        | None => qs
        end in
      let df := match target_filter_list with
                | Some l => filter (fun i => upper_isin (db.target__gene_id i) l) qs
                | None => qs
                end in
      let df := flat_map (fun i =>
                  List.map (fun an => mkLong (db.target__gene_id i) (db.analysis_id i)
                                             (db.tf__gene_id an) pd.NaN pd.NaN pd.NaN pd.NaN)
                    (filter (fun an => Z.eqb (db.id an) (db.analysis_id i)) (db.Analysis data)))
                  df in
      let df := merge_reg (db.Regulation data) df in
      match df with
      | [] => inl (ValueError "No data in database.")
      | _ :: _ =>
          let no_fc (a : Z) : bool :=
            forallb (fun x => negb (Z.eqb (ANALYSIS x) a) || negb (pd.notna (Log2FC x))) df in
          match try_add_edges df edges with
          | inl e => inl e
          | inr (df, added) =>
              let df := List.map (fun x => set_EDGE (if no_fc (ANALYSIS x) then pd.Txt "+" else pd.NaN) x) df in
              let vals := ["EDGE"; "Pvalue"; "Log2FC"] in
              match reshape (if added then vals ++ ["ADD_EDGES"] else vals) df with
              | inl e => inl e
              | inr t =>
                  let t := pd.set_filter_string (pd.filter_string t ++ query) t in
                  if String.eqb query "andalltfs" then
                    inr (pd.loc_rows
                           (fun r => forallb (fun c => negb (pd.isin (pd.attr_of (pd.label c)) ["EDGE"; "Log2FC"])
                                                       || pd.notna (pd.cells c r))
                                             (pd.columns t)) t)
                  else inr t
              end
          end
      end
  end.

(** ** Modifier evaluator *)

(** [query_metadata]: the columns of the analyses that carry the
    annotation [key] with the value [value]. *)
Definition query_metadata (df : pd.TargetFrame) (key value : string) : pd.Mask :=
  let ref_ids := List.map db.analysisdata__analysis_id
                   (filter (fun d => Str.ieq (db.analysisdata__key__name d) key
                                     && Str.ieq (db.analysisdata__value d) value
                                     && zin (db.analysisdata__analysis_id d) (List.map db.id (db.Analysis data)))
                           (db.AnalysisData data)) in
  fun lb _ => match pd.analysis_of lb with
              | Some a => zin a ref_ids
              | None => false
              end.

(** [float(value)]: [None] when the text is not a number and [float]
    raises [ValueError]. *)
Variable float : string -> option Q.

(** A comparison of a cell with a number, as pandas compares the values of
    a column: a missing cell differs from every number and is in no other
    relation with it; a text cannot be ordered against a number. *)
Definition compare (oper : string) (c : pd.Cell) (value : Q) : option (Exn + bool) :=
  let num (f : Q -> Q -> bool) (na : bool) : Exn + bool :=
    match c with
    | pd.Num x => inr (f x value)
    | pd.NaN => inr na
    | pd.Txt _ => inl (TypeError "not supported between instances of 'str' and 'float'")
    end in
  if String.eqb oper "=" then
    Some (match c with pd.Num x => inr (Qeq_bool x value) | _ => inr false end)
  else if String.eqb oper ">=" then Some (num (fun x v => Qle_bool v x) false)
  else if String.eqb oper "<=" then Some (num (fun x v => Qle_bool x v) false)
  else if String.eqb oper ">" then Some (num (fun x v => negb (Qle_bool x v)) false)
  else if String.eqb oper "<" then Some (num (fun x v => negb (Qle_bool v x)) false)
  else if String.eqb oper "!=" then
    Some (match c with pd.Num x => inr (negb (Qeq_bool x value)) | _ => inr true end)
  else None.

(** [apply_comp_mod]: the comparison of the column [key] of the column
    group [name] of [df] with [value], for [Pvalue] and [Log2FC]. *)
Definition apply_comp_mod (df : pd.TargetFrame) (name : string * Z) (key oper value : string)
  : Exn + pd.Mask :=
  match float value with
  | None => inl (ValueError ("could not convert string to float: " ++ value))
  | Some v =>
      match compare oper pd.NaN v with
      | None => inl (ValueError ("invalid operator: " ++ oper))
      | Some _ =>
          match find (fun c => pd.label_eqb (pd.label c) (fst name, Some (snd name), key))
                     (pd.columns df) with
          | None => inr (fun _ _ => false)
          | Some c =>
              match find (fun r => match compare oper (pd.cells c r) v with
                                   | Some (inl _) => true
                                   | _ => false
                                   end) (pd.index df) with
              | Some r => match compare oper (pd.cells c r) v with
                          | Some (inl e) => inl e
                          | _ => inr (fun _ _ => false)
                          end
              | None => inr (fun _ r => match compare oper (pd.cells c r) v with
                                        | Some (inr b) => b
                                        | _ => false
                                        end)
              end
          end
      end
  end.

Definition COL_TRANSLATE (value : string) : string :=
  if String.eqb value "PVALUE" then "Pvalue"
  else if String.eqb value "FC" then "Log2FC"
  else if String.eqb value "ADDITIONAL_EDGE" then "ADD_EDGES"
  else value.

(** [apply_has_column] *)
Definition apply_has_column (df : pd.TargetFrame) (name : string * Z) (value : string) : pd.Mask :=
  let value := COL_TRANSLATE value in
  if pd.label_in (fst name, Some (snd name), value) (pd.labels df)
  then fun _ _ => true
  else fun _ _ => false.

(** The keys of the column groups of [df], sorted. *)
Definition groups (df : pd.TargetFrame) : list (string * Z) :=
  pd.sort key_leb
    (pd.dedup pd.key_eqb
       (flat_map (fun lb => match pd.group_key lb with
                            | Some k => [k]
                            | None => []
                            end) (pd.labels df))).

(** [df.groupby(level=[0, 1], axis=1).apply(f)]: [f] on every column
    group, the masks put side by side. *)
Fixpoint groupby_apply (f : string * Z -> Exn + pd.Mask) (ks : list (string * Z))
  : Exn + pd.Mask :=
  match ks with
  | [] => inr (fun _ _ => false)
  | k :: ks' =>
      match f k with
      | inl e => inl e
      | inr m =>
          match groupby_apply f ks' with
          | inl e => inl e
          | inr m' => inr (fun lb r => match pd.group_key lb with
                                       | Some k' => if pd.key_eqb k k' then m lb r else m' lb r
                                       | None => false
                                       end)
          end
      end
  end.

(** The look-up of edge annotations behind the key [ADDITIONAL_EDGE]
    ([apply_has_add_edges] on every column group, with the annotation ids
    of the rows): it reads the edge tables only. *)
Variable has_add_edges : pd.TargetFrame -> string -> Exn + pd.Mask.

(** What [get_mod] returns: a mask, or the plain token it was given, which
    it returns as it is. *)
Inductive ModItem : Type :=
| MStr (s : string)
| MFrame (m : pd.Mask).

Definition is_str (s : string) (curr : pp.ParseResults) : bool :=
  match curr with
  | pp.PStr t => String.eqb t s
  | _ => false
  end.

Definition mask_and (a b : ModItem) : Exn + ModItem :=
  match a, b with
  | MFrame x, MFrame y => inr (MFrame (fun lb r => x lb r && y lb r))
  | _, _ => inl (TypeError "unsupported operand type(s) for &")
  end.

Definition mask_or (a b : ModItem) : Exn + ModItem :=
  match a, b with
  | MFrame x, MFrame y => inr (MFrame (fun lb r => x lb r || y lb r))
  | _, _ => inl (TypeError "unsupported operand type(s) for |")
  end.

Definition mask_not (a : ModItem) : Exn + ModItem :=
  match a with
  | MFrame x => inr (MFrame (fun lb r => negb (x lb r)))
  | _ => inl (TypeError "bad operand type for unary ~")
  end.

Definition lift_mask (r : Exn + pd.Mask) : Exn + ModItem :=
  match r with
  | inl e => inl e
  | inr m => inr (MFrame m)
  end.

(** The loop of [get_mod] over the tokens of a group. The stack holds, for
    a token that was put on it, what [get_mod] makes of it when it is
    taken off ([rec] on the token), and the masks that were put on it. *)
Fixpoint get_mod_loop (rec : pp.ParseResults -> Exn + ModItem)
    (it : list pp.ParseResults) (stack : list (Exn + ModItem)) : Exn + ModItem :=
  let stop (stack : list (Exn + ModItem)) : Exn + ModItem :=
    match stack with
    | top :: _ => top
    | [] => inl (IndexError "pop from an empty deque")
    end in
  match it with
  | [] => stop stack
  | curr :: it' =>
      if is_str "and" curr || is_str "or" curr then
        match stack with
        | [] => inl (IndexError "pop from an empty deque")
        | top :: stack' =>
            match top with
            | inl e => inl e
            | inr prec =>
                match it' with
                | [] => stop stack'
                | nxt :: it'' =>
                    match rec nxt with
                    | inl e => inl e
                    | inr succ =>
                        match (if is_str "and" curr then mask_and prec succ
                               else mask_or prec succ) with
                        | inl e => inl e
                        | inr m => get_mod_loop rec it'' (inr m :: stack')
                        end
                    end
                end
            end
        end
      else if is_str "not" curr then
        match it' with
        | [] => stop stack
        | nxt :: it'' =>
            match rec nxt with
            | inl e => inl e
            | inr succ =>
                match mask_not succ with
                | inl e => inl e
                | inr m => get_mod_loop rec it'' (inr m :: stack)
                end
            end
        end
      else get_mod_loop rec it' (rec curr :: stack)
  end.

(** [get_mod]: the mask of a modifier on [df]. *)
Fixpoint get_mod (df : pd.TargetFrame) (query : pp.ParseResults) : Exn + ModItem :=
  match query with
  | pp.PStr s => inr (MStr s)
  | pp.PMod key oper value =>
      if re_full_i "pvalue" key then
        lift_mask (groupby_apply (fun k => apply_comp_mod df k "Pvalue" oper value) (groups df))
      else if re_full_i "fc" key then
        lift_mask (groupby_apply (fun k => apply_comp_mod df k "Log2FC" oper value) (groups df))
      else if re_full_i "additional_edge" key then
        lift_mask (has_add_edges df value)
      else if re_full_i "has_column" key then
        lift_mask (groupby_apply (fun k => inr (apply_has_column df k (Str.upper value))) (groups df))
      else inr (MFrame (query_metadata df key value))
  | pp.PGroup toks | pp.PModifier toks => get_mod_loop (get_mod df) toks []
  end.

(** [mod_to_str] *)
Fixpoint mod_to_str (curr : pp.ParseResults) : string :=
  match curr with
  | pp.PStr s => s
  | pp.PGroup toks | pp.PModifier toks => Str.join " " (List.map mod_to_str toks)
  | pp.PMod key oper value => Str.join " " [key; oper; value]
  end.

(** ** Set-algebra evaluator *)

(** [uuid4()]: the [n]-th token drawn in an evaluation. The state of an
    evaluation is the number of tokens drawn so far. *)
Variable uuid4 : nat -> string.

Definition M (A : Type) : Type := nat -> Exn + (A * nat).

Definition ret {A : Type} (a : A) : M A := fun n => inr (a, n).

Definition raise {A : Type} (e : Exn) : M A := fun _ => inl e.

Definition bind {A B : Type} (m : M A) (k : A -> M B) : M B := fun n =>
  match m n with
  | inl e => inl e
  | inr (a, n') => k a n'
  end.

Definition lift {A : Type} (r : Exn + A) : M A := fun n =>
  match r with
  | inl e => inl e
  | inr a => inr (a, n)
  end.

Notation "x <- m ;; k" := (bind m (fun x => k))
  (at level 61, m at next level, right associativity).

(** [f' "{filter_string}" {token}'] *)
Definition suffix (filter_string token : string) : string :=
  " " ++ String Str.dquote (filter_string ++ String Str.dquote (" " ++ token)).

(** [get_suffix] *)
Definition get_suffix (prec succ : pd.TargetFrame) : M (string * string) := fun n =>
  inr ((suffix (pd.filter_string prec) (uuid4 n),
        suffix (pd.filter_string succ) (uuid4 (S n))), S (S n)).

Definition merge_with_suffix (how : pd.How) (prec succ : pd.TargetFrame) : M pd.TargetFrame :=
  suffixes <- get_suffix prec succ ;;
  lift (pd.merge how suffixes prec succ).

(** The table [df] of an [and] of two evaluated operands, before the
    empty column groups are dropped. *)
Definition combine_and (prec succ : pd.TargetFrame) : M pd.TargetFrame :=
  if pd.include prec && pd.include succ then
    merge_with_suffix pd.inner prec succ
  else if negb (pd.include prec) && pd.include succ then
    ret (pd.loc_rows (fun r => negb (pd.isin r (pd.index prec))) succ)
  else if pd.include prec && negb (pd.include succ) then
    ret (pd.loc_rows (fun r => negb (pd.isin r (pd.index succ))) prec)
  else
    df <- merge_with_suffix pd.outer prec succ ;;
    ret (pd.set_include false df).

(** The table [df] of an [or]. *)
Definition combine_or (prec succ : pd.TargetFrame) : M pd.TargetFrame :=
  if pd.include prec && pd.include succ then
    merge_with_suffix pd.outer prec succ
  else if negb (pd.include prec) && pd.include succ then
    ret succ
  else if pd.include prec && negb (pd.include succ) then
    ret prec
  else
    df <- merge_with_suffix pd.inner prec succ ;;
    ret (pd.set_include false df).

(** Whether [groupby(level=[0, 1], axis=1).filter(...)] raises
    [IndexError] on a frame, which it does on some shapes of the row and
    column indexes. *)
Variable filter_raises_IndexError : pd.TargetFrame -> bool.

(** An [and] or [or] of two evaluated operands: the table, the column
    groups without any value dropped, and the filter string. *)
Definition binary (curr : string) (prec succ : pd.TargetFrame) : M pd.TargetFrame :=
  df <- (if String.eqb curr "and" then combine_and prec succ else combine_or prec succ) ;;
  let filter_string :=
    (pd.filter_string prec ++ (if String.eqb curr "and" then " and " else " or "))
    ++ pd.filter_string succ in
  let df := if filter_raises_IndexError df then pd.new_frame [] [] else pd.filter_groups df in
  ret (pd.set_filter_string filter_string df).

(** [not]: the flag is flipped and the filter string prefixed. *)
Definition negate (succ : pd.TargetFrame) : pd.TargetFrame :=
  pd.set_filter_string ("not " ++ pd.filter_string succ)
    (pd.set_include (negb (pd.include succ)) succ).

(** A modifier applied to an evaluated operand, from its mask. *)
Definition modify (prec : pd.TargetFrame) (mod_ : ModItem) (curr : pp.ParseResults)
  : Exn + pd.TargetFrame :=
  match mod_ with
  | MStr s => inl (KeyError s)
  | MFrame mask =>
      let prec := pd.dropna_rows (pd.where_ mask prec) in
      if filter_raises_IndexError prec then inl (IndexError "")
      else
        let prec := pd.filter_groups prec in
        inr (pd.set_filter_string (pd.filter_string prec ++ "[" ++ mod_to_str curr ++ "]") prec)
  end.

Definition is_modifier (curr : pp.ParseResults) : bool :=
  match curr with
  | pp.PModifier _ => true
  | _ => false
  end.

Section GetTf.

Variable edges : option (list string).
Variable tf_filter_list target_filter_list : option (list string).

(** [get_tf] on a plain token: a keyword or the name of a gene. *)
Definition get_tf_str (query : string) : M pd.TargetFrame :=
  if pd.isin (Str.lower query) ["andalltfs"; "oralltfs"; "multitype"]
  then lift (get_all_tf (Str.lower query) edges tf_filter_list target_filter_list)
  else lift (get_tf_data query edges tf_filter_list target_filter_list).

(** The loop of [get_tf] over the tokens of a group. The stack holds, for
    a token that was put on it, the evaluation [get_tf] makes of it when
    it is taken off ([rec] on the token, run at that moment), and the
    tables that were put on it, which [get_tf] returns as they are. *)
Fixpoint get_tf_loop (rec : pp.ParseResults -> M pd.TargetFrame)
    (it : list pp.ParseResults) (stack : list (M pd.TargetFrame)) : M pd.TargetFrame :=
  let stop (stack : list (M pd.TargetFrame)) : M pd.TargetFrame :=
    match stack with
    | top :: _ => top
    | [] => raise (IndexError "pop from an empty deque")
    end in
  match it with
  | [] => stop stack
  | curr :: it' =>
      if is_str "and" curr || is_str "or" curr then
        match stack with
        | [] => raise (IndexError "pop from an empty deque")
        | top :: stack' =>
            prec <- top ;;
            match it' with
            | [] => stop stack'
            | nxt :: it'' =>
                succ <- rec nxt ;;
                df <- binary (if is_str "and" curr then "and" else "or") prec succ ;;
                get_tf_loop rec it'' (ret df :: stack')
            end
        end
      else if is_str "not" curr then
        match it' with
        | [] => stop stack
        | nxt :: it'' =>
            succ <- rec nxt ;;
            get_tf_loop rec it'' (ret (negate succ) :: stack)
        end
      else if is_modifier curr then
        match stack with
        | [] => raise (IndexError "pop from an empty deque")
        | top :: stack' =>
            prec <- top ;;
            mod_ <- lift (get_mod prec curr) ;;
            prec <- lift (modify prec mod_ curr) ;;
            get_tf_loop rec it' (ret prec :: stack')
        end
      else get_tf_loop rec it' (rec curr :: stack)
  end.

(** [get_tf]: the table of a query. *)
Fixpoint get_tf (query : pp.ParseResults) : M pd.TargetFrame :=
  match query with
  | pp.PStr s => get_tf_str s
  | pp.PGroup toks | pp.PModifier toks => get_tf_loop get_tf toks []
  | pp.PMod key oper value =>
      get_tf_loop (fun q => match q with
                            | pp.PStr s => get_tf_str s
                            | _ => raise (TypeError "")
                            end)
        [pp.PStr key; pp.PStr oper; pp.PStr value] []
  end.

End GetTf.

(** ** Column reorder *)

(** The columns of [df.loc[:, (slice(None), slice(None), ['EDGE',
    'Log2FC'])]]. *)
Definition counted (c : pd.Column) : bool :=
  pd.isin (pd.attr_of (pd.label c)) ["EDGE"; "Log2FC"].

(** [.count(axis=1, level=l).sum()]: for every value of the level, in the
    order of the level's values, the number of counted cells that are not
    missing. *)
Definition level_counts {K : Type} (eqb leb : K -> K -> bool) (key : pd.Label -> option K)
    (df : pd.TargetFrame) : list (K * nat) :=
  let has (k : K) (c : pd.Column) : bool :=
    match key (pd.label c) with
    | Some k' => eqb k k'
    | None => false
    end in
  List.map (fun k => (k, list_sum (List.map (pd.count_column (pd.index df))
                                    (filter (fun c => counted c && has k c) (pd.columns df)))))
    (pd.sort leb (pd.dedup eqb (flat_map (fun lb => match key lb with
                                                    | Some k => [k]
                                                    | None => []
                                                    end) (pd.labels df)))).

(** [.sort_values(ascending=False)]: the ascending order, reversed. *)
Definition sort_values_desc {K : Type} (s : list (K * nat)) : list K :=
  List.map fst (rev (pd.sort (fun a b => (snd a <=? snd b)%nat) s)).

(** The columns whose level value is in [order], regrouped in that order;
    columns with the same value keep their order. *)
Definition take_by {K : Type} (eqb : K -> K -> bool) (key : pd.Label -> option K)
    (order : list K) (cols : list pd.Column) : list pd.Column :=
  flat_map (fun k => filter (fun c => match key (pd.label c) with
                                      | Some k' => eqb k k'
                                      | None => false
                                      end) cols) order.

(** The maximal runs of neighbouring columns of one transcription
    factor. *)
Fixpoint runs (cols : list pd.Column) : list (list pd.Column) :=
  match cols with
  | [] => []
  | c :: cols' =>
      match runs cols' with
      | (c' :: r) :: rs =>
          if String.eqb (pd.tf_of (pd.label c)) (pd.tf_of (pd.label c'))
          then (c :: c' :: r) :: rs
          else [c] :: (c' :: r) :: rs
      | _ => [[c]]
      end
  end.

(** [df.reindex(labels=order, axis=1, level=1)]: the second level is put
    in the given order below the first level, whose order is kept. *)
Definition reindex_level1 (order : list Z) (df : pd.TargetFrame) : pd.TargetFrame :=
  pd.derive df (pd.index df)
    (flat_map (take_by Z.eqb pd.analysis_of order) (runs (pd.columns df))).

(** [df.reindex(labels=order, axis=1, level=0)] *)
Definition reindex_level0 (order : list string) (df : pd.TargetFrame) : pd.TargetFrame :=
  pd.derive df (pd.index df)
    (take_by String.eqb (fun lb => Some (pd.tf_of lb)) order (pd.columns df)).

(** [reorder_data]: order by TF with most edges, then analysis with most
    edges within tf. *)
Definition reorder_data (df : pd.TargetFrame) : pd.TargetFrame :=
  let analysis_order := sort_values_desc (level_counts Z.eqb Z.leb pd.analysis_of df) in
  let tf_order :=
    sort_values_desc (level_counts String.eqb String.leb (fun lb => Some (pd.tf_of lb)) df) in
  reindex_level0 tf_order (reindex_level1 analysis_order df).

(** ** Entry points *)

(** [parse_query] *)
Definition parse_query (query : string) (edges : option (list string))
    (tf_filter_list target_filter_list : option (list string)) : Exn + pd.TargetFrame :=
  match pp.parseString (pp.expr (pp.fuel_for query)) query with
  | pp.ParseException => inl (QueryError "Could not parse query")
  | pp.OutOfFuel => inl RecursionError
  | pp.Ok [] _ => inl (AttributeError "'NoneType' object has no attribute 'lower'")
  | pp.Ok (q :: _) _ =>
      match get_tf edges tf_filter_list target_filter_list q O with
      | inl e => inl e
      | inr (result, _) =>
          if pd.empty result || negb (pd.include result)
          then inl (QueryError "empty query")
          else inr (reorder_data result)
      end
  end.

(** ** Result assembler *)

(** The metadata table: analysis id, key, value. *)
Definition Metadata : Type := list (Z * string * string).

Fixpoint has_duplicate_keys (m : Metadata) : bool :=
  match m with
  | [] => false
  | x :: m' =>
      existsb (fun y => Z.eqb (fst (fst x)) (fst (fst y)) && String.eqb (snd (fst x)) (snd (fst y))) m'
      || has_duplicate_keys m'
  end.

(** [get_metadata]: the annotations of the analyses [ids], with the id
    and the name of their transcription factor. *)
Definition get_metadata (ids : list (option Z)) : Exn + Metadata :=
  let analyses := filter (fun an => existsb (fun i => match i with
                                                     | Some z => Z.eqb z (db.id an)
                                                     | None => false
                                                     end) ids) (db.Analysis data) in
  let df := flat_map (fun an =>
              List.map (fun d => (db.id an, db.analysisdata__key__name d, db.analysisdata__value d))
                (filter (fun d => Z.eqb (db.analysisdata__analysis_id d) (db.id an))
                        (db.AnalysisData data))) analyses in
  let gene_names :=
    (List.map (fun an => (db.id an, "GENE_ID", db.tf__gene_id an)) analyses
     ++ List.map (fun an => (db.id an, "GENE_NAME", db.tf__name an)) analyses)%list in
  let df := (df ++ gene_names)%list in
  if has_duplicate_keys df
  then inl (ValueError "Index contains duplicate entries, cannot reshape")
  else inr df.

(** [get_tf_count]: per row, the counted cells that are not missing. *)
Definition get_tf_count (df : pd.TargetFrame) (r : string) : nat :=
  length (filter (fun c => counted c && pd.notna (pd.cells c r)) (pd.columns df)).

(** [get_stats]: per column group, the counted cells that are not
    missing. *)
Definition get_stats (result : pd.TargetFrame) : list (string * Z * nat) :=
  List.map (fun k => (k, list_sum (List.map (pd.count_column (pd.index result))
                                     (filter (fun c => counted c && pd.in_group k c)
                                             (pd.columns result)))))
    (groups (pd.new_frame (pd.index result) (filter counted (pd.columns result)))).

(** The user's gene lists: gene, [User List], [User List Count]. *)
Definition UserLists : Type := list (string * string * nat).

Definition user_genes (u : UserLists) : list string := List.map (fun x => fst (fst x)) u.

(** The files of a cache directory. *)
Inductive Pickle : Type :=
| PTable (df : pd.TargetFrame)
| PMetadata (m : Metadata)
| PUserLists (u : UserLists).

Definition Files : Type := list (string * Pickle).

Definition to_pickle (path : string) (x : Pickle) (fs : Files) : Files := (path, x) :: fs.

Definition read_pickle (path : string) (fs : Files) : Exn + Pickle :=
  match find (fun f => String.eqb (fst f) path) fs with
  | Some f => inr (snd f)
  | None => inl (FileNotFoundError path)
  end.

Definition read_table (path : string) (fs : Files) : Exn + pd.TargetFrame :=
  match read_pickle path fs with
  | inr (PTable df) => inr df
  | inr _ => inl (TypeError path)
  | inl e => inl e
  end.

Definition read_metadata (path : string) (fs : Files) : Exn + Metadata :=
  match read_pickle path fs with
  | inr (PMetadata m) => inr m
  | inr _ => inl (TypeError path)
  | inl e => inl e
  end.

(** The gene annotations ([annotations()] without the column [id]). *)
Variable annotations : string -> option (list string).

(** A row of the assembled table. *)
Record OutRow : Type := mkOutRow {
  out_gene : string;
  out_annotation : option (list string);
  out_user_list : option (string * nat);
  out_tf_count : nat;
  out_cells : list pd.Cell
}.

Definition Output : Type := (list pd.Label * list OutRow) * Metadata * list (string * Z * nat).

Definition user_list_leb (a b : OutRow) : bool :=
  match out_user_list a, out_user_list b with
  | Some (na, ca), Some (nb, cb) => if (ca =? cb)%nat then String.leb na nb else (ca <=? cb)%nat
  | _, _ => true
  end.

(** The part of [get_query_result] after the size check. *)
Definition assemble (result : pd.TargetFrame) (user_lists : option UserLists) : list pd.Label * list OutRow :=
  let row (g : string) (u : option (string * nat)) : OutRow :=
    mkOutRow g (annotations g) u (get_tf_count result g)
             (List.map (fun c => pd.cells c g) (pd.columns result)) in
  let rows :=
    match user_lists with
    | Some u =>
        pd.sort user_list_leb
          (flat_map (fun x => if pd.isin (fst (fst x)) (pd.index result)
                              then [row (fst (fst x)) (Some (snd (fst x), snd x))]
                              else []) u)
    | None => List.map (fun g => row g None) (pd.index result)
    end in
  (pd.labels result, pd.sort (fun a b => (out_tf_count b <=? out_tf_count a)%nat) rows).

(** [get_query_result]: the result of a query string, or of the cache.
    The files written are returned with the outcome. *)
Definition get_query_result (query : option string) (user_lists : option UserLists)
    (tf_filter_list : option (list string)) (edges : option (list string))
    (cache_path : option string) (size_limit : option nat) (fs : Files)
  : Files * (Exn + Output) :=
  let finish (fs : Files) (result : pd.TargetFrame) (metadata : Metadata)
             (stats : list (string * Z * nat)) (user_lists : option UserLists) :=
    if match size_limit with
       | Some limit => (limit <? pd.size result)%nat
       | None => false
       end
    then (fs, inl (QueryError "Result too large."))
    else (fs, inr (assemble result user_lists, metadata, stats)) in
  match query with
  | Some q =>
      match parse_query q edges tf_filter_list None with
      | inl e => (fs, inl e)
      | inr result =>
          match get_metadata (List.map pd.analysis_of (pd.labels result)) with
          | inl e => (fs, inl e)
          | inr metadata =>
              let stats := get_stats result in
              let fs :=
                match cache_path with
                | Some (String c p) =>
                    to_pickle (String c p ++ "/tabular_output_unfiltered.pickle.gz") (PTable result) fs
                | _ => fs
                end in
              let result :=
                match user_lists with
                | Some u => pd.dropna_columns (pd.loc_rows (fun r => pd.isin r (user_genes u)) result)
                | None => result
                end in
              if pd.empty result
              then (fs, inl (QueryError "Empty result (user list too restrictive)."))
              else
                let fs :=
                  match cache_path with
                  | Some p =>
                      to_pickle (p ++ "/metadata.pickle.gz") (PMetadata metadata)
                        (to_pickle (p ++ "/tabular_output.pickle.gz") (PTable result) fs)
                  | None => fs
                  end in
                finish fs result metadata stats user_lists
          end
      end
  | None =>
      match cache_path with
      | Some p =>
          match read_table (p ++ "/tabular_output.pickle.gz") fs with
          | inl e => (fs, inl e)
          | inr result =>
              match read_metadata (p ++ "/metadata.pickle.gz") fs with
              | inl e => (fs, inl e)
              | inr metadata =>
                  match read_table (p ++ "/tabular_output_unfiltered.pickle.gz") fs with
                  | inl e => (fs, inl e)
                  | inr unfiltered =>
                      let stats := get_stats unfiltered in
                      let user_lists :=
                        match read_pickle (p ++ "/target_genes.pickle.gz") fs with
                        | inr (PUserLists u) => Some u
                        | _ => user_lists
                        end in
                      finish fs result metadata stats user_lists
                  end
              end
          end
      | None => (fs, inl (ValueError "Need query or cache_path"))
      end
  end.

End Engine.

(** ** Sample data

    A small data source and stand-ins for the collaborators, for the
    concrete runs below. *)

Module Sample.

(** Two transcription factors: [G1] with one binding analysis and the
    targets A, B, C; [G2] with one expression analysis and the targets B,
    C, D, whose p-values are 0.01, 0.2 and 0.03. *)
Definition data : db.Database :=
  db.mkDatabase
    [ db.mkAnalysis 1 10 "G1" "gene one"; db.mkAnalysis 2 20 "G2" "gene two" ]
    [ db.mkAnalysisData 1 "EDGE_TYPE" "DAP"; db.mkAnalysisData 2 "EDGE_TYPE" "RNA" ]
    [ db.mkInteraction "A" 1; db.mkInteraction "B" 1; db.mkInteraction "C" 1;
      db.mkInteraction "B" 2; db.mkInteraction "C" 2; db.mkInteraction "D" 2 ]
    [ db.mkRegulation 2 "B" (pd.Num (Qmake 1 100)) (pd.Num (Qmake 2 1));
      db.mkRegulation 2 "C" (pd.Num (Qmake 2 10)) (pd.Num (Qmake 1 1));
      db.mkRegulation 2 "D" (pd.Num (Qmake 3 100)) (pd.Num (Qmake 1 1)) ].

(** A data source without any row. *)
Definition no_data : db.Database := db.mkDatabase [] [] [] [].

(** No edge annotation is stored. *)
Definition add_edges (rows : list Long) (edges : list string) : Exn + list Long :=
  inl (ValueError "No Edge Data").

Definition has_add_edges (df : pd.TargetFrame) (value : string) : Exn + pd.Mask :=
  inr (fun _ _ => false).

Definition digit_of (c : ascii) : option Z :=
  if Str.is_digit c then Some (Z.of_nat (nat_of_ascii c - 48)) else None.

Fixpoint read_digits (s : string) (acc : Z) (n : nat) : Z * nat * string :=
  match s with
  | String c s' =>
      match digit_of c with
      | Some d => read_digits s' (10 * acc + d)%Z (S n)
      | None => (acc, n, s)
      end
  | EmptyString => (acc, n, EmptyString)
  end.

(** [float] on plain decimal literals, which is all the samples use; any
    other text is refused. *)
Definition float (s : string) : option Q :=
  let '(neg, s) :=
    match s with
    | String "-" s' => (true, s')
    | String "+" s' => (false, s')
    | _ => (false, s)
    end in
  let sign (q : Q) : Q := if neg then Qopp q else q in
  let '(ip, n1, r) := read_digits s 0%Z O in
  match r with
  | EmptyString => if (n1 =? 0)%nat then None else Some (sign (Qmake ip 1))
  | String "." r' =>
      let '(fp, n2, r'') := read_digits r' 0%Z O in
      match r'' with
      | EmptyString =>
          if (n1 + n2 =? 0)%nat then None
          else Some (sign (Qmake (ip * 10 ^ Z.of_nat n2 + fp) (Z.to_pos (10 ^ Z.of_nat n2))))
      | String _ _ => None
      end
  | String _ _ => None
  end.

(** Tokens of a fixed length, the draw number in binary. *)
Fixpoint bits (width n : nat) : string :=
  match width with
  | O => EmptyString
  | S w => bits w (Nat.div2 n) ++ (if Nat.odd n then "1" else "0")
  end.

Definition uuid4 (n : nat) : string := bits 32 n.

(** The column-group filter never raises. *)
Definition filter_raises_IndexError (df : pd.TargetFrame) : bool := false.

Definition annotations (gene : string) : option (list string) := None.

Definition parse_query (d : db.Database) (query : string) : Exn + pd.TargetFrame :=
  parse_query d add_edges float has_add_edges uuid4 filter_raises_IndexError
    query None None None.

Definition get_tf (d : db.Database) (query : pp.ParseResults) : nat -> Exn + (pd.TargetFrame * nat) :=
  get_tf d add_edges float has_add_edges uuid4 filter_raises_IndexError None None None query.

(** The table of a query on the sample data. *)
Definition table (query : string) : pd.TargetFrame :=
  match parse_query data query with
  | inr t => t
  | inl _ => pd.new_frame [] []
  end.

Definition get_query_result (query : string) (user_lists : option UserLists)
    (size_limit : option nat) : Exn + Output :=
  snd (get_query_result data add_edges float has_add_edges uuid4 filter_raises_IndexError
         annotations (Some query) user_lists None None None size_limit []).

(** The table of a parse tree as [get_tf] returns it, before the
    reorder. *)
Definition evaluated (q : pp.ParseResults) : pd.TargetFrame :=
  match get_tf data q 0 with
  | inr (t, _) => t
  | inl _ => pd.new_frame [] []
  end.

(** A table with its columns supplied in the reverse order. *)
Definition reversed (df : pd.TargetFrame) : pd.TargetFrame :=
  pd.derive df (pd.index df) (rev (pd.columns df)).

(** What is compared of a table in the concrete runs. *)
Definition show (r : Exn + pd.TargetFrame)
  : Exn + (list string * list pd.Label * list (list pd.Cell) * bool * string) :=
  match r with
  | inl e => inl e
  | inr t => inr (pd.index t, pd.labels t, pd.to_rows t, pd.include t, pd.filter_string t)
  end.

End Sample.

(** The label of a copy of a column in a merge of a table with itself:
    the suffix of the side is put after the transcription factor. *)
Definition add_suffix (sfx : string) (lb : pd.Label) : pd.Label :=
  (pd.tf_of lb ++ sfx, pd.analysis_of lb, pd.attr_of lb).

(** The transcription factor of a run of [runs]. *)
Definition run_tf (run : list pd.Column) : string :=
  match run with
  | c :: _ => pd.tf_of (pd.label c)
  | [] => EmptyString
  end.

(** A run that is not empty and of one transcription factor. *)
Definition one_tf (run : list pd.Column) : Prop :=
  run <> [] /\ forall c, In c run -> pd.tf_of (pd.label c) = run_tf run.

(** The columns of every transcription factor stand side by side. *)
Definition tf_adjacent (df : pd.TargetFrame) : Prop :=
  NoDup (List.map run_tf (runs (pd.columns df))).

(** A token that [get_tf] does not take for an operator. *)
Definition is_operand (q : pp.ParseResults) : bool :=
  negb (is_str "and" q || is_str "or" q || is_str "not" q || is_modifier q).

(** ** Joins, as the specification words them

    [df] is the inner join of [prec] and [succ] on the row index when its
    rows are the rows both have, and the outer join when its rows are the
    rows either has; in both, a row of [df] is the row of [prec] followed
    by the row of [succ], the cells of an operand that lacks the row being
    missing. *)
Definition is_join (how : pd.How) (prec succ df : pd.TargetFrame) : Prop :=
  (forall r, In r (pd.index df) <->
             match how with
             | pd.inner => In r (pd.index prec) /\ In r (pd.index succ)
             | pd.outer => In r (pd.index prec) \/ In r (pd.index succ)
             end)
  /\ (forall r, pd.row df r = (pd.aligned_row prec r ++ pd.aligned_row succ r)%list)
  /\ List.map pd.analysis_of (pd.labels df)
     = (List.map pd.analysis_of (pd.labels prec) ++ List.map pd.analysis_of (pd.labels succ))%list.

(** [df] is made of the rows of [keep] whose label is not a row label of
    [drop]: the columns and cells are those of [keep]. *)
Definition is_difference (keep drop df : pd.TargetFrame) : Prop :=
  (forall r, In r (pd.index df) <-> In r (pd.index keep) /\ ~ In r (pd.index drop))
  /\ pd.columns df = pd.columns keep.

(** ** What a parser element consumes

    The properties of the grammar are stated through the text an element
    takes off the front of its input, measured by a function [m] that adds
    up over texts: always zero, to follow the progress of the parser only,
    or the number of opening brackets minus the number of closing
    ones. *)

Fixpoint count (c : ascii) (s : string) : Z :=
  match s with
  | EmptyString => 0%Z
  | String d s' => ((if Ascii.eqb c d then 1 else 0) + count c s')%Z
  end.

(** Opening minus closing brackets. *)
Definition delta (opening closing : ascii) (s : string) : Z :=
  (count opening s - count closing s)%Z.

Definition no_quotes (s : string) : Prop :=
  count Str.dquote s = 0%Z /\ count Str.squote s = 0%Z.

Definition is_bracket (c : ascii) : bool := Str.mem c "()[]".

Fixpoint all (f : ascii -> bool) (s : string) : bool :=
  match s with
  | EmptyString => true
  | String c s' => f c && all f s'
  end.

(** A word that is not empty and has no bracket. *)
Definition plain_word (w : string) : bool :=
  negb (String.eqb w "") && all (fun c => negb (is_bracket c)) w.

(** [r] is what is left of [s] after a front part of measure [d], which is
    not empty when [strict] is set. *)
Definition consumes (m : string -> Z) (d : Z) (strict : bool) (s r : string) : Prop :=
  exists pre, s = pre ++ r /\ m pre = d /\ (strict = true -> pre <> EmptyString).

(** On the texts of [D] shorter than [bound], the element [p] never runs
    out of fuel, and what it consumes has the measure [d]. *)
Definition good (D : string -> Prop) (m : string -> Z) (d : Z) (strict : bool)
    (p : pp.ParserElement) (bound : nat) : Prop :=
  forall s, D s -> String.length s < bound ->
  match p s with
  | pp.Ok _ r => consumes m d strict s r
  | pp.ParseException => True
  | pp.OutOfFuel => False
  end.

(** The operator of a level of [infixNotation] is good. *)
Definition good_operator (D : string -> Prop) (m : string -> Z) (bound : nat)
    (operDef : pp.ParserElement * nat * pp.opAssoc) : Prop :=
  good D m 0 true (fst (fst operDef)) bound.

(** ** Measures and predicates of the further properties *)

(** The columns whose value of a level is in [order]. *)
Definition keyed {K : Type} (eqb : K -> K -> bool) (key : pd.Label -> option K)
    (order : list K) (c : pd.Column) : bool :=
  match key (pd.label c) with
  | Some k => existsb (eqb k) order
  | None => false
  end.

(** A column that has an analysis id. *)
Definition has_analysis (c : pd.Column) : bool :=
  match pd.analysis_of (pd.label c) with
  | Some _ => true
  | None => false
  end.

(** The count of a transcription factor, as [reorder_data] takes it with
    [count(axis=1, level=0).sum()]: the cells of its columns EDGE and
    Log2FC that are not missing. *)
Definition tf_total (df : pd.TargetFrame) (t : string) : nat :=
  list_sum (List.map (pd.count_column (pd.index df))
              (filter (fun c => counted c && String.eqb t (pd.tf_of (pd.label c)))
                      (pd.columns df))).

(** Every row of [rows'] has the target, the analysis and the
    transcription factor of a row of [rows]. *)
Definition keys_from (rows' rows : list Long) : Prop :=
  forall x, In x rows' ->
  exists y, In y rows /\ TARGET x = TARGET y /\ ANALYSIS x = ANALYSIS y /\ TF x = TF y.

(** [add_edges] joins the edge annotations to the rows it is given
    ([df.merge(edge_data, ..., how='left')]): it adds no target, analysis
    or transcription factor. *)
Definition joins_only (add_edges : list Long -> list string -> Exn + list Long) : Prop :=
  forall rows es rows', add_edges rows es = inr rows' -> keys_from rows' rows.

(** The rows [get_tf_data] starts from: the interactions of the analyses
    of the transcription factor, restricted to the target filter list. *)
Definition interactions_of (data : db.Database) (query : string)
    (target_filter_list : option (list string)) : list Long :=
  let analyses := List.map db.id (filter (fun a => Str.ieq (db.tf__gene_id a) query)
                                         (db.Analysis data)) in
  let rows := List.map (fun i => mkLong (db.target__gene_id i) (db.analysis_id i) query
                                        pd.NaN pd.NaN pd.NaN pd.NaN)
                (filter (fun i => zin (db.analysis_id i) analyses) (db.Interaction data)) in
  match target_filter_list with
  | Some l => filter (fun x => upper_isin (TARGET x) l) rows
  | None => rows
  end.

(** The table without any row that [get_tf_data] returns when it finds
    nothing. *)
Definition placeholder (query : string) : pd.TargetFrame :=
  pd.mkFrame [] [pd.mkColumn (query, None, "EDGE") (fun _ => pd.NaN)] true query.

(** A row of the long frame of [get_all_tf] comes from an interaction and
    its analysis, and passes the two filter lists. *)
Definition from_interaction (data : db.Database)
    (tf_filter_list target_filter_list : option (list string)) (x : Long) : Prop :=
  exists i an,
    In i (db.Interaction data) /\ In an (db.Analysis data)
    /\ db.id an = db.analysis_id i
    /\ TARGET x = db.target__gene_id i /\ ANALYSIS x = db.analysis_id i
    /\ TF x = db.tf__gene_id an
    /\ match target_filter_list with
       | Some l => upper_isin (TARGET x) l = true
       | None => True
       end
    /\ match tf_filter_list with
       | Some l => exists an', In an' (db.Analysis data) /\ db.id an' = db.analysis_id i
                               /\ In (db.tf__gene_id an') l
       | None => True
       end.

(** A letter, a digit or an underscore. *)
Definition word_char (c : ascii) : bool := pp.alphanums c || Ascii.eqb c "_".

(** An element that reads the word [s], after white space, as one token
    and fails at the end of the text. *)
Definition reads_word (s : string) (p : pp.ParserElement) : Prop :=
  (forall i, pp.preParse i = s -> p i = pp.Ok [pp.PStr s] "") /\ p "" = pp.ParseException.

(** The levels of the grammar of queries below the level of [or], from
    the operands up: [pp.expr (S fuel)] is the level of [or] over
    [level3 fuel]. *)
Definition level0 (fuel : nat) : pp.ParserElement :=
  pp.MatchFirst pp.gene
    (pp.And (pp.Suppress "(")
       (pp.And (pp.infixNotation fuel pp.gene ((pp.modifier (S fuel), 1, pp.LEFT) :: pp.opers))
               (pp.Suppress ")"))).

Definition level1 (fuel : nat) : pp.ParserElement :=
  pp.thisExpr (S fuel) (level0 fuel) (pp.modifier (S fuel), 1, pp.LEFT).

Definition level2 (fuel : nat) : pp.ParserElement :=
  pp.thisExpr (S fuel) (level1 fuel) (pp.CaselessKeyword "not", 1, pp.RIGHT).

Definition level3 (fuel : nat) : pp.ParserElement :=
  pp.thisExpr (S fuel) (level2 fuel) (pp.and_, 2, pp.LEFT).

(** ** The uploaded gene lists ([querytgdb/utils/file.py]) *)

Module file.

(** [str.isspace()] on a character. *)
Definition isspace (c : ascii) : bool :=
  let n := nat_of_ascii c in
  ((9 <=? n)%nat && (n <=? 13)%nat) || ((28 <=? n)%nat && (n <=? 32)%nat)
  || (n =? 133)%nat || (n =? 160)%nat.

(** [str.lstrip], [str.rstrip] and [str.strip] for a class of characters. *)
Fixpoint lstrip (f : ascii -> bool) (s : string) : string :=
  match s with
  | String c s' => if f c then lstrip f s' else s
  | EmptyString => EmptyString
  end.

Fixpoint rstrip (f : ascii -> bool) (s : string) : string :=
  match s with
  | String c s' =>
      match rstrip f s' with
      | EmptyString => if f c then EmptyString else String c EmptyString
      | r => String c r
      end
  | EmptyString => EmptyString
  end.

Definition strip (s : string) : string := rstrip isspace (lstrip isspace s).

(** [s.startswith(c)] for a one-character prefix. *)
Definition startswith (c : ascii) (s : string) : bool :=
  match s with
  | String d _ => Ascii.eqb c d
  | EmptyString => false
  end.

(** An [OrderedDict] from a name to a [set] of names: the keys in the
    order of their insertion; a set as the list of its members. *)
Definition Dict : Type := list (string * list string).

(** [s.add(v)] *)
Definition set_add (v : string) (s : list string) : list string :=
  if pd.isin v s then s else (s ++ [v])%list.

(** [d.setdefault(k, set()).add(v)] *)
Fixpoint setdefault_add (k v : string) (d : Dict) : Dict :=
  match d with
  | [] => [(k, [v])]
  | (k', s) :: d' =>
      if String.eqb k' k then (k', set_add v s) :: d' else (k', s) :: setdefault_add k v d'
  end.

(** One line of the file in the loop of [get_gene_lists]: the state is
    the name of the current list and the two dictionaries. *)
Definition read_line (st : string * Dict * Dict) (line : string) : string * Dict * Dict :=
  let '(list_name, gene_to_name, name_to_gene) := st in
  let line := strip line in
  if startswith ">" line
  then (strip (lstrip (Ascii.eqb ">") line), gene_to_name, name_to_gene)
  else (list_name, setdefault_add line list_name gene_to_name,
        setdefault_add list_name line name_to_gene).

(** The two dictionaries [get_gene_lists] fills from the lines of the
    file. *)
Definition read_lines (lines : list string) : Dict * Dict :=
  let '(_, gene_to_name, name_to_gene) := fold_left read_line lines ("default_list", [], []) in
  (gene_to_name, name_to_gene).

(** [gene_list_to_df]: gene, the names of its lists joined, their number.
    [iter] is the order in which a set gives its members. *)
Definition gene_list_to_df (iter : list string -> list string) (gene_to_name : Dict)
  : UserLists :=
  List.map (fun kv => (fst kv, Str.join ", " (iter (snd kv)), length (snd kv))) gene_to_name.

(** [get_gene_lists] *)
Definition get_gene_lists (iter : list string -> list string) (lines : list string)
  : UserLists * Dict :=
  (gene_list_to_df iter (fst (read_lines lines)), snd (read_lines lines)).

End file.

(** [v] is a member of the set of [k] in the dictionary [d]. *)
Definition member (d : file.Dict) (k v : string) : Prop :=
  exists s, In (k, s) d /\ In v s.

(** A dictionary whose keys are distinct and whose sets list each of
    their members once and are not empty. *)
Definition well_formed (d : file.Dict) : Prop :=
  NoDup (List.map fst d) /\ forall k s, In (k, s) d -> NoDup s /\ s <> [].
(** What the loop of [get_gene_lists] keeps: the two dictionaries are
    well formed and each other's inverse. *)
Definition inverse_tables (st : string * file.Dict * file.Dict) : Prop :=
  well_formed (snd (fst st)) /\ well_formed (snd st)
  /\ forall g name, member (snd (fst st)) g name <-> member (snd st) name g.

(** ** Column names of a spreadsheet ([querytgdb/utils/__init__.py]) *)

(** The loop of [column_string]: [n, remainder = divmod(n - 1, 26)] and
    [s = chr(65 + remainder) + s] while [n > 0]. *)
Function column_string_loop (n : Z) (s : string) {measure Z.to_nat n} : string :=
  if (0 <? n)%Z
  then column_string_loop ((n - 1) / 26)%Z
         (String (ascii_of_nat (65 + Z.to_nat ((n - 1) mod 26)%Z)) s)
  else s.
Proof.
  intros n _ H. apply Z.ltb_lt in H.
  assert ((n - 1) / 26 < n)%Z by (apply Z.div_lt_upper_bound; lia).
  assert (0 <= (n - 1) / 26)%Z by (apply Z.div_pos; lia).
  lia.
Defined.

(** [column_string] *)
Definition column_string (n : Z) : string := column_string_loop n "".

(** The number a column name stands for: its letters as the digits 1 to
    26 of a number in base 26. *)
Definition column_number (s : string) : Z :=
  fold_left (fun acc c => (26 * acc + (Z.of_nat (nat_of_ascii c) - 64))%Z)
            (list_ascii_of_string s) 0%Z.

(** The count of an analysis, as [reorder_data] takes it with
    [count(axis=1, level=1).sum()]. *)
Definition analysis_total (df : pd.TargetFrame) (a : Z) : nat :=
  list_sum (List.map (pd.count_column (pd.index df))
              (filter (fun c => counted c && match pd.analysis_of (pd.label c) with
                                             | Some a' => Z.eqb a a'
                                             | None => false
                                             end)
                      (pd.columns df))).

(** The comparison symbols of a condition: [pp.oneOf('< = > >= <= !=')]. *)
Definition comparisons : list string := ["<="; "<"; "="; ">="; ">"; "!="].

(** * Properties *)

(** Concrete runs of the two scenarios of the specification. *)
Example scenario_and_pvalue :
  Sample.show (Sample.parse_query Sample.data "G1 and G2[PVALUE<0.05]")
  = inr (["B"],
         [("G2", Some 2%Z, "Pvalue"); ("G2", Some 2%Z, "Log2FC"); ("G1", Some 1%Z, "EDGE")],
         [[pd.Num (Qmake 1 100); pd.Num (Qmake 2 1); pd.Txt "+"]],
         true, "G1 and G2[PVALUE < 0.05]").
Proof. vm_compute. reflexivity. Qed.

Example scenario_or_not :
  Sample.show (Sample.parse_query Sample.data "G1 or not G2")
  = inr (["A"; "B"; "C"], [("G1", Some 1%Z, "EDGE")],
         [[pd.Txt "+"]; [pd.Txt "+"]; [pd.Txt "+"]], true, "G1 or not G2").
Proof. vm_compute. reflexivity. Qed.

Section Properties.

Variable data : db.Database.
Variable add_edges : list Long -> list string -> Exn + list Long.
Variable float : string -> option Q.
Variable has_add_edges : pd.TargetFrame -> string -> Exn + pd.Mask.
Variable uuid4 : nat -> string.
Variable filter_raises_IndexError : pd.TargetFrame -> bool.
Variable annotations : string -> option (list string).
Variable edges : option (list string).
Variable tf_filter_list target_filter_list : option (list string).

Local Abbreviation eval :=
  (get_tf data add_edges float has_add_edges uuid4 filter_raises_IndexError
     edges tf_filter_list target_filter_list).

Local Abbreviation run_parse_query :=
  (parse_query data add_edges float has_add_edges uuid4 filter_raises_IndexError).

Local Abbreviation run_get_query_result :=
  (get_query_result data add_edges float has_add_edges uuid4 filter_raises_IndexError
     annotations).

(** *** NOT *)

(** C9. Applying NOT to an evaluated operand flips the include flag and
    prefixes the filter string with "not "; the row index, the column
    index and the cell values of the table are those of the operand. *)
Theorem not_flips_include_only (q : pp.ParseResults) (n n' : nat) (succ : pd.TargetFrame) :
  eval q n = inr (succ, n') ->
  exists df,
    eval (pp.PGroup [pp.PStr "not"; q]) n = inr (df, n')
    /\ pd.index df = pd.index succ
    /\ pd.columns df = pd.columns succ
    /\ pd.include df = negb (pd.include succ)
    /\ pd.filter_string df = "not " ++ pd.filter_string succ.
Proof.
  intros H. exists (negate succ).
  split; [|repeat split].
  change (eval (pp.PGroup [pp.PStr "not"; q]) n)
    with (bind (eval q) (fun succ => ret (negate succ)) n).
  unfold bind. rewrite H. reflexivity.
Qed.

(** *** The entry point [parse_query] *)

(** C4. For a query that parses and whose evaluation returns a table,
    [parse_query] raises the empty-result error exactly when that table is
    empty or its include flag is false, and returns the reordered table
    otherwise. *)
Theorem parse_query_empty_iff (query : string) (q : pp.ParseResults)
    (more : list pp.ParseResults) (rest : string) (result : pd.TargetFrame) (n : nat) :
  pp.parseString (pp.expr (pp.fuel_for query)) query = pp.Ok (q :: more) rest ->
  eval q O = inr (result, n) ->
  (run_parse_query query edges tf_filter_list target_filter_list = inl (QueryError "empty query")
   <-> pd.empty result = true \/ pd.include result = false)
  /\ (pd.empty result = false -> pd.include result = true ->
      run_parse_query query edges tf_filter_list target_filter_list = inr (reorder_data result)).
Proof.
  intros Hparse Heval. unfold parse_query. rewrite Hparse, Heval.
  destruct (pd.empty result) eqn:He, (pd.include result) eqn:Hi; simpl; split;
    try (split; [intros; auto | intros; reflexivity]);
    try (intros; congruence); try reflexivity.
  split; [discriminate | intros [|]; discriminate].
Qed.

(** *** The entry point [get_query_result] *)

Lemma filter_none {A : Type} (f : A -> bool) (l : list A) :
  (forall x, In x l -> f x = false) -> filter f l = [].
Proof.
  induction l as [|a l IH]; intros H; simpl; [reflexivity|].
  rewrite (H a (or_introl eq_refl)). apply IH. intros x Hx. apply H. right. exact Hx.
Qed.

(** C10. When the query evaluates to a table and none of its rows is in
    the user's gene list, [get_query_result] fails with the error "user
    list too restrictive", whatever the size limit is: the error comes
    before the size check, and no table is returned. *)
Theorem user_list_too_restrictive (query : string) (u : UserLists)
    (cache_path : option string) (size_limit : option nat) (fs : Files)
    (result : pd.TargetFrame) (metadata : Metadata) :
  run_parse_query query edges tf_filter_list None = inr result ->
  get_metadata data (List.map pd.analysis_of (pd.labels result)) = inr metadata ->
  (forall r, In r (pd.index result) -> pd.isin r (user_genes u) = false) ->
  snd (run_get_query_result (Some query) (Some u) tf_filter_list edges cache_path size_limit fs)
  = inl (QueryError "Empty result (user list too restrictive).").
Proof.
  intros Hq Hm Hnone. unfold get_query_result. rewrite Hq, Hm.
  unfold pd.empty, pd.dropna_columns, pd.loc_rows, pd.derive. simpl.
  rewrite (filter_none _ _ Hnone). reflexivity.
Qed.

(** *** Modifier comparisons *)

Lemma key_eqb_eq (k1 k2 : string * Z) : pd.key_eqb k1 k2 = true -> k1 = k2.
Proof.
  destruct k1 as [a x], k2 as [b y]. unfold pd.key_eqb. simpl.
  rewrite andb_true_iff. intros [H1 H2].
  apply String.eqb_eq in H1. apply Z.eqb_eq in H2. congruence.
Qed.

Lemma key_eqb_refl (k : string * Z) : pd.key_eqb k k = true.
Proof.
  destruct k as [a x]. unfold pd.key_eqb. simpl.
  rewrite String.eqb_refl, Z.eqb_refl. reflexivity.
Qed.

(** The mask of [groupby(...).apply(f)] is, on a column group, the mask [f]
    gave for that group; an exception of [f] on the first group is the
    exception of the whole. *)
Lemma groupby_apply_group (f : string * Z -> Exn + pd.Mask) (ks : list (string * Z))
    (m : pd.Mask) (k : string * Z) :
  groupby_apply f ks = inr m -> In k ks ->
  exists mk, f k = inr mk /\ forall lb r, pd.group_key lb = Some k -> m lb r = mk lb r.
Proof.
  revert m. induction ks as [|k0 ks IH]; intros m Hm Hin; [contradiction|].
  simpl in Hm. destruct (f k0) as [e|m0] eqn:E0; [discriminate|].
  destruct (groupby_apply f ks) as [e|m'] eqn:E'; [discriminate|].
  injection Hm as <-.
  destruct (pd.key_eqb k0 k) eqn:Ek.
  - apply key_eqb_eq in Ek. subst k0. exists m0. split; [exact E0|].
    intros lb r Hlb. rewrite Hlb, key_eqb_refl. reflexivity.
  - destruct Hin as [->|Hin]; [rewrite key_eqb_refl in Ek; discriminate|].
    destruct (IH m' eq_refl Hin) as [mk [Hk Hmk]].
    exists mk. split; [exact Hk|].
    intros lb r Hlb. rewrite Hlb, Ek. apply Hmk, Hlb.
Qed.

Lemma groupby_apply_raises (f : string * Z -> Exn + pd.Mask) (ks : list (string * Z)) (e : Exn) :
  ks <> [] -> (forall k, f k = inl e) -> groupby_apply f ks = inl e.
Proof.
  destruct ks as [|k ks]; [congruence|]. intros _ H. simpl. rewrite H. reflexivity.
Qed.

(** C3, as the code has it. For a PVALUE or FC condition on a table: when
    the comparison value does not coerce to a number and the table has a
    column group, the evaluation of the modifier raises [ValueError]; when
    the value is a number, a column group that lacks the compared column
    gets a fully-excluding mask. *)
Theorem comp_mod_value_coercion (df : pd.TargetFrame) (key oper value : string) :
  re_full_i "pvalue" key = true \/ re_full_i "fc" key = true ->
  (float value = None -> groups df <> [] ->
   get_mod data float has_add_edges df (pp.PMod key oper value)
   = inl (ValueError ("could not convert string to float: " ++ value)))
  /\ (forall v m k,
        float value = Some v -> compare oper pd.NaN v <> None ->
        get_mod data float has_add_edges df (pp.PMod key oper value)
        = inr (MFrame m) ->
        In k (groups df) ->
        pd.label_in (fst k, Some (snd k), if re_full_i "pvalue" key then "Pvalue" else "Log2FC")
                    (pd.labels df) = false ->
        forall lb r, pd.group_key lb = Some k -> m lb r = false).
Proof.
  intros Hkey. split.
  - intros Hf Hg. simpl.
    assert (forall col, groupby_apply (fun k => apply_comp_mod float df k col oper value) (groups df)
                        = inl (ValueError ("could not convert string to float: " ++ value))) as H.
    { intros col. apply groupby_apply_raises; [exact Hg|].
      intros k. unfold apply_comp_mod. rewrite Hf. reflexivity. }
    destruct (re_full_i "pvalue" key); [rewrite H; reflexivity|].
    destruct Hkey as [Hk|Hk]; [discriminate|]. rewrite Hk, H. reflexivity.
  - intros v m k Hf Hop Hm Hin Hcol lb r Hlb.
    set (col := if re_full_i "pvalue" key then "Pvalue" else "Log2FC") in *.
    assert (groupby_apply (fun k => apply_comp_mod float df k col oper value) (groups df) = inr m) as H.
    { simpl in Hm. unfold col. destruct (re_full_i "pvalue" key).
      - destruct (groupby_apply _ _); simpl in Hm; congruence.
      - destruct Hkey as [Hk|Hk]; [discriminate|]. rewrite Hk in Hm.
        destruct (groupby_apply _ _); simpl in Hm; congruence. }
    destruct (groupby_apply_group _ _ _ _ H Hin) as [mk [Hk Hmk]].
    rewrite (Hmk lb r Hlb).
    unfold apply_comp_mod in Hk. rewrite Hf in Hk.
    destruct (compare oper pd.NaN v); [|congruence].
    assert (find (fun c => pd.label_eqb (pd.label c) (fst k, Some (snd k), col)) (pd.columns df) = None) as Hnone.
    { destruct (find _ _) as [c|] eqn:Efind; [|reflexivity].
      apply find_some in Efind. destruct Efind as [Hc He].
      exfalso. unfold pd.label_in, pd.labels in Hcol.
      assert (existsb (pd.label_eqb (fst k, Some (snd k), col)) (List.map pd.label (pd.columns df)) = true) as Hex.
      { apply existsb_exists. exists (pd.label c). split; [apply in_map, Hc|].
        unfold pd.label_eqb in *. rewrite !andb_true_iff in *.
        destruct He as [[H1 H2] H3]. rewrite String.eqb_sym, H1.
        rewrite String.eqb_sym, H3. simpl in *.
        destruct (pd.analysis_of (pd.label c)); [|discriminate].
        rewrite Z.eqb_sym, H2. auto. }
      congruence. }
    rewrite Hnone in Hk. injection Hk as <-. reflexivity.
Qed.

(** *** Leaf fetches *)


(** *** AND and OR *)

Lemma isin_In (x : string) (l : list string) : pd.isin x l = true <-> In x l.
Proof.
  unfold pd.isin. rewrite existsb_exists. split.
  - intros [y [Hy He]]. apply String.eqb_eq in He. subst. exact Hy.
  - intros H. exists x. split; [exact H | apply String.eqb_refl].
Qed.

Lemma In_insert_sorted {A : Type} (leb : A -> A -> bool) (x y : A) (l : list A) :
  In y (pd.insert_sorted leb x l) <-> y = x \/ In y l.
Proof.
  induction l as [|a l IH]; simpl.
  - intuition.
  - destruct (leb x a); simpl; [intuition | rewrite IH; intuition].
Qed.

Lemma In_sort {A : Type} (leb : A -> A -> bool) (y : A) (l : list A) :
  In y (pd.sort leb l) <-> In y l.
Proof.
  induction l as [|a l IH]; simpl; [tauto|].
  unfold pd.sort in *. simpl. rewrite In_insert_sorted, IH. intuition.
Qed.

Lemma join_index_spec (how : pd.How) (l r : list string) (x : string) :
  In x (pd.join_index how l r) <->
  match how with
  | pd.inner => In x l /\ In x r
  | pd.outer => In x l \/ In x r
  end.
Proof.
  destruct how; unfold pd.join_index.
  - rewrite filter_In, isin_In. tauto.
  - rewrite In_sort, in_app_iff, filter_In, negb_true_iff.
    split; [tauto|]. intros [H|H]; [tauto|].
    destruct (pd.isin x l) eqn:E; [left; apply isin_In; exact E | tauto].
Qed.

Lemma row_align (idx : list string) (cols : list pd.Column) (f : string -> string) (r : string) :
  List.map (fun c => pd.cells c r) (List.map (pd.rename_column f) (List.map (pd.align_rows idx) cols))
  = if pd.isin r idx then List.map (fun c => pd.cells c r) cols
    else List.map (fun _ => pd.NaN) cols.
Proof.
  rewrite !map_map. simpl.
  destruct (pd.isin r idx); reflexivity.
Qed.

Lemma analysis_of_renamed (cols : list pd.Column) (idx : list string) (f : string -> string) :
  List.map pd.analysis_of
    (List.map pd.label (List.map (pd.rename_column f) (List.map (pd.align_rows idx) cols)))
  = List.map pd.analysis_of (List.map pd.label cols).
Proof. rewrite !map_map. reflexivity. Qed.

(** A merge with the suffixes of [get_suffix] returns a table, which is the
    join of its operands, with the metadata of a new table. *)
Lemma merge_with_suffix_spec (how : pd.How) (prec succ : pd.TargetFrame) (n : nat) :
  exists df,
    merge_with_suffix uuid4 how prec succ n = inr (df, S (S n))
    /\ is_join how prec succ df
    /\ pd.include df = true.
Proof.
  unfold merge_with_suffix, get_suffix, bind, lift, pd.merge.
  cbn [fst snd].
  destruct (pd.to_rename (pd.labels prec) (pd.labels succ)) as [|lb shared] eqn:E.
  - eexists. split; [reflexivity|]. split; [|reflexivity].
    unfold is_join, pd.new_frame, pd.row, pd.aligned_row, pd.labels. simpl.
    split; [intros r; apply join_index_spec|]. split.
    + intros r. rewrite map_app.
      pose proof (row_align (pd.index prec) (pd.columns prec) (fun x => x) r) as Hl.
      pose proof (row_align (pd.index succ) (pd.columns succ) (fun x => x) r) as Hr.
      rewrite !map_map in Hl, Hr. rewrite !map_map. simpl in *.
      rewrite Hl, Hr. reflexivity.
    + rewrite !map_app, !map_map. reflexivity.
  - simpl. eexists. split; [reflexivity|]. split; [|reflexivity].
    unfold is_join, pd.new_frame, pd.row, pd.aligned_row, pd.labels. simpl.
    split; [intros r; apply join_index_spec|]. split.
    + intros r. rewrite map_app, !row_align. reflexivity.
    + rewrite !map_app, !analysis_of_renamed. reflexivity.
Qed.

Lemma loc_rows_difference (keep drop : pd.TargetFrame) :
  is_difference keep drop (pd.loc_rows (fun r => negb (pd.isin r (pd.index drop))) keep).
Proof.
  unfold is_difference, pd.loc_rows, pd.derive. simpl. split; [|reflexivity].
  intros r. rewrite filter_In, negb_true_iff. split.
  - intros [H1 H2]. split; [exact H1|]. intros H. apply isin_In in H. congruence.
  - intros [H1 H2]. split; [exact H1|].
    destruct (pd.isin r (pd.index drop)) eqn:E; [|reflexivity].
    exfalso. apply H2, isin_In, E.
Qed.


(** *** A gene ANDed with itself *)

(** The evaluation of [p op s] for two operands. *)
Lemma get_tf_binary (op : string) (p s : pp.ParseResults) (n : nat) :
  op = "and" \/ op = "or" -> is_operand p = true ->
  eval (pp.PGroup [p; pp.PStr op; s]) n
  = bind (eval p)
      (fun prec => bind (eval s)
         (fun succ => binary uuid4 filter_raises_IndexError op prec succ)) n.
Proof.
  intros Hop Hp. unfold is_operand in Hp.
  apply negb_true_iff in Hp. rewrite !orb_false_iff in Hp.
  destruct Hp as [[[H1 H2] H3] H4].
  cbn [get_tf get_tf_loop]. rewrite H1, H2, H3, H4. cbn [orb].
  assert (is_str "and" (pp.PStr op) || is_str "or" (pp.PStr op) = true) as ->
    by (destruct Hop as [->| ->]; reflexivity).
  assert ((if is_str "and" (pp.PStr op) then "and" else "or") = op) as ->
    by (destruct Hop as [->| ->]; reflexivity).
  unfold bind.
  destruct (eval p n) as [e|[prec n1]]; [reflexivity|].
  destruct (eval s n1) as [e|[succ n2]]; [reflexivity|].
  destruct (binary uuid4 filter_raises_IndexError op prec succ n2) as [e|[df n3]];
    reflexivity.
Qed.

Lemma filter_all {A : Type} (f : A -> bool) (l : list A) :
  (forall x, In x l -> f x = true) -> filter f l = l.
Proof.
  induction l as [|a l IH]; intros H; simpl; [reflexivity|].
  rewrite (H a (or_introl eq_refl)). f_equal. apply IH. intros x Hx. apply H. right. exact Hx.
Qed.

Lemma label_eqb_refl (lb : pd.Label) : pd.label_eqb lb lb = true.
Proof.
  unfold pd.label_eqb. rewrite !String.eqb_refl.
  destruct (pd.analysis_of lb); [rewrite Z.eqb_refl|]; reflexivity.
Qed.

Lemma to_rename_self (l : list pd.Label) : pd.to_rename l l = l.
Proof.
  unfold pd.to_rename. apply filter_all. intros x Hx.
  unfold pd.label_in. apply existsb_exists. exists x. split; [exact Hx | apply label_eqb_refl].
Qed.

Lemma length_append (a b : string) : String.length (a ++ b) = String.length a + String.length b.
Proof. induction a as [|c a IH]; simpl; [reflexivity | rewrite IH; reflexivity]. Qed.

(** Two texts with tails of one length are equal only part by part. *)
Lemma append_inj (a b s1 s2 : string) :
  String.length s1 = String.length s2 -> a ++ s1 = b ++ s2 -> a = b /\ s1 = s2.
Proof.
  intros Hlen. revert b. induction a as [|c a IH]; intros [|d b] H; simpl in H.
  - auto.
  - exfalso. apply (f_equal String.length) in H. simpl in H. rewrite length_append in H. lia.
  - exfalso. apply (f_equal String.length) in H. simpl in H. rewrite length_append in H. lia.
  - injection H as -> H. destruct (IH b H) as [-> ->]. auto.
Qed.

Lemma suffix_inj (fs u1 u2 : string) : suffix fs u1 = suffix fs u2 -> u1 = u2.
Proof.
  unfold suffix. simpl. intros H. injection H as H. revert H.
  induction fs as [|c fs IH]; simpl; intros H; injection H as H; auto.
Qed.

Lemma length_suffix (fs u : string) :
  String.length (suffix fs u) = 4 + String.length fs + String.length u.
Proof. unfold suffix. simpl. rewrite length_append. simpl. lia. Qed.

Lemma add_suffix_inj (s1 s2 : string) (a b : pd.Label) :
  String.length s1 = String.length s2 -> add_suffix s1 a = add_suffix s2 b -> a = b /\ s1 = s2.
Proof.
  intros Hlen H. destruct a as [[ta aa] ka], b as [[tb ab] kb].
  unfold add_suffix, pd.tf_of, pd.analysis_of, pd.attr_of in H. simpl in H.
  injection H as H1 H2 H3.
  destruct (append_inj _ _ _ _ Hlen H1) as [Ht Hs]. subst. auto.
Qed.

Lemma NoDup_add_suffix (s1 s2 : string) (l : list pd.Label) :
  String.length s1 = String.length s2 -> s1 <> s2 -> NoDup l ->
  NoDup (List.map (add_suffix s1) l ++ List.map (add_suffix s2) l).
Proof.
  intros Hlen Hneq Hl.
  assert (forall s, NoDup (List.map (add_suffix s) l)) as Hmap.
  { intros s. induction Hl as [|x l Hx Hl IH]; simpl; constructor; [|exact IH].
    intros Hin. apply in_map_iff in Hin. destruct Hin as [y [Hy Hin]].
    apply add_suffix_inj in Hy; [|reflexivity]. destruct Hy as [-> _]. contradiction. }
  apply NoDup_app; [exact (Hmap s1) | exact (Hmap s2) |].
  intros y Hy1 Hy2.
  apply in_map_iff in Hy1. destruct Hy1 as [a [<- _]].
  apply in_map_iff in Hy2. destruct Hy2 as [b [Hb _]].
  apply add_suffix_inj in Hb; [|symmetry; exact Hlen]. destruct Hb as [_ Hb]. congruence.
Qed.

Lemma renamed_labels (shared : list pd.Label) (sfx : string) (idx : list string)
    (cols : list pd.Column) :
  (forall c, In c cols -> In (pd.label c) shared) ->
  (forall a b, In a shared -> In b shared -> pd.attr_of a <> pd.tf_of b) ->
  List.map pd.label
    (List.map (pd.rename_column (pd.renamer shared sfx)) (List.map (pd.align_rows idx) cols))
  = List.map (add_suffix sfx) (List.map pd.label cols).
Proof.
  intros Hin Hattr. rewrite !map_map. apply map_ext_in. intros c Hc. simpl.
  unfold pd.rename_label, add_suffix, pd.renamer. f_equal; [f_equal|].
  - assert (existsb (fun lb => String.eqb (pd.tf_of lb) (pd.tf_of (pd.label c))) shared = true) as ->;
      [|reflexivity].
    apply existsb_exists. exists (pd.label c). split; [apply Hin, Hc | apply String.eqb_refl].
  - assert (existsb (fun lb => String.eqb (pd.tf_of lb) (pd.attr_of (pd.label c))) shared = false) as ->;
      [|reflexivity].
    destruct (existsb _ shared) eqn:E; [|reflexivity]. exfalso.
    apply existsb_exists in E. destruct E as [b [Hb Eb]]. apply String.eqb_eq in Eb.
    apply (Hattr (pd.label c) b (Hin c Hc) Hb). congruence.
Qed.

(** C8, as the code has it. A gene ANDed with itself is the join of its
    table with itself: every column of the table is there twice, once per
    operand and cell for cell, the transcription factor of each copy
    suffixed with the filter string and the token of its side; the labels
    are pairwise distinct when the two tokens differ. The evaluation
    returns this table without its empty column groups. *)
Theorem and_with_itself_keeps_both_copies (g : string) (n : nat) (t : pd.TargetFrame) :
  is_operand (pp.PStr g) = true ->
  eval (pp.PStr g) n = inr (t, n) ->
  pd.include t = true ->
  (forall a b, In a (pd.labels t) -> In b (pd.labels t) -> pd.attr_of a <> pd.tf_of b) ->
  exists df,
    combine_and uuid4 t t n = inr (df, S (S n))
    /\ eval (pp.PGroup [pp.PStr g; pp.PStr "and"; pp.PStr g]) n
       = inr (pd.set_filter_string ((pd.filter_string t ++ " and ") ++ pd.filter_string t)
                (if filter_raises_IndexError df then pd.new_frame [] [] else pd.filter_groups df),
              S (S n))
    /\ pd.index df = pd.index t
    /\ pd.labels df
       = (List.map (add_suffix (suffix (pd.filter_string t) (uuid4 n))) (pd.labels t)
          ++ List.map (add_suffix (suffix (pd.filter_string t) (uuid4 (S n)))) (pd.labels t))%list
    /\ (forall r, In r (pd.index t) -> pd.row df r = (pd.row t r ++ pd.row t r)%list)
    /\ (String.length (uuid4 n) = String.length (uuid4 (S n)) -> uuid4 n <> uuid4 (S n) ->
        NoDup (pd.labels t) -> NoDup (pd.labels df)).
Proof.
  intros Hg Heval Hinc Hattr.
  assert (exists df,
            combine_and uuid4 t t n = inr (df, S (S n))
            /\ pd.index df = pd.index t
            /\ pd.labels df
               = (List.map (add_suffix (suffix (pd.filter_string t) (uuid4 n))) (pd.labels t)
                  ++ List.map (add_suffix (suffix (pd.filter_string t) (uuid4 (S n)))) (pd.labels t))%list
            /\ (forall r, In r (pd.index t) -> pd.row df r = (pd.row t r ++ pd.row t r)%list))
    as [df [Hdf [Hidx [Hlab Hrow]]]].
  { unfold combine_and. rewrite Hinc. cbn [andb].
    unfold merge_with_suffix, get_suffix, bind, lift, pd.merge. cbn [fst snd].
    rewrite to_rename_self.
    assert (pd.join_index pd.inner (pd.index t) (pd.index t) = pd.index t) as Hjoin.
    { apply filter_all. intros x Hx. apply isin_In, Hx. }
    assert (forall f r, In r (pd.index t) ->
              List.map (fun c => pd.cells c r)
                (List.map (pd.rename_column f) (List.map (pd.align_rows (pd.index t)) (pd.columns t)))
              = pd.row t r) as Hcells.
    { intros f r Hr. rewrite row_align.
      destruct (pd.isin r (pd.index t)) eqn:E; [reflexivity|].
      apply isin_In in Hr. congruence. }
    destruct (pd.labels t) as [|lb l] eqn:El.
    - eexists. split; [reflexivity|]. unfold pd.new_frame, pd.labels, pd.row. cbn [pd.index pd.columns].
      split; [exact Hjoin|].
      unfold pd.labels in El. destruct (pd.columns t); [|discriminate].
      split; reflexivity.
    - rewrite <- El in *.
      assert (String.eqb (suffix (pd.filter_string t) (uuid4 n)) ""
              && String.eqb (suffix (pd.filter_string t) (uuid4 (S n))) "" = false) as ->
        by reflexivity.
      destruct (pd.labels t) as [|lb' l'] eqn:El'; [discriminate|]. rewrite <- El' in *.
      eexists. split; [reflexivity|]. unfold pd.new_frame, pd.row. cbn [pd.index pd.columns].
      split; [exact Hjoin|]. split.
      + unfold pd.labels at 1. cbn [pd.columns]. rewrite map_app.
        rewrite !renamed_labels; try reflexivity; try exact Hattr;
          intros c Hc; apply in_map, Hc.
      + intros r Hr. rewrite map_app, !Hcells by exact Hr. reflexivity. }
  exists df. split; [exact Hdf|]. split; [|split; [exact Hidx|split; [exact Hlab|split; [exact Hrow|]]]].
  - rewrite get_tf_binary by (auto; exact Hg).
    unfold bind. rewrite Heval, Heval. unfold binary, bind. cbn [String.eqb Ascii.eqb Bool.eqb].
    rewrite Hdf. reflexivity.
  - intros Hlen Hneq Hnd. rewrite Hlab. apply NoDup_add_suffix.
    + rewrite !length_suffix. lia.
    + intros H. apply suffix_inj in H. contradiction.
    + exact Hnd.
Qed.

End Properties.

Lemma not_flips_include_only_witness :
  exists df,
    Sample.get_tf Sample.data (pp.PGroup [pp.PStr "not"; pp.PStr "G1"]) 0
    = inr (df, O)
    /\ pd.index df = ["A"; "B"; "C"]
    /\ pd.include df = false
    /\ pd.filter_string df = "not G1".
Proof.
  destruct (not_flips_include_only Sample.data Sample.add_edges Sample.float
              Sample.has_add_edges Sample.uuid4 Sample.filter_raises_IndexError
              None None None (pp.PStr "G1") 0 0
              (match Sample.get_tf Sample.data (pp.PStr "G1") 0 with
               | inr (t, _) => t
               | inl _ => pd.new_frame [] []
               end) eq_refl)
    as [df [H1 [H2 [H3 [H4 H5]]]]].
  exists df. split; [exact H1|]. split; [rewrite H2; reflexivity|].
  split; [rewrite H4; reflexivity | rewrite H5; reflexivity].
Defined.

Lemma parse_query_empty_iff_witness :
  Sample.parse_query Sample.data "not G1" = inl (QueryError "empty query").
Proof.
  pose proof (parse_query_empty_iff Sample.data Sample.add_edges Sample.float
                Sample.has_add_edges Sample.uuid4 Sample.filter_raises_IndexError
                None None None "not G1" (pp.PGroup [pp.PStr "not"; pp.PStr "G1"]) [] ""
                (match Sample.get_tf Sample.data (pp.PGroup [pp.PStr "not"; pp.PStr "G1"]) 0 with
                 | inr (t, _) => t
                 | inl _ => pd.new_frame [] []
                 end) 0 eq_refl eq_refl) as [[_ H] _].
  apply H. right. reflexivity.
Defined.

Lemma user_list_too_restrictive_witness :
  snd (get_query_result Sample.data Sample.add_edges Sample.float Sample.has_add_edges
         Sample.uuid4 Sample.filter_raises_IndexError Sample.annotations
         (Some "G1") (Some [("D", "mine", 1%nat)]) None None None (Some 0%nat) [])
  = inl (QueryError "Empty result (user list too restrictive).").
Proof.
  apply (user_list_too_restrictive Sample.data Sample.add_edges Sample.float
           Sample.has_add_edges Sample.uuid4 Sample.filter_raises_IndexError
           Sample.annotations None None "G1" [("D", "mine", 1%nat)] None (Some 0%nat) []
           (match Sample.parse_query Sample.data "G1" with
            | inr t => t
            | inl _ => pd.new_frame [] []
            end)
           [(1%Z, "EDGE_TYPE", "DAP"); (1%Z, "GENE_ID", "G1"); (1%Z, "GENE_NAME", "gene one")]).
  - reflexivity.
  - reflexivity.
  - intros r Hr. vm_compute in Hr.
    destruct Hr as [<-|[<-|[<-|[]]]]; reflexivity.
Defined.

(** C3, counterexample. The value "abc" does not coerce to a number: the
    evaluation of the PVALUE modifier raises [ValueError] and the query is
    aborted with it, where the claim has a fully-excluding mask and no
    exception. *)
Lemma comp_mod_not_a_number_raises :
  Sample.float "abc" = None
  /\ get_mod Sample.data Sample.float Sample.has_add_edges (Sample.table "G2")
       (pp.PMod "PVALUE" "<" "abc")
     = inl (ValueError "could not convert string to float: abc")
  /\ Sample.parse_query Sample.data "G2[PVALUE<abc]"
     = inl (ValueError "could not convert string to float: abc").
Proof. repeat split. Qed.

Lemma comp_mod_value_coercion_witness :
  get_mod Sample.data Sample.float Sample.has_add_edges (Sample.table "G2")
    (pp.PMod "PVALUE" "<" "abc")
  = inl (ValueError "could not convert string to float: abc")
  /\ forall m,
       get_mod Sample.data Sample.float Sample.has_add_edges (Sample.table "G1")
         (pp.PMod "PVALUE" "<" "0.05") = inr (MFrame m) ->
       forall r, m ("G1", Some 1%Z, "EDGE") r = false.
Proof.
  split.
  - apply (proj1 (comp_mod_value_coercion Sample.data Sample.float Sample.has_add_edges
                    (Sample.table "G2") "PVALUE" "<" "abc" (or_introl eq_refl))).
    + reflexivity.
    + vm_compute. discriminate.
  - intros m Hm r.
    apply (proj2 (comp_mod_value_coercion Sample.data Sample.float Sample.has_add_edges
                    (Sample.table "G1") "PVALUE" "<" "0.05" (or_introl eq_refl))
             (Qmake 5 100) m ("G1", 1%Z)).
    + reflexivity.
    + vm_compute. discriminate.
    + exact Hm.
    + vm_compute. left. reflexivity.
    + reflexivity.
    + reflexivity.
Defined.



(** C2, at the failing input. The table of the query has three cells and
    the size limit is one: without a gene list the guard raises; with a
    gene list that keeps one row it does not, because the guard reads the
    size of the table after the gene list was applied. *)
Theorem size_limit_read_after_user_list :
  pd.size (Sample.table "G1") = 3%nat
  /\ Sample.get_query_result "G1" None (Some 1%nat) = inl (QueryError "Result too large.")
  /\ exists out, Sample.get_query_result "G1" (Some [("A", "mine", 1%nat)]) (Some 1%nat) = inr out.
Proof.
  split; [reflexivity|]. split; [reflexivity|].
  eexists. vm_compute. reflexivity.
Qed.

(** C8, counterexample. The table of the gene has one column; the table of
    the gene ANDed with itself has two, with the same cells: the column is
    there once per operand, where the claim has the two copies reduced to
    one. *)
Lemma and_with_itself_doubles_columns :
  Sample.show (Sample.parse_query Sample.data "G1")
  = inr (["A"; "B"; "C"], [("G1", Some 1%Z, "EDGE")],
         [[pd.Txt "+"]; [pd.Txt "+"]; [pd.Txt "+"]], true, "G1")
  /\ List.length (pd.labels (Sample.table "G1 and G1")) = 2%nat
  /\ List.map pd.analysis_of (pd.labels (Sample.table "G1 and G1")) = [Some 1%Z; Some 1%Z]
  /\ List.map pd.attr_of (pd.labels (Sample.table "G1 and G1")) = ["EDGE"; "EDGE"]
  /\ pd.to_rows (Sample.table "G1 and G1")
     = [[pd.Txt "+"; pd.Txt "+"]; [pd.Txt "+"; pd.Txt "+"]; [pd.Txt "+"; pd.Txt "+"]].
Proof. repeat split. Qed.

Lemma and_with_itself_keeps_both_copies_witness :
  exists df,
    Sample.get_tf Sample.data (pp.PGroup [pp.PStr "G1"; pp.PStr "and"; pp.PStr "G1"]) 0
    = inr (pd.set_filter_string "G1 and G1" (pd.filter_groups df), 2%nat)
    /\ List.length (pd.labels df) = 2%nat
    /\ NoDup (pd.labels df).
Proof.
  destruct (and_with_itself_keeps_both_copies Sample.data Sample.add_edges Sample.float
              Sample.has_add_edges Sample.uuid4 Sample.filter_raises_IndexError
              None None None "G1" 0 (Sample.table "G1") eq_refl eq_refl eq_refl)
    as [df [_ [Heval [_ [Hlab [_ Hnd]]]]]].
  - intros a b Ha Hb. vm_compute in Ha, Hb.
    destruct Ha as [<-|[]], Hb as [<-|[]]. discriminate.
  - exists df. split; [exact Heval|]. split.
    + rewrite Hlab. reflexivity.
    + apply Hnd.
      * reflexivity.
      * vm_compute. discriminate.
      * vm_compute. constructor; [intros []|constructor].
Defined.

(** *** Column reorder *)

Section SortFacts.

Context {A : Type} (leb : A -> A -> bool).
Hypothesis leb_total : forall a b, leb a b = true \/ leb b a = true.
Hypothesis leb_antisym : forall a b, leb a b = true -> leb b a = true -> a = b.
Hypothesis leb_trans : forall a b c, leb a b = true -> leb b c = true -> leb a c = true.

Lemma insert_sorted_comm (x y : A) (l : list A) :
  pd.insert_sorted leb x (pd.insert_sorted leb y l)
  = pd.insert_sorted leb y (pd.insert_sorted leb x l).
Proof.
  induction l as [|a l IH]; simpl.
  - destruct (leb x y) eqn:Exy, (leb y x) eqn:Eyx; try reflexivity.
    + rewrite (leb_antisym x y Exy Eyx). reflexivity.
    + destruct (leb_total x y); congruence.
  - destruct (leb y a) eqn:Eya, (leb x a) eqn:Exa; simpl; rewrite ?Eya, ?Exa.
    + destruct (leb x y) eqn:Exy, (leb y x) eqn:Eyx; try reflexivity.
      * rewrite (leb_antisym x y Exy Eyx). reflexivity.
      * destruct (leb_total x y); congruence.
    + destruct (leb x y) eqn:Exy; [|reflexivity].
      rewrite (leb_trans x y a Exy Eya) in Exa. discriminate.
    + destruct (leb y x) eqn:Eyx; [|reflexivity].
      rewrite (leb_trans y x a Eyx Exa) in Eya. discriminate.
    + rewrite IH. reflexivity.
Qed.

(** The sorted list does not depend on the order of what is sorted. *)
Lemma sort_Permutation (l1 l2 : list A) :
  Permutation l1 l2 -> pd.sort leb l1 = pd.sort leb l2.
Proof.
  unfold pd.sort. induction 1 as [|x l1 l2 _ IH|x y l|l1 l2 l3 _ IH1 _ IH2]; simpl.
  - reflexivity.
  - rewrite IH. reflexivity.
  - apply insert_sorted_comm.
  - congruence.
Qed.

End SortFacts.

Section DedupFacts.

Context {A : Type} (eqb : A -> A -> bool).
Hypothesis eqb_eq : forall a b, eqb a b = true <-> a = b.

Lemma In_dedup (x : A) (l : list A) : In x (pd.dedup eqb l) <-> In x l.
Proof.
  induction l as [|a l IH]; simpl; [tauto|].
  rewrite filter_In, IH, negb_true_iff. split.
  - intros [H|[H _]]; auto.
  - intros [H|H]; [auto|].
    destruct (eqb a x) eqn:E; [left; apply eqb_eq, E | right; auto].
Qed.

Lemma NoDup_dedup (l : list A) : NoDup (pd.dedup eqb l).
Proof.
  induction l as [|a l IH]; simpl; constructor.
  - rewrite filter_In, negb_true_iff. intros [_ H].
    assert (eqb a a = true) by (apply eqb_eq; reflexivity). congruence.
  - apply NoDup_filter, IH.
Qed.

Lemma dedup_Permutation (l1 l2 : list A) :
  Permutation l1 l2 -> Permutation (pd.dedup eqb l1) (pd.dedup eqb l2).
Proof.
  intros H. apply NoDup_Permutation; try apply NoDup_dedup.
  intros x. rewrite !In_dedup. split; apply Permutation_in; [exact H | symmetry; exact H].
Qed.

End DedupFacts.

Lemma string_leb_trans (a b c : string) :
  String.leb a b = true -> String.leb b c = true -> String.leb a c = true.
Proof.
  unfold String.leb. revert b c.
  induction a as [|x a IH]; intros [|y b] [|z c]; simpl; try congruence.
  unfold Ascii.compare.
  destruct (N.compare_spec (N_of_ascii x) (N_of_ascii y)) as [E1|L1|G1];
    destruct (N.compare_spec (N_of_ascii y) (N_of_ascii z)) as [E2|L2|G2];
    destruct (N.compare_spec (N_of_ascii x) (N_of_ascii z)) as [E3|L3|G3];
    try lia; try congruence; auto.
  apply IH.
Qed.

Lemma Z_leb_total (a b : Z) : Z.leb a b = true \/ Z.leb b a = true.
Proof. destruct (Z.leb_spec a b); [left; reflexivity | right; apply Z.leb_le; lia]. Qed.

Lemma Z_leb_antisym (a b : Z) : Z.leb a b = true -> Z.leb b a = true -> a = b.
Proof. rewrite !Z.leb_le. lia. Qed.

Lemma Z_leb_trans (a b c : Z) : Z.leb a b = true -> Z.leb b c = true -> Z.leb a c = true.
Proof. rewrite !Z.leb_le. lia. Qed.

Lemma Permutation_filter_keep {A : Type} (f : A -> bool) (l1 l2 : list A) :
  Permutation l1 l2 -> Permutation (filter f l1) (filter f l2).
Proof.
  induction 1 as [|x l1 l2 _ IH|x y l|l1 l2 l3 _ IH1 _ IH2]; simpl.
  - constructor.
  - destruct (f x); [constructor|]; exact IH.
  - destruct (f x), (f y); try reflexivity. constructor.
  - etransitivity; eassumption.
Qed.

(** The counts of a level are those of the set of columns: the order in
    which the columns are supplied does not change them. *)
Lemma level_counts_Permutation {K : Type} (eqb leb : K -> K -> bool)
    (key : pd.Label -> option K) (df1 df2 : pd.TargetFrame) :
  (forall a b, eqb a b = true <-> a = b) ->
  (forall a b, leb a b = true \/ leb b a = true) ->
  (forall a b, leb a b = true -> leb b a = true -> a = b) ->
  (forall a b c, leb a b = true -> leb b c = true -> leb a c = true) ->
  pd.index df1 = pd.index df2 ->
  Permutation (pd.columns df1) (pd.columns df2) ->
  level_counts eqb leb key df1 = level_counts eqb leb key df2.
Proof.
  intros Heq Htot Hanti Htrans Hidx Hperm. unfold level_counts.
  assert (Permutation (pd.labels df1) (pd.labels df2)) as Hlab
    by (apply Permutation_map, Hperm).
  rewrite (sort_Permutation leb Htot Hanti Htrans _ _
             (dedup_Permutation eqb Heq _ _ (Permutation_flat_map _ Hlab))).
  apply map_ext. intros k. f_equal. rewrite Hidx.
  apply Permutation_list_sum, Permutation_map, Permutation_filter_keep, Hperm.
Qed.

Lemma runs_spec (cols : list pd.Column) :
  concat (runs cols) = cols /\ Forall one_tf (runs cols).
Proof.
  induction cols as [|c cols [IHc IHf]]; simpl; [split; [reflexivity | constructor]|].
  destruct (runs cols) as [|[|c' r] rs] eqn:E.
  - simpl in IHc. subst cols. split; [reflexivity|].
    constructor; [|constructor]. split; [discriminate|].
    intros x [<-|[]]. reflexivity.
  - inversion IHf as [|? ? [Hne _] _]. congruence.
  - destruct (String.eqb (pd.tf_of (pd.label c)) (pd.tf_of (pd.label c'))) eqn:Etf.
    + apply String.eqb_eq in Etf. split; [simpl in *; congruence|].
      inversion IHf as [|? ? [_ Hrun] Hrs]; subst. constructor; [|exact Hrs].
      split; [discriminate|]. intros x [<-|Hx]; [reflexivity|].
      simpl in *. rewrite Etf. apply Hrun, Hx.
    + split; [simpl in *; congruence|].
      constructor; [|exact IHf]. split; [discriminate|].
      intros x [<-|[]]. reflexivity.
Qed.

Lemma filter_flat_map {A B : Type} (p : B -> bool) (f : A -> list B) (l : list A) :
  filter p (flat_map f l) = flat_map (fun x => filter p (f x)) l.
Proof.
  induction l as [|a l IH]; simpl; [reflexivity|]. rewrite filter_app, IH. reflexivity.
Qed.

Lemma filter_filter {A : Type} (p q : A -> bool) (l : list A) :
  filter p (filter q l) = filter (fun x => q x && p x) l.
Proof.
  induction l as [|a l IH]; simpl; [reflexivity|].
  destruct (q a); simpl; [destruct (p a)|]; rewrite IH; reflexivity.
Qed.

Lemma filter_take_by {K : Type} (eqb : K -> K -> bool) (key : pd.Label -> option K)
    (order : list K) (p : pd.Column -> bool) (cols : list pd.Column) :
  filter p (take_by eqb key order cols) = take_by eqb key order (filter p cols).
Proof.
  unfold take_by. rewrite filter_flat_map. apply flat_map_ext. intros k.
  rewrite !filter_filter. apply filter_ext. intros c. apply andb_comm.
Qed.

Lemma take_by_nil {K : Type} (eqb : K -> K -> bool) (key : pd.Label -> option K)
    (order : list K) : take_by eqb key order [] = [].
Proof. unfold take_by. induction order; simpl; auto. Qed.

Lemma filter_one_tf (t : string) (run : list pd.Column) :
  one_tf run ->
  filter (fun c => String.eqb t (pd.tf_of (pd.label c))) run
  = if String.eqb t (run_tf run) then run else [].
Proof.
  intros [_ H]. destruct (String.eqb t (run_tf run)) eqn:E.
  - apply filter_all. intros c Hc. rewrite (H c Hc). exact E.
  - apply filter_none. intros c Hc. rewrite (H c Hc). exact E.
Qed.

(** Below a transcription factor whose columns stand side by side, the
    reorder on the analysis level is the regrouping of its columns. *)
Lemma filter_tf_runs (order : list Z) (t : string) (rs : list (list pd.Column)) :
  Forall one_tf rs -> NoDup (List.map run_tf rs) ->
  filter (fun c => String.eqb t (pd.tf_of (pd.label c)))
         (flat_map (take_by Z.eqb pd.analysis_of order) rs)
  = take_by Z.eqb pd.analysis_of order
      (filter (fun c => String.eqb t (pd.tf_of (pd.label c))) (concat rs)).
Proof.
  intros Hone Hnd.
  assert (forall rs', Forall one_tf rs' -> ~ In t (List.map run_tf rs') ->
            filter (fun c => String.eqb t (pd.tf_of (pd.label c))) (concat rs') = []
            /\ filter (fun c => String.eqb t (pd.tf_of (pd.label c)))
                 (flat_map (take_by Z.eqb pd.analysis_of order) rs') = []) as Hother.
  { induction rs' as [|run rs' IH]; intros Hf Hin; [split; reflexivity|].
    inversion Hf as [|? ? Hrun Hrs]; subst. simpl in Hin.
    assert (String.eqb t (run_tf run) = false) as E
      by (apply String.eqb_neq; intros ->; tauto).
    destruct (IH Hrs) as [H1 H2]; [tauto|].
    simpl. rewrite !filter_app, filter_take_by, filter_one_tf, E, take_by_nil, H1, H2 by exact Hrun.
    split; reflexivity. }
  induction rs as [|run rs IH]; simpl; [rewrite take_by_nil; reflexivity|].
  inversion Hone as [|? ? Hrun Hrs]; subst. inversion Hnd as [|? ? Hnotin Hnd']; subst.
  rewrite !filter_app, filter_take_by, filter_one_tf by exact Hrun.
  destruct (String.eqb t (run_tf run)) eqn:E.
  - apply String.eqb_eq in E. subst t.
    destruct (Hother rs Hrs Hnotin) as [H1 H2]. rewrite H1, H2, !app_nil_r. reflexivity.
  - rewrite take_by_nil. simpl. apply IH; assumption.
Qed.

Lemma in_group_split (t : string) (a : Z) (c : pd.Column) :
  pd.in_group (t, a) c
  = String.eqb t (pd.tf_of (pd.label c))
    && match pd.analysis_of (pd.label c) with
       | Some a' => Z.eqb a a'
       | None => false
       end.
Proof.
  unfold pd.in_group, pd.group_key, pd.key_eqb.
  destruct (pd.analysis_of (pd.label c)); simpl; [reflexivity|].
  rewrite andb_false_r. reflexivity.
Qed.

(** The reordered columns of a table whose transcription factors each have
    their columns side by side: the transcription factors in their order,
    below each the analyses in their order, and the columns of a
    (transcription factor, analysis) group in the order they had. *)
Lemma reorder_data_groups (df : pd.TargetFrame) :
  tf_adjacent df ->
  pd.columns (reorder_data df)
  = flat_map (fun t =>
      flat_map (fun a => filter (pd.in_group (t, a)) (pd.columns df))
        (sort_values_desc (level_counts Z.eqb Z.leb pd.analysis_of df)))
      (sort_values_desc (level_counts String.eqb String.leb (fun lb => Some (pd.tf_of lb)) df)).
Proof.
  intros Hadj. unfold reorder_data, reindex_level0, reindex_level1, pd.derive.
  cbn [pd.columns]. unfold take_by at 1.
  apply flat_map_ext. intros t.
  destruct (runs_spec (pd.columns df)) as [Hcat Hone].
  rewrite (filter_tf_runs _ t _ Hone Hadj), Hcat.
  unfold take_by. apply flat_map_ext. intros a.
  rewrite filter_filter. apply filter_ext. intros c. symmetry. apply in_group_split.
Qed.

(** C7, as the code has it. Two tables with the same rows and the same
    columns, supplied in different orders, are reordered to the same final
    column order when, in both, the columns of every transcription factor
    stand side by side and the columns of every (transcription factor,
    analysis) group come in the same order: the reorder puts the
    transcription factors and, below them, the analyses in the order of
    their counts, and leaves the order inside a group as supplied. *)
Theorem reorder_data_same_order (df1 df2 : pd.TargetFrame) :
  pd.index df1 = pd.index df2 ->
  Permutation (pd.columns df1) (pd.columns df2) ->
  tf_adjacent df1 -> tf_adjacent df2 ->
  (forall k, filter (pd.in_group k) (pd.columns df1) = filter (pd.in_group k) (pd.columns df2)) ->
  pd.columns (reorder_data df1) = pd.columns (reorder_data df2).
Proof.
  intros Hidx Hperm Hadj1 Hadj2 Hgroups.
  rewrite !reorder_data_groups by assumption.
  rewrite (level_counts_Permutation Z.eqb Z.leb pd.analysis_of df1 df2
             Z.eqb_eq Z_leb_total Z_leb_antisym Z_leb_trans Hidx Hperm).
  rewrite (level_counts_Permutation String.eqb String.leb (fun lb => Some (pd.tf_of lb)) df1 df2
             String.eqb_eq String.leb_total String.leb_antisym string_leb_trans Hidx Hperm).
  apply flat_map_ext. intros t. apply flat_map_ext. intros a. apply Hgroups.
Qed.

(** C7, counterexample. The table of G2 has the two columns Pvalue and
    Log2FC of one analysis. Supplied in this order and in the reverse
    order, the same cells are reordered to two different column orders:
    the order inside a column group is the supplied one. *)
Lemma reorder_data_keeps_supplied_order :
  pd.index (Sample.reversed (Sample.table "G2")) = pd.index (Sample.table "G2")
  /\ Permutation (pd.columns (Sample.table "G2")) (pd.columns (Sample.reversed (Sample.table "G2")))
  /\ pd.labels (reorder_data (Sample.table "G2"))
     = [("G2", Some 2%Z, "Pvalue"); ("G2", Some 2%Z, "Log2FC")]
  /\ pd.labels (reorder_data (Sample.reversed (Sample.table "G2")))
     = [("G2", Some 2%Z, "Log2FC"); ("G2", Some 2%Z, "Pvalue")].
Proof.
  split; [reflexivity|]. split; [apply Permutation_rev|]. split; reflexivity.
Qed.

Lemma groups_agree_swap (l1 l2 : list pd.Column) :
  (forall a b, In a l1 -> In b l2 -> pd.group_key (pd.label a) <> pd.group_key (pd.label b)) ->
  forall k, filter (pd.in_group k) (l1 ++ l2) = filter (pd.in_group k) (l2 ++ l1).
Proof.
  intros H k. rewrite !filter_app.
  destruct (filter (pd.in_group k) l1) as [|a r1] eqn:E1;
    destruct (filter (pd.in_group k) l2) as [|b r2] eqn:E2;
    rewrite ?app_nil_r; try reflexivity.
  exfalso.
  assert (In a (filter (pd.in_group k) l1)) as Ha by (rewrite E1; left; reflexivity).
  assert (In b (filter (pd.in_group k) l2)) as Hb by (rewrite E2; left; reflexivity).
  apply filter_In in Ha, Hb. destruct Ha as [Ha Ka], Hb as [Hb Kb].
  apply (H a b Ha Hb). unfold pd.in_group in Ka, Kb.
  destruct (pd.group_key (pd.label a)) as [ka|]; [|discriminate].
  destruct (pd.group_key (pd.label b)) as [kb|]; [|discriminate].
  apply key_eqb_eq in Ka, Kb. congruence.
Qed.

Lemma reorder_data_same_order_witness :
  pd.labels (Sample.evaluated (pp.PGroup [pp.PStr "G1"; pp.PStr "or"; pp.PStr "G2"]))
  <> pd.labels (Sample.evaluated (pp.PGroup [pp.PStr "G2"; pp.PStr "or"; pp.PStr "G1"]))
  /\ pd.columns (reorder_data (Sample.evaluated (pp.PGroup [pp.PStr "G1"; pp.PStr "or"; pp.PStr "G2"])))
     = pd.columns (reorder_data (Sample.evaluated (pp.PGroup [pp.PStr "G2"; pp.PStr "or"; pp.PStr "G1"]))).
Proof.
  split; [vm_compute; discriminate|].
  set (c1 := pd.columns (Sample.evaluated (pp.PGroup [pp.PStr "G1"; pp.PStr "or"; pp.PStr "G2"]))).
  assert (pd.columns (Sample.evaluated (pp.PGroup [pp.PStr "G2"; pp.PStr "or"; pp.PStr "G1"]))
          = (skipn 1 c1 ++ firstn 1 c1)%list) as H2 by (vm_compute; reflexivity).
  apply reorder_data_same_order.
  - reflexivity.
  - fold c1. rewrite H2. rewrite <- (firstn_skipn 1 c1) at 1. apply Permutation_app_comm.
  - vm_compute. repeat constructor; simpl; intuition discriminate.
  - vm_compute. repeat constructor; simpl; intuition discriminate.
  - intros k. fold c1. rewrite H2.
    transitivity (filter (pd.in_group k) (firstn 1 c1 ++ skipn 1 c1)%list);
      [rewrite firstn_skipn; reflexivity|].
    apply groups_agree_swap. intros a b Ha Hb. vm_compute in Ha, Hb.
    destruct Ha as [<-|[]]. destruct Hb as [<-|[<-|[]]]; vm_compute; discriminate.
Defined.

(** *** The grammar *)

Section ParserFacts.

Variable D : string -> Prop.
Variable m : string -> Z.
Hypothesis D_suffix : forall pre r, D (pre ++ r) -> D r.
Hypothesis m_app : forall a b, m (a ++ b) = (m a + m b)%Z.
Hypothesis m_plain : forall c, is_bracket c = false -> m (String c "") = 0%Z.
Hypothesis m_round : (m "(" + m ")")%Z = 0%Z.
Hypothesis m_square : (m "[" + m "]")%Z = 0%Z.
Hypothesis quoted_good : forall bound, good D m 0 true pp.quoted_name bound.

Lemma m_nil : m "" = 0%Z.
Proof. pose proof (m_app "" "") as H. simpl in H. lia. Qed.

Lemma m_all_plain (s : string) : all (fun c => negb (is_bracket c)) s = true -> m s = 0%Z.
Proof.
  induction s as [|c s IH]; simpl; intros H; [apply m_nil|].
  apply andb_true_iff in H. destruct H as [Hc Hs].
  change (String c s) with (String c "" ++ s). rewrite m_app, IH, m_plain; auto.
  apply negb_true_iff, Hc.
Qed.

Lemma all_app (f : ascii -> bool) (a b : string) : all f (a ++ b) = all f a && all f b.
Proof. induction a as [|c a IH]; simpl; [reflexivity|]. rewrite IH, andb_assoc. reflexivity. Qed.

Lemma all_impl (f g : ascii -> bool) (s : string) :
  (forall c, f c = true -> g c = true) -> all f s = true -> all g s = true.
Proof.
  intros H. induction s as [|c s IH]; simpl; [auto|].
  rewrite !andb_true_iff. intros [Hc Hs]. auto.
Qed.

Lemma append_nil_r (s : string) : s ++ "" = s.
Proof. induction s as [|c s IH]; simpl; [reflexivity | rewrite IH; reflexivity]. Qed.

Lemma append_assoc (a b c : string) : (a ++ b) ++ c = a ++ (b ++ c).
Proof. induction a as [|x a IH]; simpl; [reflexivity | rewrite IH; reflexivity]. Qed.

Lemma consumes_refl (s : string) : consumes m 0 false s s.
Proof. exists "". split; [reflexivity|]. split; [apply m_nil | discriminate]. Qed.

Lemma consumes_trans (d1 d2 : Z) (b1 b2 : bool) (s r1 r2 : string) :
  consumes m d1 b1 s r1 -> consumes m d2 b2 r1 r2 -> consumes m (d1 + d2) (b1 || b2) s r2.
Proof.
  intros [p1 [-> [H1 S1]]] [p2 [-> [H2 S2]]]. exists (p1 ++ p2).
  split; [symmetry; apply append_assoc|]. split; [rewrite m_app; lia|].
  intros Hb Hnil. destruct p1; [|discriminate]. simpl in Hnil.
  destruct b1; [apply S1; reflexivity|]. simpl in Hb. apply S2; assumption.
Qed.

Lemma consumes_weaken (d : Z) (b : bool) (s r : string) :
  consumes m d b s r -> consumes m d false s r.
Proof. intros [p1 [-> [H1 _]]]. exists p1. repeat split; [exact H1 | discriminate]. Qed.

Lemma consumes_length (d : Z) (b : bool) (s r : string) :
  consumes m d b s r ->
  String.length r <= String.length s /\ (b = true -> String.length r < String.length s).
Proof.
  intros [p1 [-> [_ S1]]]. rewrite length_append. split; [lia|].
  intros Hb. destruct p1; [exfalso; apply S1; auto|]. simpl. lia.
Qed.

Lemma consumes_D (d : Z) (b : bool) (s r : string) : consumes m d b s r -> D s -> D r.
Proof. intros [p1 [-> _]]. apply D_suffix. Qed.

Lemma good_mono (d : Z) (b : bool) (p : pp.ParserElement) (bound bound' : nat) :
  bound' <= bound -> good D m d b p bound -> good D m d b p bound'.
Proof. intros Hle H s Hs Hlen. apply H; [exact Hs | lia]. Qed.

Lemma good_weaken (d : Z) (b : bool) (p : pp.ParserElement) (bound : nat) :
  good D m d b p bound -> good D m d false p bound.
Proof.
  intros H s Hs Hlen. specialize (H s Hs Hlen).
  destruct (p s); auto. eapply consumes_weaken, H.
Qed.

(** An element that reshapes the tokens of another one. *)
Lemma good_reshape (d : Z) (b : bool) (p p' : pp.ParserElement) (bound : nat) :
  (forall s, match p' s with
             | pp.Ok _ r => exists t, p s = pp.Ok t r
             | pp.ParseException => True
             | pp.OutOfFuel => p s = pp.OutOfFuel
             end) ->
  good D m d b p bound -> good D m d b p' bound.
Proof.
  intros Hre H s Hs Hlen. specialize (H s Hs Hlen). specialize (Hre s).
  destruct (p' s) as [t r| |]; [|exact I|].
  - destruct Hre as [t' Ht']. rewrite Ht' in H. exact H.
  - rewrite Hre in H. exact H.
Qed.

Lemma And_good (d1 d2 : Z) (b1 b2 : bool) (p1 p2 : pp.ParserElement) (bound : nat) :
  good D m d1 b1 p1 bound -> good D m d2 b2 p2 bound ->
  good D m (d1 + d2) (b1 || b2) (pp.And p1 p2) bound.
Proof.
  intros H1 H2 s Hs Hlen. unfold pp.And. specialize (H1 s Hs Hlen).
  destruct (p1 s) as [t1 r1| |]; [|exact I|exact H1].
  destruct (consumes_length _ _ _ _ H1) as [Hle _].
  specialize (H2 r1 (consumes_D _ _ _ _ H1 Hs) ltac:(lia)).
  destruct (p2 r1) as [t2 r2| |]; [|exact I|exact H2].
  eapply consumes_trans; eassumption.
Qed.

(** After an element that takes at least one character, the next one works
    on a shorter text. *)
Lemma And_good_strict (d1 d2 : Z) (b2 : bool) (p1 p2 : pp.ParserElement) (bound : nat) :
  good D m d1 true p1 (S bound) -> good D m d2 b2 p2 bound ->
  good D m (d1 + d2) true (pp.And p1 p2) (S bound).
Proof.
  intros H1 H2 s Hs Hlen. unfold pp.And. specialize (H1 s Hs Hlen).
  destruct (p1 s) as [t1 r1| |]; [|exact I|exact H1].
  destruct (consumes_length _ _ _ _ H1) as [_ Hlt]. specialize (Hlt eq_refl).
  specialize (H2 r1 (consumes_D _ _ _ _ H1 Hs) ltac:(lia)).
  destruct (p2 r1) as [t2 r2| |]; [|exact I|exact H2].
  exact (consumes_trans _ _ _ _ _ _ _ H1 H2).
Qed.

Lemma MatchFirst_good (d : Z) (b : bool) (p1 p2 : pp.ParserElement) (bound : nat) :
  good D m d b p1 bound -> good D m d b p2 bound -> good D m d b (pp.MatchFirst p1 p2) bound.
Proof.
  intros H1 H2 s Hs Hlen. unfold pp.MatchFirst. specialize (H1 s Hs Hlen).
  destruct (p1 s) as [t1 r1| |]; [exact H1| |exact H1]. apply H2; assumption.
Qed.

Lemma FollowedBy_good (d : Z) (b : bool) (p : pp.ParserElement) (bound : nat) :
  good D m d b p bound -> good D m 0 false (pp.FollowedBy p) bound.
Proof.
  intros H s Hs Hlen. unfold pp.FollowedBy. specialize (H s Hs Hlen).
  destruct (p s) as [t1 r1| |]; [apply consumes_refl|exact I|exact H].
Qed.

Lemma Group_good (d : Z) (b : bool) (p : pp.ParserElement) (bound : nat) :
  good D m d b p bound -> good D m d b (pp.Group p) bound.
Proof.
  apply good_reshape. intros s. unfold pp.Group. destruct (p s); eauto.
Qed.

Lemma more_good (a : pp.ParserElement) (bound n : nat) (acc : list pp.ParseResults) (s : string) :
  good D m 0 true a bound -> D s -> String.length s < bound -> String.length s < n ->
  match pp.more n a acc s with
  | pp.Ok _ r => consumes m 0 false s r
  | pp.ParseException => True
  | pp.OutOfFuel => False
  end.
Proof.
  intros Ha. revert acc s. induction n as [|n IH]; intros acc s Hs Hlen Hn; [lia|].
  simpl. pose proof (Ha s Hs Hlen) as H.
  destruct (a s) as [t r| |]; [|apply consumes_refl|exact H].
  destruct (consumes_length _ _ _ _ H) as [_ Hlt]. specialize (Hlt eq_refl).
  specialize (IH (acc ++ t)%list r (consumes_D _ _ _ _ H Hs) ltac:(lia) ltac:(lia)).
  destruct (pp.more n a (acc ++ t) r) as [t' r'| |]; [|exact I|exact IH].
  exact (consumes_weaken _ _ _ _ (consumes_trans _ _ _ _ _ _ _ H IH)).
Qed.

Lemma OneOrMore_good (a : pp.ParserElement) (bound : nat) :
  good D m 0 true a bound -> good D m 0 true (pp.OneOrMore a) bound.
Proof.
  intros Ha s Hs Hlen. unfold pp.OneOrMore. pose proof (Ha s Hs Hlen) as H.
  destruct (a s) as [t r| |]; [|exact I|exact H].
  destruct (consumes_length _ _ _ _ H) as [Hle _].
  pose proof (more_good a bound (S (String.length r)) t r Ha
                (consumes_D _ _ _ _ H Hs) ltac:(lia) ltac:(lia)) as Hm.
  destruct (pp.more (S (String.length r)) a t r) as [t' r'| |]; [|exact I|exact Hm].
  exact (consumes_trans _ _ _ _ _ _ _ H Hm).
Qed.

Lemma whitespace_plain (c : ascii) : pp.whitespace c = true -> is_bracket c = false.
Proof.
  destruct c as [[] [] [] [] [] [] [] []]; vm_compute; intros; congruence.
Qed.

Lemma name_chars_plain (c : ascii) : pp.name_chars c = true -> is_bracket c = false.
Proof.
  destruct c as [[] [] [] [] [] [] [] []]; vm_compute; intros; congruence.
Qed.

Lemma upper_char_bracket (c : ascii) : is_bracket (Str.upper_char c) = is_bracket c.
Proof.
  destruct c as [[] [] [] [] [] [] [] []]; vm_compute; reflexivity.
Qed.

Lemma preParse_split (s : string) :
  exists ws, s = ws ++ pp.preParse s /\ all pp.whitespace ws = true.
Proof.
  induction s as [|c s [ws [IH1 IH2]]]; simpl.
  - exists "". split; reflexivity.
  - destruct (pp.whitespace c) eqn:E.
    + exists (String c ws). simpl. rewrite E, IH2. split; [congruence | reflexivity].
    + exists "". split; reflexivity.
Qed.

Lemma m_whitespace (ws : string) : all pp.whitespace ws = true -> m ws = 0%Z.
Proof.
  intros H. apply m_all_plain. revert H. apply all_impl.
  intros c Hc. rewrite (whitespace_plain c Hc). reflexivity.
Qed.

(** An element that first skips white space and then takes [tok]. *)
Lemma consumes_token (s tok r : string) (d : Z) :
  pp.preParse s = tok ++ r -> m tok = d -> tok <> "" -> consumes m d true s r.
Proof.
  intros Hs Hm Hne. destruct (preParse_split s) as [ws [Hsplit Hws]].
  exists (ws ++ tok). split; [rewrite append_assoc, <- Hs; exact Hsplit|].
  split; [rewrite m_app, (m_whitespace ws Hws), Hm; lia|].
  intros _ Hnil. destruct ws; simpl in Hnil; [auto | discriminate].
Qed.

Lemma span_split (f : ascii -> bool) (s w r : string) :
  Str.span f s = (w, r) -> s = w ++ r /\ all f w = true.
Proof.
  revert w r. induction s as [|c s IH]; simpl; intros w r H.
  - injection H as <- <-. split; reflexivity.
  - destruct (f c) eqn:E.
    + destruct (Str.span f s) as [w' r'] eqn:Es. injection H as <- <-.
      destruct (IH w' r' eq_refl) as [-> Hw]. simpl. rewrite E, Hw. split; reflexivity.
    + injection H as <- <-. split; reflexivity.
Qed.

Lemma Word_good (chars : ascii -> bool) (bound : nat) :
  (forall c, chars c = true -> is_bracket c = false) ->
  good D m 0 true (pp.Word chars) bound.
Proof.
  intros Hchars s Hs Hlen. unfold pp.Word.
  destruct (Str.span chars (pp.preParse s)) as [w r] eqn:E.
  destruct (span_split _ _ _ _ E) as [Hsplit Hw].
  destruct w as [|c w]; [exact I|].
  apply (consumes_token s (String c w) r 0 Hsplit); [|discriminate].
  apply m_all_plain. revert Hw. apply all_impl.
  intros x Hx. rewrite (Hchars x Hx). reflexivity.
Qed.

Lemma Suppress_good (c : ascii) (bound : nat) :
  good D m (m (String c "")) true (pp.Suppress c) bound.
Proof.
  intros s Hs Hlen. unfold pp.Suppress.
  destruct (pp.preParse s) as [|d rest] eqn:E; [exact I|].
  destruct (Ascii.eqb c d) eqn:Ec; [|exact I].
  apply Ascii.eqb_eq in Ec. subst d.
  apply (consumes_token s (String c "") rest _ E); [reflexivity | discriminate].
Qed.

Lemma caseless_prefix_split (kw s r : string) :
  pp.caseless_prefix kw s = Some r ->
  exists pre, s = pre ++ r
              /\ String.length pre = String.length kw
              /\ (all (fun c => negb (is_bracket c)) kw = true ->
                  all (fun c => negb (is_bracket c)) pre = true).
Proof.
  revert s. induction kw as [|k kw IH]; intros s H; simpl in H.
  - injection H as <-. exists "". repeat split.
  - destruct s as [|c s]; [discriminate|].
    destruct (Ascii.eqb (Str.upper_char k) (Str.upper_char c)) eqn:E; [|discriminate].
    apply Ascii.eqb_eq in E.
    destruct (IH s H) as [pre [-> [Hlen Hplain]]].
    exists (String c pre). simpl. split; [reflexivity|]. split; [congruence|].
    rewrite !andb_true_iff. intros [Hk Hkw]. split; [|auto].
    rewrite <- upper_char_bracket, <- E, upper_char_bracket. exact Hk.
Qed.

Lemma CaselessKeyword_good (kw : string) (bound : nat) :
  plain_word kw = true -> good D m 0 true (pp.CaselessKeyword kw) bound.
Proof.
  intros Hkw s Hs Hlen. unfold pp.CaselessKeyword.
  apply andb_true_iff in Hkw. destruct Hkw as [Hne Hplain].
  destruct (pp.caseless_prefix kw (pp.preParse s)) as [rest|] eqn:E; [|exact I].
  destruct (caseless_prefix_split _ _ _ E) as [pre [Hsplit [Hl Hp]]].
  assert (consumes m 0 true s rest) as Hc.
  { apply (consumes_token s pre rest 0 Hsplit); [apply m_all_plain, Hp, Hplain|].
    intros ->. destruct kw; [discriminate Hne | discriminate Hl]. }
  destruct rest as [|c rest']; [exact Hc|].
  destruct (pp.identChars (Str.upper_char c)); [exact I | exact Hc].
Qed.

Lemma prefix_rest_split (a s r : string) : pp.prefix_rest a s = Some r -> s = a ++ r.
Proof.
  revert s. induction a as [|x a IH]; intros s H; simpl in H.
  - injection H as <-. reflexivity.
  - destruct s as [|c s]; [discriminate|].
    destruct (Ascii.eqb x c) eqn:E; [|discriminate].
    apply Ascii.eqb_eq in E. subst c. simpl. f_equal. apply IH, H.
Qed.

Lemma oneOf_good (alts : list string) (bound : nat) :
  forallb plain_word alts = true -> good D m 0 true (pp.oneOf alts) bound.
Proof.
  intros Halts s Hs Hlen. unfold pp.oneOf.
  induction alts as [|a alts IH]; simpl; [exact I|].
  simpl in Halts. apply andb_true_iff in Halts. destruct Halts as [Ha Halts].
  destruct (pp.prefix_rest a (pp.preParse s)) as [rest|] eqn:E; [|apply IH, Halts].
  apply andb_true_iff in Ha. destruct Ha as [Hne Hplain].
  apply (consumes_token s a rest 0 (prefix_rest_split _ _ _ E)); [apply m_all_plain, Hplain|].
  intros ->. discriminate Hne.
Qed.

Lemma name_good (bound : nat) : good D m 0 true pp.name bound.
Proof. apply Word_good, name_chars_plain. Qed.

Lemma operand_word_good (bound : nat) :
  good D m 0 true (pp.MatchFirst pp.name pp.quoted_name) bound.
Proof.
  apply MatchFirst_good; [apply name_good | apply quoted_good].
Qed.

Lemma modname_good (bound : nat) : good D m 0 true pp.modname bound.
Proof.
  eapply good_reshape;
    [|exact (And_good _ _ _ _ _ _ _ (operand_word_good bound)
               (And_good _ _ _ _ _ _ _ (oneOf_good ["<="; "<"; "="; ">="; ">"; "!="] bound eq_refl)
                  (operand_word_good bound)))].
  intros s. unfold pp.modname.
  destruct (pp.And _ _ s) as [t r| |]; [|exact I|reflexivity].
  destruct t as [|[k| | |] [|[o| | |] [|[v| | |] [|]]]]; eauto; exact I.
Qed.

(** The two left-associative kinds of level. *)
Lemma unary_left_good (lastExpr opExpr : pp.ParserElement) (fuel bound : nat) :
  good D m 0 true lastExpr bound -> good D m 0 true opExpr bound ->
  good D m 0 true (pp.thisExpr fuel lastExpr (opExpr, 1, pp.LEFT)) bound.
Proof.
  intros Hl Ho. cbn [pp.thisExpr].
  apply MatchFirst_good; [|exact Hl].
  exact (And_good 0 0 false true _ _ _
           (FollowedBy_good _ _ _ _ (And_good _ _ _ _ _ _ _ Hl Ho))
           (Group_good _ _ _ _ (And_good 0 0 true true _ _ _ Hl (OneOrMore_good _ _ Ho)))).
Qed.

Lemma binary_left_good (lastExpr opExpr : pp.ParserElement) (fuel bound : nat) :
  good D m 0 true lastExpr bound -> good D m 0 true opExpr bound ->
  good D m 0 true (pp.thisExpr fuel lastExpr (opExpr, 2, pp.LEFT)) bound.
Proof.
  intros Hl Ho. cbn [pp.thisExpr].
  apply MatchFirst_good; [|exact Hl].
  pose proof (And_good 0 0 true true _ _ _ Ho Hl) as Hol.
  exact (And_good 0 0 false true _ _ _
           (FollowedBy_good _ _ _ _ (And_good 0 0 true true _ _ _ Hl Hol))
           (Group_good _ _ _ _ (And_good 0 0 true true _ _ _ Hl (OneOrMore_good _ _ Hol)))).
Qed.

(** The right-associative prefix level: the operator, then the level
    itself on the shorter text that is left. *)
Lemma prefix_good (opExpr thisExpr : pp.ParserElement) (bound : nat) :
  good D m 0 true opExpr (S bound) -> good D m 0 true thisExpr bound ->
  good D m 0 true
    (pp.And (pp.FollowedBy (pp.And opExpr thisExpr))
            (pp.Group (pp.And (pp.Optional opExpr) thisExpr))) (S bound).
Proof.
  intros Ho Ht s Hs Hlen.
  cbv beta delta [pp.And pp.FollowedBy pp.Group pp.Optional].
  pose proof (Ho s Hs Hlen) as H1.
  destruct (opExpr s) as [t1 r1| |] eqn:E1; [|exact I|exact H1].
  destruct (consumes_length _ _ _ _ H1) as [_ Hlt]. specialize (Hlt eq_refl).
  pose proof (Ht r1 (consumes_D _ _ _ _ H1 Hs) ltac:(lia)) as H2.
  destruct (thisExpr r1) as [t2 r2| |] eqn:E2; cbv beta iota; rewrite ?E1; cbv beta iota;
    rewrite ?E2; [|exact I|exact H2].
  exact (consumes_trans _ _ _ _ _ _ _ H1 H2).
Qed.

Lemma unary_right_good (lastExpr opExpr : pp.ParserElement) (fuel : nat) :
  forall bound, bound <= fuel ->
  good D m 0 true lastExpr bound -> good D m 0 true opExpr bound ->
  good D m 0 true (pp.unary_right fuel lastExpr opExpr) bound.
Proof.
  induction fuel as [|fuel IH]; intros bound Hle Hl Ho.
  - intros s _ Hlen. lia.
  - cbn [pp.unary_right]. apply MatchFirst_good; [|exact Hl].
    destruct bound as [|bound]; [intros s _ Hlen; lia|].
    apply prefix_good; [exact Ho|].
    apply IH; [lia | |]; eapply good_mono; try eassumption; lia.
Qed.

Lemma thisExpr_good (lastExpr : pp.ParserElement) (fuel bound : nat)
    (operDef : pp.ParserElement * nat * pp.opAssoc) :
  bound <= fuel -> good D m 0 true lastExpr bound -> good_operator D m bound operDef ->
  good D m 0 true (pp.thisExpr fuel lastExpr operDef) bound.
Proof.
  intros Hle Hl Ho. destruct operDef as [[opExpr arity] assoc]. unfold good_operator in Ho.
  simpl in Ho.
  destruct arity as [|[|[|arity]]], assoc;
    try (intros s _ _; exact I).
  - apply unary_left_good; assumption.
  - apply unary_right_good; assumption.
  - apply binary_left_good; assumption.
Qed.

Lemma levels_good (fuel bound : nat) (opList : list (pp.ParserElement * nat * pp.opAssoc)) :
  bound <= fuel -> Forall (good_operator D m bound) opList ->
  forall lastExpr, good D m 0 true lastExpr bound ->
  good D m 0 true (fold_left (pp.thisExpr fuel) opList lastExpr) bound.
Proof.
  intros Hle Hops. induction Hops as [|operDef opList Hop _ IH]; intros lastExpr Hl; simpl.
  - exact Hl.
  - apply IH, thisExpr_good; assumption.
Qed.

Lemma round_good (ret : pp.ParserElement) (bound : nat) :
  good D m 0 true ret bound ->
  good D m 0 true (pp.And (pp.Suppress "(") (pp.And ret (pp.Suppress ")"))) (S bound).
Proof.
  intros Hret. rewrite <- m_round.
  replace (m "(" + m ")")%Z with (m "(" + (0 + m ")"))%Z by lia.
  apply (And_good_strict _ _ true); [apply Suppress_good|].
  exact (And_good 0 _ true true _ _ _ Hret (Suppress_good ")" bound)).
Qed.

Lemma infixNotation_good (baseExpr : pp.ParserElement)
    (opList : list (pp.ParserElement * nat * pp.opAssoc)) (fuel : nat) :
  (forall bound, good D m 0 true baseExpr bound) ->
  Forall (good_operator D m fuel) opList ->
  good D m 0 true (pp.infixNotation fuel baseExpr opList) fuel.
Proof.
  intros Hbase. induction fuel as [|fuel IH]; intros Hops.
  - intros s _ Hlen. lia.
  - cbn [pp.infixNotation]. apply levels_good; [lia | exact Hops |].
    apply MatchFirst_good; [apply Hbase|].
    apply round_good, IH.
    eapply Forall_impl; [|exact Hops].
    intros operDef. unfold good_operator. apply good_mono. lia.
Qed.

Lemma opers_good (bound : nat) : Forall (good_operator D m bound) pp.opers.
Proof.
  repeat constructor; unfold good_operator; simpl;
    apply CaselessKeyword_good; reflexivity.
Qed.

Lemma modifier_good (fuel : nat) : good D m 0 true (pp.modifier fuel) (S fuel).
Proof.
  eapply good_reshape with
    (p := pp.And (pp.Suppress "[") (pp.And (pp.infixNotation fuel pp.modname pp.opers) (pp.Suppress "]"))).
  - intros s. unfold pp.modifier. destruct (pp.And _ _ s); eauto.
  - rewrite <- m_square.
    replace (m "[" + m "]")%Z with (m "[" + (0 + m "]"))%Z by lia.
    apply (And_good_strict _ _ true); [apply Suppress_good|].
    refine (And_good 0 _ true true _ _ _ _ (Suppress_good "]" fuel)).
    apply infixNotation_good; [apply modname_good | apply opers_good].
Qed.

(** The grammar of queries, with a fuel above the length of the text:
    it never runs out of fuel, and what it consumes has measure zero. *)
Lemma expr_good (fuel : nat) : good D m 0 true (pp.expr fuel) fuel.
Proof.
  unfold pp.expr. apply infixNotation_good; [intros bound; apply name_good|].
  constructor; [|apply opers_good].
  unfold good_operator. simpl. eapply good_mono; [|apply modifier_good]. lia.
Qed.

End ParserFacts.

Lemma count_app (c : ascii) (a b : string) : count c (a ++ b) = (count c a + count c b)%Z.
Proof. induction a as [|x a IH]; simpl; [reflexivity | rewrite IH; lia]. Qed.

Lemma count_nonneg (c : ascii) (s : string) : (0 <= count c s)%Z.
Proof. induction s as [|x s IH]; simpl; [lia | destruct (Ascii.eqb c x); lia]. Qed.

Lemma count_repeat (c d : ascii) (n : nat) : c <> d -> count c (Str.repeat d n) = 0%Z.
Proof.
  intros H. induction n as [|n IH]; simpl; [reflexivity|].
  rewrite IH. destruct (Ascii.eqb c d) eqn:E; [apply Ascii.eqb_eq in E; contradiction | reflexivity].
Qed.

(** Tabs become spaces: the other characters are kept. *)
Lemma count_expandtabs (c : ascii) (s : string) (col : nat) :
  c <> Str.tab -> c <> " "%char -> count c (Str.expandtabs_from col s) = count c s.
Proof.
  intros Ht Hs. revert col. induction s as [|x s IH]; intros col; simpl; [reflexivity|].
  destruct (Ascii.eqb x Str.tab) eqn:Ex.
  - apply Ascii.eqb_eq in Ex. subst x.
    rewrite count_app, count_repeat, IH by exact Hs.
    destruct (Ascii.eqb c Str.tab) eqn:E; [apply Ascii.eqb_eq in E; contradiction | reflexivity].
  - destruct (Ascii.eqb x Str.lf || Ascii.eqb x Str.cr); simpl; rewrite IH; reflexivity.
Qed.

Lemma length_expandtabs_fuel (s : string) :
  String.length (Str.expandtabs s) < pp.fuel_for s.
Proof. unfold pp.fuel_for. lia. Qed.

Lemma no_quotes_suffix (pre r : string) : no_quotes (pre ++ r) -> no_quotes r.
Proof.
  unfold no_quotes. rewrite !count_app. intros [H1 H2].
  pose proof (count_nonneg Str.dquote pre). pose proof (count_nonneg Str.dquote r).
  pose proof (count_nonneg Str.squote pre). pose proof (count_nonneg Str.squote r).
  lia.
Qed.

Lemma delta_app (o c : ascii) (a b : string) : delta o c (a ++ b) = (delta o c a + delta o c b)%Z.
Proof. unfold delta. rewrite !count_app. lia. Qed.

Lemma delta_plain (o c x : ascii) :
  is_bracket o = true -> is_bracket c = true -> is_bracket x = false ->
  delta o c (String x "") = 0%Z.
Proof.
  intros Ho Hc Hx. unfold delta. simpl.
  destruct (Ascii.eqb o x) eqn:E1; [apply Ascii.eqb_eq in E1; congruence|].
  destruct (Ascii.eqb c x) eqn:E2; [apply Ascii.eqb_eq in E2; congruence|].
  reflexivity.
Qed.

(** A quoted string starts with a quote. *)
Lemma QuotedString_quote (q : ascii) (s : string) (t : list pp.ParseResults) (r : string) :
  pp.QuotedString q s = pp.Ok t r -> (1 <= count q s)%Z.
Proof.
  unfold pp.QuotedString. intros H.
  destruct (preParse_split s) as [ws [Hs _]].
  destruct (pp.preParse s) as [|c s'] eqn:E; [discriminate|].
  destruct (Ascii.eqb c q) eqn:Ec; [|discriminate].
  apply Ascii.eqb_eq in Ec. subst c. rewrite Hs, count_app. simpl.
  rewrite Ascii.eqb_refl.
  pose proof (count_nonneg q ws). pose proof (count_nonneg q s'). lia.
Qed.

Lemma quoted_body_split (q : ascii) (s body r : string) :
  pp.quoted_body q s = Some (body, r) -> exists pre, s = pre ++ r /\ pre <> "".
Proof.
  assert (forall n s, String.length s <= n -> forall body r,
            pp.quoted_body q s = Some (body, r) -> exists pre, s = pre ++ r /\ pre <> "") as H.
  { clear s body r. induction n as [|n IH]; intros s Hn body r H.
    - destruct s; [discriminate | simpl in Hn; lia].
    - destruct s as [|c s]; [discriminate|]. simpl in H, Hn.
      destruct (Ascii.eqb c q).
      + injection H as <- <-. exists (String c ""). split; [reflexivity | discriminate].
      + destruct (Ascii.eqb c Str.backslash).
        * destruct s as [|d s]; [discriminate|].
          destruct (Ascii.eqb d Str.lf); [discriminate|].
          destruct (pp.quoted_body q s) as [[b r']|] eqn:E; [|discriminate].
          injection H as <- <-. simpl in Hn.
          destruct (IH s ltac:(lia) b r' E) as [pre [-> _]].
          exists (String c (String d pre)). split; [reflexivity | discriminate].
        * destruct (Ascii.eqb c Str.lf || Ascii.eqb c Str.cr); [discriminate|].
          destruct (pp.quoted_body q s) as [[b r']|] eqn:E; [|discriminate].
          injection H as <- <-.
          destruct (IH s ltac:(lia) b r' E) as [pre [-> _]].
          exists (String c pre). split; [reflexivity | discriminate]. }
  exact (H (String.length s) s (le_n _) body r).
Qed.

Lemma QuotedString_split (q : ascii) (s : string) (t : list pp.ParseResults) (r : string) :
  pp.QuotedString q s = pp.Ok t r -> exists pre, s = pre ++ r /\ pre <> "".
Proof.
  unfold pp.QuotedString. intros H.
  destruct (preParse_split s) as [ws [Hs _]].
  destruct (pp.preParse s) as [|c s'] eqn:E; [discriminate|].
  destruct (Ascii.eqb c q); [|discriminate].
  destruct (pp.quoted_body q s') as [[body rest]|] eqn:Eb; [|discriminate].
  injection H as _ <-.
  destruct (quoted_body_split _ _ _ _ Eb) as [pre [-> _]].
  exists (ws ++ String c pre). split.
  - rewrite Hs, append_assoc. reflexivity.
  - destruct ws; discriminate.
Qed.

(** The grammar never runs out of fuel on a text shorter than its fuel. *)
Lemma expr_progress (fuel : nat) :
  good (fun _ => True) (fun _ => 0%Z) 0 true (pp.expr fuel) fuel.
Proof.
  apply expr_good; auto.
  intros bound s _ _. unfold pp.quoted_name, pp.MatchFirst.
  destruct (pp.QuotedString Str.dquote s) as [t r| |] eqn:E1.
  - destruct (QuotedString_split _ _ _ _ E1) as [pre [-> Hne]]. exists pre. auto.
  - destruct (pp.QuotedString Str.squote s) as [t r| |] eqn:E2; [|exact I|].
    + destruct (QuotedString_split _ _ _ _ E2) as [pre [-> Hne]]. exists pre. auto.
    + unfold pp.QuotedString in E2. destruct (pp.preParse s) as [|c s']; [discriminate|].
      destruct (Ascii.eqb c Str.squote); [|discriminate].
      destruct (pp.quoted_body Str.squote s') as [[? ?]|]; discriminate.
  - unfold pp.QuotedString in E1. destruct (pp.preParse s) as [|c s']; [discriminate|].
    destruct (Ascii.eqb c Str.dquote); [|discriminate].
    destruct (pp.quoted_body Str.dquote s') as [[? ?]|]; discriminate.
Qed.

(** On a text without quote characters, what the grammar consumes has as
    many opening as closing brackets, of each of the two kinds. *)
Lemma expr_balanced (o c : ascii) (fuel : nat) :
  (o = "("%char /\ c = ")"%char) \/ (o = "["%char /\ c = "]"%char) ->
  good no_quotes (delta o c) 0 true (pp.expr fuel) fuel.
Proof.
  intros Hoc. apply expr_good.
  - apply no_quotes_suffix.
  - apply delta_app.
  - intros x Hx. apply delta_plain; [| |exact Hx]; destruct Hoc as [[-> ->]|[-> ->]]; reflexivity.
  - destruct Hoc as [[-> ->]|[-> ->]]; reflexivity.
  - destruct Hoc as [[-> ->]|[-> ->]]; reflexivity.
  - intros bound s [Hd Hs] _. unfold pp.quoted_name, pp.MatchFirst.
    destruct (pp.QuotedString Str.dquote s) as [t r| |] eqn:E1.
    + apply QuotedString_quote in E1. lia.
    + destruct (pp.QuotedString Str.squote s) as [t r| |] eqn:E2; [|exact I|].
      * apply QuotedString_quote in E2. lia.
      * unfold pp.QuotedString in E2. destruct (pp.preParse s) as [|x s']; [discriminate|].
        destruct (Ascii.eqb x Str.squote); [|discriminate].
        destruct (pp.quoted_body Str.squote s') as [[? ?]|]; discriminate.
    + unfold pp.QuotedString in E1. destruct (pp.preParse s) as [|x s']; [discriminate|].
      destruct (Ascii.eqb x Str.dquote); [|discriminate].
      destruct (pp.quoted_body Str.dquote s') as [[? ?]|]; discriminate.
Qed.

Lemma parseString_total (s : string) :
  pp.parseString (pp.expr (pp.fuel_for s)) s <> pp.OutOfFuel.
Proof.
  unfold pp.parseString.
  pose proof (expr_progress (pp.fuel_for s) (Str.expandtabs s) I (length_expandtabs_fuel s)) as H.
  destruct (pp.expr (pp.fuel_for s) (Str.expandtabs s)) as [t r| |]; [|discriminate|contradiction].
  destruct (pp.preParse r); discriminate.
Qed.

Lemma parseString_consumes_all (s : string) (toks : list pp.ParseResults) (rest : string) :
  pp.parseString (pp.expr (pp.fuel_for s)) s = pp.Ok toks rest ->
  rest = "" /\ exists r, pp.expr (pp.fuel_for s) (Str.expandtabs s) = pp.Ok toks r
                         /\ pp.preParse r = "".
Proof.
  unfold pp.parseString. intros H.
  destruct (pp.expr (pp.fuel_for s) (Str.expandtabs s)) as [t r| |]; try discriminate.
  destruct (pp.preParse r) eqn:E; [|discriminate].
  injection H as <- <-. split; [reflexivity|]. exists r. split; [reflexivity | exact E].
Qed.

Lemma parseString_balanced (o c : ascii) (s : string) (toks : list pp.ParseResults) (rest : string) :
  (o = "("%char /\ c = ")"%char) \/ (o = "["%char /\ c = "]"%char) ->
  no_quotes s ->
  pp.parseString (pp.expr (pp.fuel_for s)) s = pp.Ok toks rest ->
  delta o c s = 0%Z.
Proof.
  intros Hoc Hq H.
  destruct (parseString_consumes_all _ _ _ H) as [_ [r [Hr Hws]]].
  assert (no_quotes (Str.expandtabs s)) as Hq'.
  { destruct Hq as [H1 H2]. unfold no_quotes, Str.expandtabs.
    rewrite !count_expandtabs by discriminate. auto. }
  pose proof (expr_balanced o c (pp.fuel_for s) Hoc (Str.expandtabs s) Hq'
                (length_expandtabs_fuel s)) as Hg.
  rewrite Hr in Hg. destruct Hg as [pre [Hpre [Hd _]]].
  destruct (preParse_split r) as [ws [Hrw Hall]]. rewrite Hws, append_nil_r in Hrw. subst r.
  assert (delta o c ws = 0%Z) as Hdw.
  { apply (m_whitespace (delta o c)); [apply delta_app| |exact Hall].
    intros x Hx. apply delta_plain; [| |exact Hx]; destruct Hoc as [[-> ->]|[-> ->]]; reflexivity. }
  assert (delta o c (Str.expandtabs s) = 0%Z) as Hz by (rewrite Hpre, delta_app; lia).
  unfold delta, Str.expandtabs in *.
  rewrite !count_expandtabs in Hz; [exact Hz| | | |];
    destruct Hoc as [[-> ->]|[-> ->]]; discriminate.
Qed.

Section GrammarProperties.

Variable data : db.Database.
Variable add_edges : list Long -> list string -> Exn + list Long.
Variable float : string -> option Q.
Variable has_add_edges : pd.TargetFrame -> string -> Exn + pd.Mask.
Variable uuid4 : nat -> string.
Variable filter_raises_IndexError : pd.TargetFrame -> bool.

Local Abbreviation parse := (fun s => pp.parseString (pp.expr (pp.fuel_for s)) s).

Local Abbreviation syntax_error :=
  (fun s => forall edges tf_filter_list target_filter_list,
     parse_query data add_edges float has_add_edges uuid4 filter_raises_IndexError
       s edges tf_filter_list target_filter_list
     = inl (QueryError "Could not parse query")).


End GrammarProperties.



(** * Further properties of the engine *)

(** *** Sorting *)

Section SortOrder.

Context {A : Type} (leb : A -> A -> bool).
Hypothesis leb_total : forall a b, leb a b = true \/ leb b a = true.
Hypothesis leb_trans : forall a b c, leb a b = true -> leb b c = true -> leb a c = true.

Lemma insert_sorted_Permutation (x : A) (l : list A) :
  Permutation (pd.insert_sorted leb x l) (x :: l).
Proof.
  induction l as [|a l IH]; simpl; [reflexivity|].
  destruct (leb x a); [reflexivity|].
  rewrite IH. apply perm_swap.
Qed.

Lemma sort_is_Permutation (l : list A) : Permutation (pd.sort leb l) l.
Proof.
  unfold pd.sort. induction l as [|a l IH]; simpl; [reflexivity|].
  rewrite insert_sorted_Permutation. constructor. exact IH.
Qed.

Lemma insert_sorted_StronglySorted (x : A) (l : list A) :
  StronglySorted (fun a b => leb a b = true) l ->
  StronglySorted (fun a b => leb a b = true) (pd.insert_sorted leb x l).
Proof.
  induction 1 as [|a l Hl IH Ha]; simpl; [repeat constructor|].
  destruct (leb x a) eqn:E.
  - constructor; [constructor; assumption|].
    constructor; [exact E|].
    rewrite Forall_forall in *. intros y Hy. apply (leb_trans x a y E), Ha, Hy.
  - constructor; [exact IH|].
    rewrite Forall_forall in *. intros y Hy.
    apply (Permutation_in _ (insert_sorted_Permutation x l)) in Hy.
    destruct Hy as [<-|Hy]; [|apply Ha, Hy].
    destruct (leb_total x a); congruence.
Qed.

Lemma sort_StronglySorted (l : list A) :
  StronglySorted (fun a b => leb a b = true) (pd.sort leb l).
Proof.
  unfold pd.sort. induction l as [|a l IH]; simpl; [constructor|].
  apply insert_sorted_StronglySorted, IH.
Qed.

End SortOrder.

Lemma StronglySorted_weaken {A : Type} (R R' : A -> A -> Prop) (l : list A) :
  (forall a b, R a b -> R' a b) -> StronglySorted R l -> StronglySorted R' l.
Proof.
  intros H. induction 1 as [|a l Hl IH Ha]; constructor; [exact IH|].
  rewrite Forall_forall in *. intros y Hy. apply H, Ha, Hy.
Qed.

(** *** Words are gene names *)

Lemma word_char_facts (c : ascii) :
  word_char c = true ->
  pp.whitespace c = false /\ pp.name_chars c = true /\ pp.identChars (Str.upper_char c) = true
  /\ Ascii.eqb c Str.tab = false /\ Ascii.eqb c Str.lf = false /\ Ascii.eqb c Str.cr = false.
Proof.
  destruct c as [[] [] [] [] [] [] [] []]; vm_compute; intros H; try discriminate H;
    repeat split.
Qed.

Lemma span_all (f : ascii -> bool) (s : string) : all f s = true -> Str.span f s = (s, "").
Proof.
  induction s as [|c s IH]; simpl; [reflexivity|].
  intros H. apply andb_true_iff in H. destruct H as [Hc Hs].
  rewrite Hc, (IH Hs). reflexivity.
Qed.

Lemma preParse_word (s : string) : all word_char s = true -> pp.preParse s = s.
Proof.
  destruct s as [|c s]; [reflexivity|]. simpl. intros H.
  apply andb_true_iff in H. destruct H as [Hc _].
  destruct (word_char_facts c Hc) as [-> _]. reflexivity.
Qed.

Lemma expandtabs_word (s : string) (col : nat) :
  all word_char s = true -> Str.expandtabs_from col s = s.
Proof.
  revert col. induction s as [|c s IH]; intros col; simpl; [reflexivity|].
  intros H. apply andb_true_iff in H. destruct H as [Hc Hs].
  destruct (word_char_facts c Hc) as [_ [_ [_ [-> [-> ->]]]]]. simpl.
  rewrite (IH _ Hs). reflexivity.
Qed.

Lemma name_word (s : string) :
  s <> "" -> all word_char s = true -> reads_word s pp.name.
Proof.
  intros Hne H. split; [|reflexivity].
  intros i Hi. unfold pp.name, pp.Word. rewrite Hi, span_all.
  - destruct s; [congruence | reflexivity].
  - clear Hne Hi. induction s as [|c s IH]; [reflexivity|]. simpl in *.
    apply andb_true_iff in H. destruct H as [Hc Hs].
    destruct (word_char_facts c Hc) as [_ [-> _]]. simpl. apply IH, Hs.
Qed.

Lemma caseless_prefix_all (f : ascii -> bool) (kw s rest : string) :
  pp.caseless_prefix kw s = Some rest -> all f s = true -> all f rest = true.
Proof.
  revert s. induction kw as [|k kw IH]; intros s H Hs; simpl in H.
  - injection H as <-. exact Hs.
  - destruct s as [|c s]; [discriminate|].
    destruct (Ascii.eqb _ _); [|discriminate].
    simpl in Hs. apply andb_true_iff in Hs. apply (IH s H), Hs.
Qed.

(** In front of a word, a keyword is matched only when it is the whole
    word. *)
Lemma CaselessKeyword_word (kw s i : string) :
  all word_char s = true -> pp.preParse i = s ->
  pp.CaselessKeyword kw i = pp.ParseException
  \/ pp.CaselessKeyword kw i = pp.Ok [pp.PStr kw] "".
Proof.
  intros H Hi. unfold pp.CaselessKeyword. rewrite Hi.
  destruct (pp.caseless_prefix kw s) as [rest|] eqn:E; [|left; reflexivity].
  pose proof (caseless_prefix_all _ _ _ _ E H) as Hrest.
  destruct rest as [|c rest]; [right; reflexivity|].
  simpl in Hrest. apply andb_true_iff in Hrest. destruct Hrest as [Hc _].
  destruct (word_char_facts c Hc) as [_ [_ [-> _]]]. left. reflexivity.
Qed.

Lemma reads_word_left (s : string) (lastExpr opExpr : pp.ParserElement) (fuel arity : nat) :
  opExpr "" = pp.ParseException ->
  arity = 1 \/ arity = 2 ->
  reads_word s lastExpr -> reads_word s (pp.thisExpr fuel lastExpr (opExpr, arity, pp.LEFT)).
Proof.
  intros Hop Har [Hs He].
  destruct Har as [-> | ->]; (split; [intros i Hi|]);
    unfold pp.thisExpr, pp.MatchFirst, pp.And, pp.FollowedBy;
    rewrite ?(Hs i Hi), ?He, ?Hop; reflexivity.
Qed.

Lemma unary_right_end (lastExpr opExpr : pp.ParserElement) (fuel : nat) :
  opExpr "" = pp.ParseException -> lastExpr "" = pp.ParseException ->
  pp.unary_right (S fuel) lastExpr opExpr "" = pp.ParseException.
Proof.
  intros Hop He. cbn [pp.unary_right]. unfold pp.MatchFirst, pp.And, pp.FollowedBy.
  rewrite Hop. exact He.
Qed.

Lemma unary_right_unfold (lastExpr opExpr : pp.ParserElement) (fuel : nat) :
  pp.unary_right (S fuel) lastExpr opExpr
  = pp.MatchFirst
      (pp.And (pp.FollowedBy (pp.And opExpr (pp.unary_right fuel lastExpr opExpr)))
              (pp.Group (pp.And (pp.Optional opExpr) (pp.unary_right fuel lastExpr opExpr))))
      lastExpr.
Proof. reflexivity. Qed.

Lemma reads_word_right (s kw : string) (lastExpr : pp.ParserElement) (fuel : nat) :
  all word_char s = true ->
  pp.CaselessKeyword kw "" = pp.ParseException ->
  reads_word s lastExpr ->
  reads_word s (pp.thisExpr (S (S fuel)) lastExpr (pp.CaselessKeyword kw, 1, pp.RIGHT)).
Proof.
  intros Hw Hop [Hs He]. split.
  - intros i Hi. cbn [pp.thisExpr]. rewrite unary_right_unfold.
    unfold pp.MatchFirst, pp.And at 1, pp.FollowedBy, pp.And at 1.
    destruct (CaselessKeyword_word kw s i Hw Hi) as [-> | ->]; [exact (Hs i Hi)|].
    rewrite (unary_right_end _ _ _ Hop He). exact (Hs i Hi).
  - apply unary_right_end; assumption.
Qed.

Lemma expr_levels (fuel : nat) :
  pp.expr (S fuel) = pp.thisExpr (S fuel) (level3 fuel) (pp.or_, 2, pp.LEFT).
Proof. reflexivity. Qed.

Lemma level0_word (s : string) (fuel : nat) :
  s <> "" -> all word_char s = true -> reads_word s (level0 fuel).
Proof.
  intros Hne Hw. destruct (name_word s Hne Hw) as [Hs He].
  split; [intros i Hi|]; unfold level0, pp.MatchFirst, pp.gene.
  - rewrite (Hs i Hi). reflexivity.
  - reflexivity.
Qed.

Lemma level2_word (s : string) (fuel : nat) :
  s <> "" -> all word_char s = true -> reads_word s (level2 (S fuel)).
Proof.
  intros Hne Hw. apply reads_word_right; [exact Hw | reflexivity |].
  apply reads_word_left; [reflexivity | auto |]. apply level0_word; assumption.
Qed.

Lemma expr_word (s : string) (fuel : nat) :
  s <> "" -> all word_char s = true -> reads_word s (pp.expr (S (S fuel))).
Proof.
  intros Hne Hw. rewrite expr_levels.
  apply reads_word_left; [reflexivity | auto |].
  apply reads_word_left; [reflexivity | auto |].
  apply level2_word; assumption.
Qed.

Lemma parse_word (s : string) :
  s <> "" -> all word_char s = true ->
  pp.parseString (pp.expr (pp.fuel_for s)) s = pp.Ok [pp.PStr s] "".
Proof.
  intros Hne Hw. unfold pp.parseString, pp.fuel_for, Str.expandtabs.
  rewrite (expandtabs_word s 0 Hw).
  destruct s as [|c s]; [congruence|]. cbn [String.length].
  destruct (expr_word (String c s) (String.length s) Hne Hw) as [H _].
  rewrite (H _ (preParse_word _ Hw)). reflexivity.
Qed.

Lemma and_space (rest : string) :
  pp.and_ (" and " ++ rest) = pp.Ok [pp.PStr "and"] (" " ++ rest).
Proof. reflexivity. Qed.

Lemma level1_operator (op rest : string) (fuel : nat) :
  op = "and" \/ op = "or" ->
  level1 fuel (op ++ " and " ++ rest) = pp.Ok [pp.PStr op] (" and " ++ rest).
Proof.
  intros [-> | ->]; reflexivity.
Qed.

Lemma level2_operator (op rest : string) (fuel : nat) :
  op = "and" \/ op = "or" ->
  level2 (S fuel) (op ++ " and " ++ rest) = pp.Ok [pp.PStr op] (" and " ++ rest).
Proof.
  intros Hop. unfold level2. cbn [pp.thisExpr]. rewrite unary_right_unfold.
  unfold pp.MatchFirst, pp.And at 1, pp.FollowedBy, pp.And at 1.
  assert (pp.CaselessKeyword "not" (op ++ " and " ++ rest) = pp.ParseException) as ->
    by (destruct Hop as [-> | ->]; reflexivity).
  apply level1_operator, Hop.
Qed.

Lemma level3_operator (op w : string) (fuel : nat) :
  op = "and" \/ op = "or" -> w <> "" -> all word_char w = true ->
  level3 (S fuel) (op ++ " and " ++ w)
  = pp.Ok [pp.PGroup [pp.PStr op; pp.PStr "and"; pp.PStr w]] "".
Proof.
  intros Hop Hne Hw.
  destruct (level2_word w fuel Hne Hw) as [Hword Hend].
  assert (level2 (S fuel) (" " ++ w) = pp.Ok [pp.PStr w] "") as H2
    by (apply Hword; cbn; apply preParse_word, Hw).
  unfold level3. cbn [pp.thisExpr].
  unfold pp.MatchFirst, pp.FollowedBy, pp.Group, pp.OneOrMore, pp.And.
  repeat first [ rewrite (level2_operator op w fuel Hop) | rewrite and_space | rewrite H2
               | progress cbv beta iota ].
  reflexivity.
Qed.

Lemma parse_operator_first (op w : string) :
  op = "and" \/ op = "or" -> w <> "" -> all word_char w = true ->
  pp.parseString (pp.expr (pp.fuel_for (op ++ " and " ++ w))) (op ++ " and " ++ w)
  = pp.Ok [pp.PGroup [pp.PStr op; pp.PStr "and"; pp.PStr w]] "".
Proof.
  intros Hop Hne Hw.
  assert (Str.expandtabs (op ++ " and " ++ w) = op ++ " and " ++ w) as Htabs.
  { unfold Str.expandtabs. destruct Hop as [-> | ->]; cbn; rewrite expandtabs_word by exact Hw;
      reflexivity. }
  unfold pp.parseString, pp.fuel_for. rewrite Htabs.
  assert (exists f, String.length (op ++ " and " ++ w) = S f) as [f ->]
    by (destruct Hop as [-> | ->]; eexists; reflexivity).
  rewrite expr_levels. cbn [pp.thisExpr].
  unfold pp.MatchFirst, pp.FollowedBy, pp.And.
  rewrite (level3_operator op w f Hop Hne Hw). reflexivity.
Qed.

Section WordQueries.

Variable data : db.Database.
Variable add_edges : list Long -> list string -> Exn + list Long.
Variable float : string -> option Q.
Variable has_add_edges : pd.TargetFrame -> string -> Exn + pd.Mask.
Variable uuid4 : nat -> string.
Variable filter_raises_IndexError : pd.TargetFrame -> bool.

Local Abbreviation run_parse_query :=
  (parse_query data add_edges float has_add_edges uuid4 filter_raises_IndexError).

(** X1. A query made of one word of letters, digits and underscores is
    parsed as one gene name, whatever the word is (and, or and not
    included), and [parse_query] is then the fetch of that word:
    [get_all_tf] for the three keywords of the engine in any letter case,
    [get_tf_data] otherwise; an empty table is refused as an empty query
    and any other one is reordered. *)
Theorem word_query_is_a_fetch (s : string)
    (edges tf_filter_list target_filter_list : option (list string)) :
  s <> "" -> all word_char s = true ->
  pp.parseString (pp.expr (pp.fuel_for s)) s = pp.Ok [pp.PStr s] ""
  /\ run_parse_query s edges tf_filter_list target_filter_list
     = match (if pd.isin (Str.lower s) ["andalltfs"; "oralltfs"; "multitype"]
              then get_all_tf data add_edges (Str.lower s) edges tf_filter_list target_filter_list
              else get_tf_data data add_edges s edges tf_filter_list target_filter_list) with
       | inl e => inl e
       | inr result =>
           if pd.empty result || negb (pd.include result)
           then inl (QueryError "empty query")
           else inr (reorder_data result)
       end.
Proof.
  intros Hne Hw. split; [apply parse_word; assumption|].
  unfold parse_query. rewrite (parse_word s Hne Hw).
  cbn [get_tf]. unfold get_tf_str, lift.
  destruct (pd.isin (Str.lower s) _).
  - destruct (get_all_tf _ _ _ _ _ _); reflexivity.
  - destruct (get_tf_data _ _ _ _ _ _); reflexivity.
Qed.

(** X2. A query whose first gene is written and or or, followed by the
    operator and and a word, is accepted by the grammar as one group of
    three tokens; [get_tf] takes the first token for an operator, pops its
    empty stack, and [parse_query] ends with [IndexError], not with a
    [QueryError]. *)
Theorem operator_word_first_raises_IndexError (op w : string)
    (edges tf_filter_list target_filter_list : option (list string)) :
  op = "and" \/ op = "or" -> w <> "" -> all word_char w = true ->
  pp.parseString (pp.expr (pp.fuel_for (op ++ " and " ++ w))) (op ++ " and " ++ w)
  = pp.Ok [pp.PGroup [pp.PStr op; pp.PStr "and"; pp.PStr w]] ""
  /\ run_parse_query (op ++ " and " ++ w) edges tf_filter_list target_filter_list
     = inl (IndexError "pop from an empty deque").
Proof.
  intros Hop Hne Hw. split; [apply parse_operator_first; assumption|].
  unfold parse_query. rewrite (parse_operator_first op w Hop Hne Hw).
  destruct Hop as [-> | ->]; reflexivity.
Qed.

End WordQueries.

(** *** Queries of two genes and of a gene with a condition *)

Lemma span_stop (f : ascii -> bool) (a : string) (c : ascii) (rest : string) :
  all f a = true -> f c = false -> Str.span f (a ++ String c rest) = (a, String c rest).
Proof.
  intros Ha Hc. induction a as [|x a IH]; simpl.
  - rewrite Hc. reflexivity.
  - simpl in Ha. apply andb_true_iff in Ha. destruct Ha as [Hx Ha].
    rewrite Hx, (IH Ha). reflexivity.
Qed.

Lemma preParse_word_app (a r : string) :
  a <> "" -> all word_char a = true -> pp.preParse (a ++ r) = a ++ r.
Proof.
  intros Hne Hw. destruct a as [|x a]; [congruence|]. simpl in *.
  apply andb_true_iff in Hw. destruct Hw as [Hx _].
  destruct (word_char_facts x Hx) as [-> _]. reflexivity.
Qed.

Lemma word_name_chars (a : string) : all word_char a = true -> all pp.name_chars a = true.
Proof. apply all_impl. intros c Hc. apply (word_char_facts c Hc). Qed.

(** A name in front of a character that no name has. *)
Lemma name_stop (a : string) (c : ascii) (rest i : string) :
  a <> "" -> all word_char a = true -> pp.name_chars c = false ->
  pp.preParse i = a ++ String c rest ->
  pp.name i = pp.Ok [pp.PStr a] (String c rest).
Proof.
  intros Hne Hw Hc Hi. unfold pp.name, pp.Word.
  rewrite Hi, (span_stop _ _ _ _ (word_name_chars a Hw) Hc).
  destruct a; [congruence | reflexivity].
Qed.

Lemma caseless_prefix_stop (kw a : string) (c : ascii) (rest : string) :
  all word_char kw = true -> all word_char a = true ->
  pp.identChars (Str.upper_char c) = false ->
  match pp.caseless_prefix kw (a ++ String c rest) with
  | Some r => (pp.caseless_prefix kw a = Some "" /\ r = String c rest)
              \/ (pp.caseless_prefix kw a <> Some ""
                  /\ exists x r', r = String x r' /\ word_char x = true)
  | None => pp.caseless_prefix kw a <> Some ""
  end.
Proof.
  intros Hkw. revert a. induction kw as [|k kw IH]; intros a Ha Hc.
  - simpl. destruct a as [|x a]; [left; auto|]. right.
    simpl in Ha. apply andb_true_iff in Ha. destruct Ha as [Hx _].
    split; [discriminate|]. exists x, (a ++ String c rest). auto.
  - simpl in Hkw. apply andb_true_iff in Hkw. destruct Hkw as [Hk Hkw].
    destruct a as [|x a].
    + simpl. destruct (Ascii.eqb (Str.upper_char k) (Str.upper_char c)) eqn:E.
      * apply Ascii.eqb_eq in E. destruct (word_char_facts k Hk) as [_ [_ [Hi _]]].
        rewrite E in Hi. congruence.
      * discriminate.
    + simpl in Ha. apply andb_true_iff in Ha. destruct Ha as [Hx Ha]. simpl.
      destruct (Ascii.eqb (Str.upper_char k) (Str.upper_char x)); [|discriminate].
      apply (IH Hkw a Ha Hc).
Qed.

(** A keyword in front of a word that ends at a character no keyword
    has: it is matched exactly when the word is the keyword, letter case
    apart. *)
Lemma CaselessKeyword_stop (kw a : string) (c : ascii) (rest i : string) :
  all word_char kw = true -> all word_char a = true ->
  pp.identChars (Str.upper_char c) = false ->
  pp.preParse i = a ++ String c rest ->
  (pp.caseless_prefix kw a = Some "" /\ pp.CaselessKeyword kw i = pp.Ok [pp.PStr kw] (String c rest))
  \/ (pp.caseless_prefix kw a <> Some "" /\ pp.CaselessKeyword kw i = pp.ParseException).
Proof.
  intros Hkw Ha Hc Hi. unfold pp.CaselessKeyword. rewrite Hi.
  pose proof (caseless_prefix_stop kw a c rest Hkw Ha Hc) as H.
  destruct (pp.caseless_prefix kw (a ++ String c rest)) as [r|].
  - destruct H as [[H ->]|[H [x [r' [-> Hx]]]]].
    + left. rewrite Hc. auto.
    + right. destruct (word_char_facts x Hx) as [_ [_ [-> _]]]. auto.
  - right. auto.
Qed.

Lemma word_char_not_bracket (x : ascii) :
  word_char x = true -> Ascii.eqb "[" x = false /\ Ascii.eqb "(" x = false.
Proof.
  destruct x as [[] [] [] [] [] [] [] []]; vm_compute; intros H; try discriminate H; auto.
Qed.

Lemma Suppress_word (a r i : string) :
  a <> "" -> all word_char a = true -> pp.preParse i = a ++ r ->
  pp.Suppress "[" i = pp.ParseException /\ pp.Suppress "(" i = pp.ParseException.
Proof.
  intros Hne Hw Hi. unfold pp.Suppress. rewrite Hi.
  destruct a as [|x a]; [congruence|]. cbn [all append] in *.
  apply andb_true_iff in Hw. destruct Hw as [Hx _].
  destruct (word_char_not_bracket x Hx) as [-> ->]. auto.
Qed.

(** A word that is an operator keyword, letter case apart. *)
Lemma keyword_is_word (op kw : string) :
  op = "and" \/ op = "or" -> pp.caseless_prefix op kw = Some "" ->
  kw <> "" /\ all word_char kw = true
  /\ (op = "or" -> pp.caseless_prefix "and" kw <> Some "").
Proof.
  assert (forall k x, Str.mem k "andor" = true ->
                      Ascii.eqb (Str.upper_char k) (Str.upper_char x) = true ->
                      word_char x = true) as Hletter.
  { intros k x Hk. destruct k as [[] [] [] [] [] [] [] []]; try discriminate Hk; clear Hk;
      destruct x as [[] [] [] [] [] [] [] []]; vm_compute;
      intros H; try discriminate H; reflexivity. }
  intros [-> | ->] H.
  - destruct kw as [|x1 [|x2 [|x3 [|x4 kw]]]]; cbn [pp.caseless_prefix] in H;
      try discriminate H;
      repeat match type of H with
             | (if ?b then _ else _) = _ => destruct b eqn:?; [|discriminate H]
             end; try discriminate H.
    split; [discriminate|]. split; [|discriminate].
    cbn [all]. rewrite (Hletter "a"%char x1), (Hletter "n"%char x2), (Hletter "d"%char x3)
      by (assumption || reflexivity).
    reflexivity.
  - destruct kw as [|x1 [|x2 [|x3 kw]]]; cbn [pp.caseless_prefix] in H;
      try discriminate H;
      repeat match type of H with
             | (if ?b then _ else _) = _ => destruct b eqn:?; [|discriminate H]
             end; try discriminate H.
    split; [discriminate|]. split.
    + cbn [all]. rewrite (Hletter "o"%char x1), (Hletter "r"%char x2) by (assumption || reflexivity).
      reflexivity.
    + intros _ Hc. cbn [pp.caseless_prefix] in Hc.
      repeat match type of Hc with
             | (if ?b then _ else _) = _ => destruct b
             end; discriminate Hc.
Qed.

(** The levels of the grammar on a word followed by a space and a word:
    the first word is read as a gene name, unless it is the keyword not. *)
Lemma level1_first_word (a w rest : string) (fuel : nat) :
  a <> "" -> all word_char a = true -> w <> "" -> all word_char w = true ->
  level1 fuel (a ++ String " " (w ++ rest)) = pp.Ok [pp.PStr a] (String " " (w ++ rest)).
Proof.
  intros Ha Hwa Hw Hww.
  assert (level0 fuel (a ++ String " " (w ++ rest)) = pp.Ok [pp.PStr a] (String " " (w ++ rest))) as H0.
  { unfold level0, pp.MatchFirst, pp.gene.
    rewrite (name_stop a " " (w ++ rest) _ Ha Hwa eq_refl (preParse_word_app a _ Ha Hwa)).
    reflexivity. }
  assert (pp.modifier (S fuel) (String " " (w ++ rest)) = pp.ParseException) as Hm.
  { unfold pp.modifier, pp.And.
    destruct (Suppress_word w rest (String " " (w ++ rest)) Hw Hww) as [-> _]; [|reflexivity].
    change (pp.preParse (String " " (w ++ rest))) with (pp.preParse (w ++ rest)).
    apply preParse_word_app; assumption. }
  unfold level1. cbn [pp.thisExpr]. unfold pp.MatchFirst, pp.And at 1, pp.FollowedBy, pp.And at 1.
  rewrite H0, Hm. reflexivity.
Qed.

Lemma level2_first_word (a w rest : string) (fuel : nat) :
  a <> "" -> all word_char a = true -> w <> "" -> all word_char w = true ->
  pp.caseless_prefix "not" a <> Some "" ->
  level2 (S fuel) (a ++ String " " (w ++ rest)) = pp.Ok [pp.PStr a] (String " " (w ++ rest)).
Proof.
  intros Ha Hwa Hw Hww Hnot.
  unfold level2. cbn [pp.thisExpr]. rewrite unary_right_unfold.
  unfold pp.MatchFirst, pp.And at 1, pp.FollowedBy, pp.And at 1.
  destruct (CaselessKeyword_stop "not" a " " (w ++ rest) (a ++ String " " (w ++ rest))
              eq_refl Hwa eq_refl (preParse_word_app a _ Ha Hwa)) as [[H _]|[_ ->]];
    [contradiction|].
  apply level1_first_word; assumption.
Qed.

(** An operator keyword between two words. *)
Lemma keyword_between (op kw b : string) :
  op = "and" \/ op = "or" -> kw <> "" -> all word_char kw = true ->
  (pp.caseless_prefix op kw = Some "" ->
   pp.CaselessKeyword op (String " " (kw ++ String " " b)) = pp.Ok [pp.PStr op] (String " " b))
  /\ (pp.caseless_prefix op kw <> Some "" ->
      pp.CaselessKeyword op (String " " (kw ++ String " " b)) = pp.ParseException).
Proof.
  intros Hop Hne Hw.
  assert (all word_char op = true) as Hopw by (destruct Hop as [-> | ->]; reflexivity).
  assert (pp.preParse (String " " (kw ++ String " " b)) = kw ++ String " " b) as Hi
    by (change (pp.preParse (String " " (kw ++ String " " b)))
          with (pp.preParse (kw ++ String " " b)); apply preParse_word_app; assumption).
  destruct (CaselessKeyword_stop op kw " " b _ Hopw Hw eq_refl Hi) as [[H ->]|[H ->]];
    split; intros; congruence.
Qed.

Lemma level3_and (a kw b : string) (fuel : nat) :
  a <> "" -> all word_char a = true -> pp.caseless_prefix "not" a <> Some "" ->
  pp.caseless_prefix "and" kw = Some "" ->
  b <> "" -> all word_char b = true ->
  level3 (S fuel) (a ++ String " " (kw ++ String " " b))
  = pp.Ok [pp.PGroup [pp.PStr a; pp.PStr "and"; pp.PStr b]] "".
Proof.
  intros Ha Hwa Hnot Hkw Hb Hwb.
  destruct (keyword_is_word "and" kw (or_introl eq_refl) Hkw) as [Hk [Hwk _]].
  destruct (keyword_between "and" kw b (or_introl eq_refl) Hk Hwk) as [Hand _].
  specialize (Hand Hkw). fold pp.and_ in Hand.
  destruct (level2_word b fuel Hb Hwb) as [Hword _].
  assert (level2 (S fuel) (String " " b) = pp.Ok [pp.PStr b] "") as H2
    by (apply Hword; change (pp.preParse (String " " b)) with (pp.preParse b);
        apply preParse_word, Hwb).
  unfold level3. cbn [pp.thisExpr].
  unfold pp.MatchFirst, pp.FollowedBy, pp.Group, pp.OneOrMore, pp.And.
  repeat first [ rewrite (level2_first_word a kw (String " " b) fuel Ha Hwa Hk Hwk Hnot)
               | rewrite Hand | rewrite H2 | progress cbv beta iota ].
  reflexivity.
Qed.

Lemma level3_or (a kw b : string) (fuel : nat) :
  a <> "" -> all word_char a = true -> pp.caseless_prefix "not" a <> Some "" ->
  pp.caseless_prefix "or" kw = Some "" ->
  level3 (S fuel) (a ++ String " " (kw ++ String " " b))
  = pp.Ok [pp.PStr a] (String " " (kw ++ String " " b)).
Proof.
  intros Ha Hwa Hnot Hkw.
  destruct (keyword_is_word "or" kw (or_intror eq_refl) Hkw) as [Hk [Hwk Hnand]].
  destruct (keyword_between "and" kw b (or_introl eq_refl) Hk Hwk) as [_ Hand].
  specialize (Hand (Hnand eq_refl)). fold pp.and_ in Hand.
  unfold level3. cbn [pp.thisExpr].
  unfold pp.MatchFirst, pp.FollowedBy, pp.Group, pp.OneOrMore, pp.And.
  repeat first [ rewrite (level2_first_word a kw (String " " b) fuel Ha Hwa Hk Hwk Hnot)
               | rewrite Hand | progress cbv beta iota ].
  reflexivity.
Qed.

Lemma expr_two_genes (a kw b op : string) (fuel : nat) :
  op = "and" \/ op = "or" -> pp.caseless_prefix op kw = Some "" ->
  a <> "" -> all word_char a = true -> pp.caseless_prefix "not" a <> Some "" ->
  b <> "" -> all word_char b = true ->
  pp.expr (S (S fuel)) (a ++ String " " (kw ++ String " " b))
  = pp.Ok [pp.PGroup [pp.PStr a; pp.PStr op; pp.PStr b]] "".
Proof.
  intros Hop Hkw Ha Hwa Hnot Hb Hwb. rewrite expr_levels. cbn [pp.thisExpr].
  destruct Hop as [-> | ->].
  - unfold pp.MatchFirst, pp.FollowedBy, pp.And.
    rewrite (level3_and a kw b fuel Ha Hwa Hnot Hkw Hb Hwb). reflexivity.
  - destruct (keyword_is_word "or" kw (or_intror eq_refl) Hkw) as [Hk [Hwk _]].
    destruct (keyword_between "or" kw b (or_intror eq_refl) Hk Hwk) as [Hor _].
    specialize (Hor Hkw). fold pp.or_ in Hor.
    assert (reads_word b (level3 (S fuel))) as [Hword _]
      by (apply reads_word_left; [reflexivity | auto |]; apply level2_word; assumption).
    assert (level3 (S fuel) (String " " b) = pp.Ok [pp.PStr b] "") as H3
      by (apply Hword; change (pp.preParse (String " " b)) with (pp.preParse b);
          apply preParse_word, Hwb).
    unfold pp.MatchFirst, pp.FollowedBy, pp.Group, pp.OneOrMore, pp.And.
    repeat first [ rewrite (level3_or a kw b fuel Ha Hwa Hnot Hkw)
                 | rewrite Hor | rewrite H3 | progress cbv beta iota ].
    reflexivity.
Qed.

Lemma expandtabs_word_app (a r : string) (col : nat) :
  all word_char a = true ->
  Str.expandtabs_from col (a ++ String " " r)
  = a ++ String " " (Str.expandtabs_from (S (col + String.length a)) r).
Proof.
  revert col. induction a as [|c a IH]; intros col H.
  - cbn. rewrite Nat.add_0_r. reflexivity.
  - cbn [all] in H. apply andb_true_iff in H. destruct H as [Hc Ha].
    cbn [append Str.expandtabs_from String.length].
    destruct (word_char_facts c Hc) as [_ [_ [_ [-> [-> ->]]]]]. cbn [orb].
    rewrite (IH _ Ha). rewrite Nat.add_succ_r. reflexivity.
Qed.

Lemma parse_two_genes (a kw b op : string) :
  op = "and" \/ op = "or" -> pp.caseless_prefix op kw = Some "" ->
  a <> "" -> all word_char a = true -> pp.caseless_prefix "not" a <> Some "" ->
  b <> "" -> all word_char b = true ->
  pp.parseString (pp.expr (pp.fuel_for (a ++ " " ++ kw ++ " " ++ b))) (a ++ " " ++ kw ++ " " ++ b)
  = pp.Ok [pp.PGroup [pp.PStr a; pp.PStr op; pp.PStr b]] "".
Proof.
  intros Hop Hkw Ha Hwa Hnot Hb Hwb.
  change (a ++ " " ++ kw ++ " " ++ b) with (a ++ String " " (kw ++ String " " b)).
  destruct (keyword_is_word op kw Hop Hkw) as [Hk [Hwk _]].
  assert (Str.expandtabs (a ++ String " " (kw ++ String " " b))
          = a ++ String " " (kw ++ String " " b)) as Htabs.
  { unfold Str.expandtabs. rewrite (expandtabs_word_app a _ _ Hwa), (expandtabs_word_app kw _ _ Hwk),
      (expandtabs_word b _ Hwb). reflexivity. }
  unfold pp.parseString, pp.fuel_for. rewrite Htabs.
  assert (exists f, String.length (a ++ String " " (kw ++ String " " b)) = S f) as [f ->].
  { destruct a as [|x a]; [congruence|]. eexists. reflexivity. }
  rewrite (expr_two_genes a kw b op f Hop Hkw Ha Hwa Hnot Hb Hwb). reflexivity.
Qed.

Section OperatorCase.

Variable data : db.Database.
Variable add_edges : list Long -> list string -> Exn + list Long.
Variable float : string -> option Q.
Variable has_add_edges : pd.TargetFrame -> string -> Exn + pd.Mask.
Variable uuid4 : nat -> string.
Variable filter_raises_IndexError : pd.TargetFrame -> bool.

Local Abbreviation run_parse_query :=
  (parse_query data add_edges float has_add_edges uuid4 filter_raises_IndexError).

(** X25. The operators and and or may be written in any letter case: two
    gene names (words of letters, digits and underscores, the first one not
    the word not) with the operator between them are parsed as one group
    of the first name, the operator in lower case and the second name, and
    [parse_query] gives what it gives for the operator in lower case. *)
Theorem operator_letter_case (a kw b op : string)
    (edges tf_filter_list target_filter_list : option (list string)) :
  op = "and" \/ op = "or" -> pp.caseless_prefix op kw = Some "" ->
  a <> "" -> all word_char a = true -> pp.caseless_prefix "not" a <> Some "" ->
  b <> "" -> all word_char b = true ->
  pp.parseString (pp.expr (pp.fuel_for (a ++ " " ++ kw ++ " " ++ b))) (a ++ " " ++ kw ++ " " ++ b)
  = pp.Ok [pp.PGroup [pp.PStr a; pp.PStr op; pp.PStr b]] ""
  /\ run_parse_query (a ++ " " ++ kw ++ " " ++ b) edges tf_filter_list target_filter_list
     = run_parse_query (a ++ " " ++ op ++ " " ++ b) edges tf_filter_list target_filter_list.
Proof.
  intros Hop Hkw Ha Hwa Hnot Hb Hwb.
  split; [apply parse_two_genes; assumption|].
  assert (pp.caseless_prefix op op = Some "") as Hself by (destruct Hop as [-> | ->]; reflexivity).
  unfold parse_query.
  rewrite (parse_two_genes a kw b op Hop Hkw Ha Hwa Hnot Hb Hwb),
    (parse_two_genes a op b op Hop Hself Ha Hwa Hnot Hb Hwb).
  reflexivity.
Qed.

End OperatorCase.

(** *** A gene with one condition *)

Lemma expandtabs_no_tab (s : string) (col : nat) :
  all (fun c => negb (Ascii.eqb c Str.tab)) s = true -> Str.expandtabs_from col s = s.
Proof.
  revert col. induction s as [|c s IH]; intros col H; [reflexivity|].
  cbn [all] in H. apply andb_true_iff in H. destruct H as [Hc Hs].
  apply negb_true_iff in Hc. cbn [Str.expandtabs_from]. rewrite Hc.
  destruct (Ascii.eqb c Str.lf || Ascii.eqb c Str.cr); rewrite (IH _ Hs); reflexivity.
Qed.

Lemma word_no_tab (s : string) :
  all word_char s = true -> all (fun c => negb (Ascii.eqb c Str.tab)) s = true.
Proof.
  apply all_impl. intros c Hc. destruct (word_char_facts c Hc) as [_ [_ [_ [-> _]]]]. reflexivity.
Qed.

Lemma name_chars_facts (x : ascii) :
  pp.name_chars x = true ->
  pp.whitespace x = false /\ Ascii.eqb "=" x = false /\ Ascii.eqb x Str.tab = false.
Proof.
  destruct x as [[] [] [] [] [] [] [] []]; vm_compute; intros H; try discriminate H; auto.
Qed.

Lemma name_no_tab (s : string) :
  all pp.name_chars s = true -> all (fun c => negb (Ascii.eqb c Str.tab)) s = true.
Proof.
  apply all_impl. intros c Hc. destruct (name_chars_facts c Hc) as [_ [_ ->]]. reflexivity.
Qed.

(** A value in front of the closing bracket. *)
Lemma value_stop (v : string) :
  v <> "" -> all pp.name_chars v = true -> pp.name (v ++ "]") = pp.Ok [pp.PStr v] "]".
Proof.
  intros Hv Hwv. unfold pp.name, pp.Word.
  assert (pp.preParse (v ++ "]") = v ++ "]") as ->.
  { destruct v as [|x v]; [congruence|]. cbn [all] in Hwv.
    apply andb_true_iff in Hwv. destruct Hwv as [Hx _].
    cbn [append pp.preParse]. destruct (name_chars_facts x Hx) as [-> _]. reflexivity. }
  rewrite (span_stop pp.name_chars v "]" "" Hwv eq_refl). destruct v; [congruence | reflexivity].
Qed.



Lemma name_before_comparison (k oper r : string) :
  k <> "" -> all word_char k = true -> In oper comparisons ->
  pp.name (k ++ oper ++ r) = pp.Ok [pp.PStr k] (oper ++ r).
Proof.
  intros Hk Hwk Hop.
  repeat (destruct Hop as [<- | Hop]; [cbn [append]; apply name_stop;
            [assumption | assumption | reflexivity | apply preParse_word_app; assumption]|]).
  destruct Hop.
Qed.

Lemma oneOf_comparison (oper v r : string) :
  v <> "" -> all pp.name_chars v = true -> In oper comparisons ->
  pp.oneOf comparisons (oper ++ v ++ r) = pp.Ok [pp.PStr oper] (v ++ r).
Proof.
  intros Hv Hwv Hop. destruct v as [|x v]; [congruence|].
  cbn [all] in Hwv. apply andb_true_iff in Hwv. destruct Hwv as [Hx _].
  clear Hv. unfold comparisons in Hop. cbn [In] in Hop.
  destruct (name_chars_facts x Hx) as [W [E _]].
  unfold pp.oneOf.
  destruct Hop as [<- | [<- | [<- | [<- | [<- | [<- | []]]]]]];
    cbn [append pp.preParse]; change (pp.whitespace "<") with false;
    change (pp.whitespace ">") with false; change (pp.whitespace "=") with false;
    change (pp.whitespace "!") with false; cbv iota;
    unfold comparisons; cbn [pp.oneOf_ordered pp.prefix_rest];
    repeat first [ rewrite Ascii.eqb_refl | rewrite E
                 | match goal with
                   | |- context [Ascii.eqb ?a ?b] =>
                       is_var x; lazymatch b with x => fail | _ => idtac end;
                       change (Ascii.eqb a b) with false
                   end
                 | progress cbv iota ];
    reflexivity.
Qed.

Lemma modname_condition (k oper v : string) :
  k <> "" -> all word_char k = true -> In oper comparisons ->
  v <> "" -> all pp.name_chars v = true ->
  pp.modname (k ++ oper ++ v ++ "]") = pp.Ok [pp.PMod k oper v] "]".
Proof.
  intros Hk Hwk Hop Hv Hwv. unfold pp.modname, pp.And, pp.MatchFirst.
  fold comparisons.
  rewrite (name_before_comparison k oper _ Hk Hwk Hop), (oneOf_comparison oper v _ Hv Hwv Hop).
  rewrite (value_stop v Hv Hwv).
  reflexivity.
Qed.

(** A level of the grammar passes on what the level below reads when its
    operator does not follow. *)
Lemma thisExpr_left_pass (lastExpr opExpr : pp.ParserElement) (fuel arity : nat)
    (i : string) (t : list pp.ParseResults) (r : string) :
  arity = 1 \/ arity = 2 ->
  lastExpr i = pp.Ok t r -> opExpr r = pp.ParseException ->
  pp.thisExpr fuel lastExpr (opExpr, arity, pp.LEFT) i = pp.Ok t r.
Proof.
  intros [-> | ->] Hl Hop; unfold pp.thisExpr, pp.MatchFirst, pp.And, pp.FollowedBy;
    rewrite Hl, Hop, ?Hl; reflexivity.
Qed.

Lemma thisExpr_not_pass (lastExpr : pp.ParserElement) (fuel : nat)
    (a : string) (c : ascii) (rest : string) (t : list pp.ParseResults) (r : string) :
  a <> "" -> all word_char a = true -> pp.identChars (Str.upper_char c) = false ->
  lastExpr (a ++ String c rest) = pp.Ok t r ->
  pp.unary_right fuel lastExpr (pp.CaselessKeyword "not") (String c rest) = pp.ParseException ->
  pp.thisExpr (S fuel) lastExpr (pp.CaselessKeyword "not", 1, pp.RIGHT) (a ++ String c rest)
  = pp.Ok t r.
Proof.
  intros Ha Hwa Hc Hl Hu. cbn [pp.thisExpr]. rewrite unary_right_unfold.
  unfold pp.MatchFirst, pp.And at 1, pp.FollowedBy, pp.And at 1.
  destruct (CaselessKeyword_stop "not" a c rest (a ++ String c rest)
              eq_refl Hwa Hc (preParse_word_app a _ Ha Hwa)) as [[_ ->]|[_ ->]].
  - rewrite Hu. exact Hl.
  - exact Hl.
Qed.

Lemma conditions_one (k oper v : string) (fuel : nat) :
  k <> "" -> all word_char k = true -> In oper comparisons ->
  v <> "" -> all pp.name_chars v = true ->
  pp.infixNotation (S (S fuel)) pp.modname pp.opers (k ++ oper ++ v ++ "]")
  = pp.Ok [pp.PMod k oper v] "]".
Proof.
  intros Hk Hwk Hop Hv Hwv.
  cbn [pp.infixNotation pp.opers fold_left].
  apply thisExpr_left_pass; [auto | | reflexivity].
  apply thisExpr_left_pass; [auto | | reflexivity].
  pose proof (modname_condition k oper v Hk Hwk Hop Hv Hwv) as Hm.
  unfold comparisons in Hop. cbn [In] in Hop.
  destruct Hop as [<- | [<- | [<- | [<- | [<- | [<- | []]]]]]]; cbn [append] in Hm |- *;
    (apply thisExpr_not_pass;
     [assumption | assumption | reflexivity
     | unfold pp.MatchFirst; rewrite Hm; reflexivity
     | reflexivity]).
Qed.

Lemma modifier_one (k oper v : string) (fuel : nat) :
  k <> "" -> all word_char k = true -> In oper comparisons ->
  v <> "" -> all pp.name_chars v = true ->
  pp.modifier (S (S fuel)) (String "[" (k ++ oper ++ v ++ "]"))
  = pp.Ok [pp.PModifier [pp.PMod k oper v]] "".
Proof.
  intros Hk Hwk Hop Hv Hwv. unfold pp.modifier, pp.And.
  change (pp.Suppress "[" (String "[" (k ++ oper ++ v ++ "]")))
    with (pp.Ok [] (k ++ oper ++ v ++ "]")).
  cbv beta iota.
  rewrite (conditions_one k oper v fuel Hk Hwk Hop Hv Hwv). reflexivity.
Qed.

Lemma expr_gene_condition (g k oper v : string) (fuel : nat) :
  g <> "" -> all word_char g = true ->
  k <> "" -> all word_char k = true -> In oper comparisons ->
  v <> "" -> all pp.name_chars v = true ->
  pp.expr (S (S fuel)) (g ++ String "[" (k ++ oper ++ v ++ "]"))
  = pp.Ok [pp.PGroup [pp.PStr g; pp.PModifier [pp.PMod k oper v]]] "".
Proof.
  intros Hg Hwg Hk Hwk Hop Hv Hwv. rewrite expr_levels.
  apply thisExpr_left_pass; [auto | | reflexivity].
  apply thisExpr_left_pass; [auto | | reflexivity].
  assert (level0 (S fuel) (g ++ String "[" (k ++ oper ++ v ++ "]"))
          = pp.Ok [pp.PStr g] (String "[" (k ++ oper ++ v ++ "]"))) as H0.
  { unfold level0, pp.MatchFirst, pp.gene.
    rewrite (name_stop g "[" _ _ Hg Hwg eq_refl (preParse_word_app g _ Hg Hwg)).
    reflexivity. }
  apply thisExpr_not_pass; [assumption | assumption | reflexivity | | reflexivity].
  unfold level1. cbn [pp.thisExpr].
  unfold pp.MatchFirst, pp.FollowedBy, pp.Group, pp.OneOrMore, pp.And.
  repeat first [ rewrite H0 | rewrite (modifier_one k oper v fuel Hk Hwk Hop Hv Hwv)
               | progress cbv beta iota ].
  reflexivity.
Qed.

(** X26. A gene name followed, without spaces, by one condition in
    brackets, a key, one of the six comparison symbols and a value, is
    parsed as one group of the name and a modifier that holds the
    condition with its key, its symbol and its value as written. *)
Theorem gene_condition_parse (g k oper v : string) :
  g <> "" -> all word_char g = true ->
  k <> "" -> all word_char k = true -> In oper comparisons ->
  v <> "" -> all pp.name_chars v = true ->
  pp.parseString (pp.expr (pp.fuel_for (g ++ "[" ++ k ++ oper ++ v ++ "]")))
    (g ++ "[" ++ k ++ oper ++ v ++ "]")
  = pp.Ok [pp.PGroup [pp.PStr g; pp.PModifier [pp.PMod k oper v]]] "".
Proof.
  intros Hg Hwg Hk Hwk Hop Hv Hwv.
  change (g ++ "[" ++ k ++ oper ++ v ++ "]") with (g ++ String "[" (k ++ oper ++ v ++ "]")).
  assert (Str.expandtabs (g ++ String "[" (k ++ oper ++ v ++ "]"))
          = g ++ String "[" (k ++ oper ++ v ++ "]")) as Htabs.
  { apply expandtabs_no_tab.
    change (String "[" (k ++ oper ++ v ++ "]")) with ("[" ++ k ++ oper ++ v ++ "]").
    rewrite !all_app, (word_no_tab g Hwg), (word_no_tab k Hwk), (name_no_tab v Hwv).
    unfold comparisons in Hop. cbn [In] in Hop.
    destruct Hop as [<- | [<- | [<- | [<- | [<- | [<- | []]]]]]]; reflexivity. }
  unfold pp.parseString, pp.fuel_for. rewrite Htabs.
  assert (exists f, String.length (g ++ String "[" (k ++ oper ++ v ++ "]")) = S f) as [f ->].
  { destruct g as [|x g]; [congruence|]. eexists. reflexivity. }
  rewrite (expr_gene_condition g k oper v f Hg Hwg Hk Hwk Hop Hv Hwv). reflexivity.
Qed.

(** *** The table of one transcription factor *)

Lemma keys_from_refl (rows : list Long) : keys_from rows rows.
Proof. intros x Hx. exists x. auto. Qed.

Lemma keys_from_trans (r1 r2 r3 : list Long) :
  keys_from r1 r2 -> keys_from r2 r3 -> keys_from r1 r3.
Proof.
  intros H12 H23 x Hx. destruct (H12 x Hx) as [y [Hy [E1 [E2 E3]]]].
  destruct (H23 y Hy) as [z [Hz [F1 [F2 F3]]]]. exists z. repeat split; congruence.
Qed.

Lemma keys_from_map (f : Long -> Long) (rows : list Long) :
  (forall x, TARGET (f x) = TARGET x /\ ANALYSIS (f x) = ANALYSIS x /\ TF (f x) = TF x) ->
  keys_from (List.map f rows) rows.
Proof.
  intros H x Hx. apply in_map_iff in Hx. destruct Hx as [y [<- Hy]]. exists y.
  destruct (H y) as [E1 [E2 E3]]. auto.
Qed.

Lemma keys_from_merge_reg (reg : list db.RegulationRow) (rows : list Long) :
  keys_from (merge_reg reg rows) rows.
Proof.
  intros x Hx. unfold merge_reg in Hx. apply in_flat_map in Hx. destruct Hx as [y [Hy Hx]].
  exists y. split; [exact Hy|].
  destruct (filter _ reg) as [|g found]; [destruct Hx as [<-|[]]; auto|].
  apply in_map_iff in Hx. destruct Hx as [g' [<- _]]. auto.
Qed.

Lemma keys_from_try_add_edges (add_edges : list Long -> list string -> Exn + list Long)
    (rows rows' : list Long) (edges : option (list string)) (added : bool) :
  joins_only add_edges ->
  try_add_edges add_edges rows edges = inr (rows', added) -> keys_from rows' rows.
Proof.
  intros Hj H. unfold try_add_edges in H.
  destruct edges as [[|e es]|]; try (injection H as <- _; apply keys_from_refl).
  destruct (add_edges rows (e :: es)) as [[]|r] eqn:E; try discriminate;
    try (injection H as <- _; apply keys_from_refl).
  injection H as <- _. exact (Hj _ _ _ E).
Qed.

(** What [reshape] returns: the targets of the rows, sorted, each once;
    a column for a (transcription factor, analysis) of the rows and a
    value column. *)
Lemma reshape_spec (vals : list string) (rows : list Long) (t : pd.TargetFrame) :
  reshape vals rows = inr t ->
  pd.index t = pd.sort String.leb (pd.dedup String.eqb (List.map TARGET rows))
  /\ pd.include t = true
  /\ pd.filter_string t = ""
  /\ forall lb, In lb (pd.labels t) ->
       In (pd.attr_of lb) vals
       /\ exists x, In x rows /\ pd.tf_of lb = TF x /\ pd.analysis_of lb = Some (ANALYSIS x).
Proof.
  unfold reshape. destruct (has_duplicates rows); [discriminate|].
  intros H. injection H as <-.
  split; [reflexivity|]. split; [reflexivity|]. split; [reflexivity|].
  intros lb Hlb. unfold pd.labels, pd.dropna_columns, pd.derive, pd.new_frame in Hlb.
  cbn [pd.columns pd.index] in Hlb.
  apply in_map_iff in Hlb. destruct Hlb as [c [<- Hc]].
  apply filter_In in Hc. destruct Hc as [Hc _].
  apply in_flat_map in Hc. destruct Hc as [k [Hk Hc]].
  apply in_map_iff in Hc. destruct Hc as [v [<- Hv]]. cbn.
  split; [exact Hv|].
  assert (forall a b, pd.key_eqb a b = true <-> a = b) as Heq
    by (intros a b; split; [apply key_eqb_eq | intros ->; apply key_eqb_refl]).
  apply In_sort in Hk. apply (proj1 (In_dedup pd.key_eqb Heq _ _)) in Hk.
  apply in_map_iff in Hk. destruct Hk as [x [<- Hx]]. exists x. auto.
Qed.

Section Fetch.

Variable data : db.Database.
Variable add_edges : list Long -> list string -> Exn + list Long.

Lemma get_tf_data_cases (query : string) (edges tf_filter_list target_filter_list : option (list string))
    (t : pd.TargetFrame) :
  joins_only add_edges ->
  get_tf_data data add_edges query edges tf_filter_list target_filter_list = inr t ->
  t = placeholder query
  \/ exists vals rows t0,
       reshape vals rows = inr t0
       /\ t = pd.set_filter_string (pd.filter_string t0 ++ query) t0
       /\ incl vals ["EDGE"; "Pvalue"; "Log2FC"; "ADD_EDGES"]
       /\ keys_from rows (interactions_of data query target_filter_list)
       /\ match tf_filter_list with
          | Some l => existsb (re_full_i query) l = true
          | None => True
          end.
Proof.
  intros Hj H. unfold get_tf_data in H.
  destruct (match tf_filter_list with
            | Some l => existsb (re_full_i query) l
            | None => true
            end) eqn:Eallowed.
  2:{ injection H as <-. left. reflexivity. }
  fold (interactions_of data query target_filter_list) in H.
  assert (match tf_filter_list with
          | Some l => existsb (re_full_i query) l = true
          | None => True
          end) as Hallowed by (destruct tf_filter_list; auto).
  destruct (interactions_of data query target_filter_list) as [|x0 base0] eqn:Ebase.
  { injection H as <-. left. reflexivity. }
  set (base := x0 :: base0) in *.
  set (reg := filter _ (db.Regulation data)) in H.
  assert (keys_from (List.map (set_EDGE (pd.Txt "+")) base) base) as H1
    by (apply keys_from_map; intros; auto).
  right.
  destruct reg as [|g reg'].
  - destruct (try_add_edges add_edges _ edges) as [e|[df added]] eqn:Eadd; [discriminate|].
    destruct (reshape _ df) as [e|t0] eqn:Er; [discriminate|].
    injection H as <-. eexists. exists df, t0. split; [exact Er|]. split; [reflexivity|].
    split; [|split; [|exact Hallowed]].
    + destruct added; intros v Hv; simpl in *; intuition.
    + eapply keys_from_trans; [exact (keys_from_try_add_edges _ _ _ _ _ Hj Eadd) | exact H1].
  - destruct (try_add_edges add_edges _ edges) as [e|[df added]] eqn:Eadd; [discriminate|].
    destruct (reshape _ df) as [e|t0] eqn:Er; [discriminate|].
    injection H as <-. eexists. exists df, t0. split; [exact Er|]. split; [reflexivity|].
    split; [|split; [|exact Hallowed]].
    + destruct added; intros v Hv; simpl in *; intuition.
    + eapply keys_from_trans; [exact (keys_from_try_add_edges _ _ _ _ _ Hj Eadd)|].
      eapply keys_from_trans; [|exact H1].
      eapply keys_from_trans; [|apply keys_from_merge_reg].
      apply keys_from_map. intros x. destruct (zin _ _); auto.
Qed.

Lemma interactions_of_spec (query : string) (target_filter_list : option (list string))
    (x : Long) :
  In x (interactions_of data query target_filter_list) ->
  TF x = query
  /\ (exists i an, In i (db.Interaction data) /\ In an (db.Analysis data)
                   /\ Str.ieq (db.tf__gene_id an) query = true
                   /\ db.analysis_id i = db.id an
                   /\ TARGET x = db.target__gene_id i /\ ANALYSIS x = db.analysis_id i)
  /\ match target_filter_list with
     | Some l => upper_isin (TARGET x) l = true
     | None => True
     end.
Proof.
  unfold interactions_of. intros H.
  assert (In x (List.map (fun i => mkLong (db.target__gene_id i) (db.analysis_id i) query
                                          pd.NaN pd.NaN pd.NaN pd.NaN)
                  (filter (fun i => zin (db.analysis_id i)
                                      (List.map db.id (filter (fun a => Str.ieq (db.tf__gene_id a) query)
                                                              (db.Analysis data))))
                          (db.Interaction data)))
          /\ match target_filter_list with
             | Some l => upper_isin (TARGET x) l = true
             | None => True
             end) as [Hx Hf].
  { destruct target_filter_list; [apply filter_In in H|]; tauto. }
  split; [|split; [|exact Hf]].
  - apply in_map_iff in Hx. destruct Hx as [i [<- _]]. reflexivity.
  - apply in_map_iff in Hx. destruct Hx as [i [<- Hi]].
    apply filter_In in Hi. destruct Hi as [Hi Hz].
    unfold zin in Hz. apply existsb_exists in Hz. destruct Hz as [z [Hz Ez]].
    apply Z.eqb_eq in Ez. apply in_map_iff in Hz. destruct Hz as [an [<- Han]].
    apply filter_In in Han. destruct Han as [Han Hieq].
    exists i, an. cbn. auto 10.
Qed.

(** X3. The rows of the table [get_tf_data] returns, when [add_edges] only
    joins: they are sorted and distinct; each is the target of an
    interaction of an analysis of the queried transcription factor (letter
    case apart); with a target filter list, each is on the list (letter
    case apart); with a filter list of transcription factors that does
    not have the queried one, there is no row. *)
Theorem get_tf_data_rows (query : string)
    (edges tf_filter_list target_filter_list : option (list string)) (t : pd.TargetFrame) :
  joins_only add_edges ->
  get_tf_data data add_edges query edges tf_filter_list target_filter_list = inr t ->
  NoDup (pd.index t)
  /\ StronglySorted (fun a b => String.leb a b = true) (pd.index t)
  /\ (forall r, In r (pd.index t) ->
        exists i an, In i (db.Interaction data) /\ In an (db.Analysis data)
                     /\ Str.ieq (db.tf__gene_id an) query = true
                     /\ db.analysis_id i = db.id an
                     /\ db.target__gene_id i = r)
  /\ (forall l, target_filter_list = Some l ->
        forall r, In r (pd.index t) -> upper_isin r l = true)
  /\ (forall l, tf_filter_list = Some l -> existsb (re_full_i query) l = false ->
        pd.index t = []).
Proof.
  intros Hj H. destruct (get_tf_data_cases _ _ _ _ _ Hj H) as [->|[vals [rows [t0 [Hr [-> [_ [Hk Hallowed]]]]]]]].
  - cbn. split; [constructor|]. split; [constructor|]. split; [intros r []|].
    split; [intros l _ r []|reflexivity].
  - destruct (reshape_spec _ _ _ Hr) as [Hidx _]. cbn [pd.set_filter_string pd.index].
    rewrite Hidx.
    assert (forall r, In r (pd.sort String.leb (pd.dedup String.eqb (List.map TARGET rows))) ->
              exists y, In y (interactions_of data query target_filter_list) /\ TARGET y = r) as Hrow.
    { intros r Hin. apply In_sort in Hin.
      apply (proj1 (In_dedup String.eqb String.eqb_eq _ _)) in Hin.
      apply in_map_iff in Hin. destruct Hin as [x [<- Hx]].
      destruct (Hk x Hx) as [y [Hy [E _]]]. exists y. auto. }
    split; [|split; [|split; [|split]]].
    + eapply Permutation_NoDup; [symmetry; apply sort_is_Permutation|].
      apply NoDup_dedup, String.eqb_eq.
    + apply sort_StronglySorted; [apply String.leb_total | apply string_leb_trans].
    + intros r Hin. destruct (Hrow r Hin) as [y [Hy <-]].
      destruct (interactions_of_spec _ _ _ Hy) as [_ [[i [an [H1 [H2 [H3 [H4 [H5 _]]]]]]] _]].
      exists i, an. auto.
    + intros l -> r Hin. destruct (Hrow r Hin) as [y [Hy <-]].
      destruct (interactions_of_spec _ _ _ Hy) as [_ [_ Hf]]. exact Hf.
    + intros l -> Hex. rewrite Hex in Hallowed. discriminate.
Qed.

(** X4. The table [get_tf_data] returns, when [add_edges] only joins, is an
    included table whose filter string is the query; every column has the
    query as its transcription factor and one of the four value names, and
    either is the column without analysis of a table without rows, or
    belongs to an analysis of the queried transcription factor. *)
Theorem get_tf_data_columns (query : string)
    (edges tf_filter_list target_filter_list : option (list string)) (t : pd.TargetFrame) :
  joins_only add_edges ->
  get_tf_data data add_edges query edges tf_filter_list target_filter_list = inr t ->
  pd.filter_string t = query
  /\ pd.include t = true
  /\ forall lb, In lb (pd.labels t) ->
       pd.tf_of lb = query
       /\ In (pd.attr_of lb) ["EDGE"; "Pvalue"; "Log2FC"; "ADD_EDGES"]
       /\ ((pd.analysis_of lb = None /\ pd.index t = [])
           \/ exists an, In an (db.Analysis data)
                         /\ Str.ieq (db.tf__gene_id an) query = true
                         /\ pd.analysis_of lb = Some (db.id an)).
Proof.
  intros Hj H. destruct (get_tf_data_cases _ _ _ _ _ Hj H) as [->|[vals [rows [t0 [Hr [-> [Hv [Hk _]]]]]]]].
  - cbn. split; [reflexivity|]. split; [reflexivity|].
    intros lb [<-|[]]. cbn. auto 6.
  - destruct (reshape_spec _ _ _ Hr) as [_ [Hinc [Hfs Hlab]]].
    cbn [pd.set_filter_string pd.filter_string pd.include]. rewrite Hfs.
    split; [reflexivity|]. split; [exact Hinc|].
    intros lb Hlb. destruct (Hlab lb Hlb) as [Hattr [x [Hx [Htf Han]]]].
    destruct (Hk x Hx) as [y [Hy [_ [E2 E3]]]].
    destruct (interactions_of_spec _ _ _ Hy) as [Hq [[i [an [H1 [H2 [H3 [H4 [_ H6]]]]]]] _]].
    split; [congruence|]. split; [apply Hv, Hattr|].
    right. exists an. split; [exact H2|]. split; [exact H3|]. rewrite Han. f_equal. congruence.
Qed.

End Fetch.

(** *** The table of all transcription factors *)

Section FetchAll.

Variable data : db.Database.
Variable add_edges : list Long -> list string -> Exn + list Long.

Lemma from_interaction_keys (tfl tgl : option (list string)) (x y : Long) :
  TARGET x = TARGET y -> ANALYSIS x = ANALYSIS y -> TF x = TF y ->
  from_interaction data tfl tgl y -> from_interaction data tfl tgl x.
Proof.
  intros E1 E2 E3 [i [an H]]. exists i, an. rewrite E1, E2, E3. exact H.
Qed.

Lemma get_all_tf_cases (query : string) (edges tfl tgl : option (list string))
    (t : pd.TargetFrame) :
  joins_only add_edges ->
  get_all_tf data add_edges query edges tfl tgl = inr t ->
  exists vals rows t0,
    reshape vals rows = inr t0
    /\ (forall x, In x rows -> from_interaction data tfl tgl x)
    /\ t = (if String.eqb query "andalltfs"
            then pd.loc_rows
                   (fun r => forallb (fun c => negb (pd.isin (pd.attr_of (pd.label c)) ["EDGE"; "Log2FC"])
                                               || pd.notna (pd.cells c r))
                                     (pd.columns t0))
                   (pd.set_filter_string (pd.filter_string t0 ++ query) t0)
            else pd.set_filter_string (pd.filter_string t0 ++ query) t0).
Proof.
  intros Hj H. unfold get_all_tf in H.
  match type of H with
  | match ?r with _ => _ end = _ => destruct r as [e|qs] eqn:Eqs; [discriminate|]
  end.
  assert (forall i, In i qs -> In i (db.Interaction data)) as Hqs.
  { destruct (String.eqb query "multitype").
    - match type of Eqs with
      | match ?a with _ => _ end = _ => destruct a; [discriminate|]
      end.
      injection Eqs as <-. intros i Hi. apply filter_In in Hi. apply Hi.
    - injection Eqs as <-. auto. }
  clear Eqs.
  match type of H with
  | match merge_reg _ ?b with _ => _ end = _ => set (base := b) in *
  end.
  assert (forall x, In x base -> from_interaction data tfl tgl x) as Hbase.
  { intros x Hx. unfold base in Hx. apply in_flat_map in Hx. destruct Hx as [i [Hi Hx]].
    apply in_map_iff in Hx. destruct Hx as [an [<- Han]].
    apply filter_In in Han. destruct Han as [Han Eid]. apply Z.eqb_eq in Eid.
    assert (In i (match tfl with
                  | Some l => filter (fun i => existsb (fun an => Z.eqb (db.id an) (db.analysis_id i)
                                                                  && pd.isin (db.tf__gene_id an) l)
                                                       (db.Analysis data)) qs
                  | None => qs
                  end)
            /\ match tgl with
               | Some l => upper_isin (db.target__gene_id i) l = true
               | None => True
               end) as [Hi' Htg].
    { destruct tgl; [apply filter_In in Hi|]; tauto. }
    assert (In i qs
            /\ match tfl with
               | Some l => exists an', In an' (db.Analysis data) /\ db.id an' = db.analysis_id i
                                       /\ In (db.tf__gene_id an') l
               | None => True
               end) as [Hi'' Htf].
    { destruct tfl as [l|]; [|tauto]. apply filter_In in Hi'. destruct Hi' as [Hi' Hex].
      split; [exact Hi'|]. apply existsb_exists in Hex. destruct Hex as [an' [Han' Hex]].
      apply andb_true_iff in Hex. destruct Hex as [E1 E2].
      apply Z.eqb_eq in E1. apply isin_In in E2. exists an'. auto. }
    exists i, an. cbn. auto 10. }
  destruct (merge_reg (db.Regulation data) base) as [|x0 merged0] eqn:Em; [discriminate|].
  rewrite <- Em in H.
  assert (keys_from (merge_reg (db.Regulation data) base) base) as Hm by apply keys_from_merge_reg.
  destruct (try_add_edges add_edges _ edges) as [e|[df added]] eqn:Eadd; [discriminate|].
  match type of H with
  | match reshape ?v ?r with _ => _ end = _ =>
      destruct (reshape v r) as [e|t0] eqn:Er; [discriminate|]; exists v, r, t0
  end.
  split; [exact Er|]. split.
  - intros x Hx. apply in_map_iff in Hx. destruct Hx as [y [<- Hy]].
    destruct (keys_from_try_add_edges _ _ _ _ _ Hj Eadd y Hy) as [z [Hz [E1 [E2 E3]]]].
    destruct (Hm z Hz) as [u [Hu [F1 [F2 F3]]]].
    apply (from_interaction_keys tfl tgl _ u); cbn; try congruence. apply Hbase, Hu.
  - destruct (String.eqb query "andalltfs"); injection H as <-; reflexivity.
Qed.

(** X5. The table [get_all_tf] returns, when [add_edges] only joins: its
    filter string is the keyword; its rows are distinct, each the target
    of an interaction of a known analysis and, with a target filter list,
    on the list (letter case apart); every column is of an analysis that
    has an interaction and, with a filter list of transcription factors,
    of a listed one; for andalltfs every row has a value in every EDGE
    and Log2FC column. *)
Theorem get_all_tf_respects_filters (query : string)
    (edges tf_filter_list target_filter_list : option (list string)) (t : pd.TargetFrame) :
  joins_only add_edges ->
  get_all_tf data add_edges query edges tf_filter_list target_filter_list = inr t ->
  pd.filter_string t = query
  /\ pd.include t = true
  /\ NoDup (pd.index t)
  /\ (forall r, In r (pd.index t) ->
        (exists i an, In i (db.Interaction data) /\ In an (db.Analysis data)
                      /\ db.id an = db.analysis_id i /\ db.target__gene_id i = r)
        /\ match target_filter_list with
           | Some l => upper_isin r l = true
           | None => True
           end)
  /\ (forall lb, In lb (pd.labels t) ->
        exists i an,
          In i (db.Interaction data) /\ In an (db.Analysis data)
          /\ db.id an = db.analysis_id i
          /\ pd.tf_of lb = db.tf__gene_id an /\ pd.analysis_of lb = Some (db.id an)
          /\ match tf_filter_list with
             | Some l => exists an', In an' (db.Analysis data) /\ db.id an' = db.id an
                                     /\ In (db.tf__gene_id an') l
             | None => True
             end)
  /\ (query = "andalltfs" ->
      forall r c, In r (pd.index t) -> In c (pd.columns t) -> counted c = true ->
                  pd.notna (pd.cells c r) = true).
Proof.
  intros Hj H.
  destruct (get_all_tf_cases _ _ _ _ _ Hj H) as [vals [rows [t0 [Hr [Hrows Ht]]]]].
  destruct (reshape_spec _ _ _ Hr) as [Hidx [Hinc [Hfs Hlab]]].
  assert (forall r, In r (pd.index t0) -> exists x, In x rows /\ TARGET x = r) as Hrow.
  { intros r Hin. rewrite Hidx in Hin. apply In_sort in Hin.
    apply (proj1 (In_dedup String.eqb String.eqb_eq _ _)) in Hin.
    apply in_map_iff in Hin. destruct Hin as [x [<- Hx]]. exists x. auto. }
  assert (NoDup (pd.index t0)) as Hnd.
  { rewrite Hidx. eapply Permutation_NoDup; [symmetry; apply sort_is_Permutation|].
    apply NoDup_dedup, String.eqb_eq. }
  assert (pd.filter_string t = query /\ pd.include t = true /\ pd.labels t = pd.labels t0
          /\ (forall r, In r (pd.index t) -> In r (pd.index t0))
          /\ NoDup (pd.index t)) as [E1 [E2 [E3 [E4 E5]]]].
  { rewrite Ht. destruct (String.eqb query "andalltfs"); cbn; rewrite Hfs;
      repeat split; auto.
    - intros r Hin. apply filter_In in Hin. apply Hin.
    - apply NoDup_filter, Hnd. }
  split; [exact E1|]. split; [exact E2|]. split; [exact E5|]. split; [|split].
  - intros r Hin. destruct (Hrow r (E4 r Hin)) as [x [Hx <-]].
    destruct (Hrows x Hx) as [i [an [H1 [H2 [H3 [H4 [H5 [H6 [H7 H8]]]]]]]]].
    split; [exists i, an; auto|exact H7].
  - intros lb Hlb. rewrite E3 in Hlb. destruct (Hlab lb Hlb) as [_ [x [Hx [Htf Han]]]].
    destruct (Hrows x Hx) as [i [an [H1 [H2 [H3 [H4 [H5 [H6 [H7 H8]]]]]]]]].
    exists i, an. split; [exact H1|]. split; [exact H2|]. split; [exact H3|].
    split; [congruence|]. split; [rewrite Han; f_equal; congruence|].
    destruct tf_filter_list; [|exact I].
    destruct H8 as [an' [G1 [G2 G3]]]. exists an'. split; [exact G1|]. split; [congruence|exact G3].
  - intros -> r c Hin Hc Hcnt. rewrite String.eqb_refl in Ht. rewrite Ht in Hin, Hc.
    unfold pd.loc_rows, pd.derive, pd.set_filter_string in Hin, Hc.
    cbn [pd.index pd.columns] in Hin, Hc.
    apply filter_In in Hin. destruct Hin as [_ Hall].
    rewrite forallb_forall in Hall. specialize (Hall c Hc).
    unfold counted in Hcnt. rewrite Hcnt in Hall. exact Hall.
Qed.

End FetchAll.

(** *** Modifiers *)

Lemma map_filter_label (f : pd.Label -> bool) (cols : list pd.Column) :
  List.map pd.label (filter (fun c => f (pd.label c)) cols) = filter f (List.map pd.label cols).
Proof.
  induction cols as [|c cols IH]; [reflexivity|]. simpl.
  destruct (f (pd.label c)); simpl; rewrite IH; reflexivity.
Qed.

Lemma labels_filter_groups (df : pd.TargetFrame) :
  pd.labels (pd.filter_groups df)
  = filter (fun lb => match pd.group_key lb with
                      | Some k => pd.group_notna_any df k
                      | None => false
                      end) (pd.labels df).
Proof.
  unfold pd.labels, pd.filter_groups, pd.derive. cbn [pd.columns].
  apply (map_filter_label (fun lb => match pd.group_key lb with
                                     | Some k => pd.group_notna_any df k
                                     | None => false
                                     end)).
Qed.

Lemma labels_set_filter_string (s : string) (df : pd.TargetFrame) :
  pd.labels (pd.set_filter_string s df) = pd.labels df.
Proof. reflexivity. Qed.

Lemma labels_dropna_rows (df : pd.TargetFrame) : pd.labels (pd.dropna_rows df) = pd.labels df.
Proof. reflexivity. Qed.

Lemma labels_where (mask : pd.Mask) (df : pd.TargetFrame) :
  pd.labels (pd.where_ mask df) = pd.labels df.
Proof.
  unfold pd.labels, pd.where_, pd.derive. cbn [pd.columns]. rewrite map_map. reflexivity.
Qed.

Section Modifiers.

Variable data : db.Database.
Variable add_edges : list Long -> list string -> Exn + list Long.
Variable float : string -> option Q.
Variable has_add_edges : pd.TargetFrame -> string -> Exn + pd.Mask.
Variable uuid4 : nat -> string.
Variable filter_raises_IndexError : pd.TargetFrame -> bool.
Variable edges : option (list string).
Variable tf_filter_list target_filter_list : option (list string).

Local Abbreviation eval :=
  (get_tf data add_edges float has_add_edges uuid4 filter_raises_IndexError
     edges tf_filter_list target_filter_list).

Local Abbreviation mask_of := (get_mod data float has_add_edges).

(** The evaluation of an operand followed by one modifier. *)
Lemma get_tf_modifier (p : pp.ParseResults) (toks : list pp.ParseResults) (n : nat) :
  is_operand p = true ->
  eval (pp.PGroup [p; pp.PModifier toks]) n
  = bind (eval p)
      (fun prec => bind (lift (mask_of prec (pp.PModifier toks)))
         (fun mod_ => lift (modify filter_raises_IndexError prec mod_ (pp.PModifier toks)))) n.
Proof.
  intros Hp. unfold is_operand in Hp.
  apply negb_true_iff in Hp. rewrite !orb_false_iff in Hp.
  destruct Hp as [[[H1 H2] H3] H4].
  cbn [get_tf get_tf_loop]. rewrite H1, H2, H3, H4. cbn [orb is_str is_modifier].
  unfold bind, lift.
  destruct (eval p n) as [e|[prec n1]]; [reflexivity|].
  destruct (mask_of prec (pp.PModifier toks)) as [e|m]; [reflexivity|].
  destruct (modify filter_raises_IndexError prec m (pp.PModifier toks)) as [e|t]; reflexivity.
Qed.

(** The mask of a modifier made of one condition is the mask of the
    condition. *)
Lemma get_mod_single (df : pd.TargetFrame) (key oper value : string) :
  mask_of df (pp.PModifier [pp.PMod key oper value]) = mask_of df (pp.PMod key oper value).
Proof. reflexivity. Qed.

(** What [get_tf] makes of an operand followed by a modifier, from the
    table of the operand and the mask of the modifier. *)
Lemma get_tf_modifier_mask (p : pp.ParseResults) (toks : list pp.ParseResults)
    (n n' : nat) (prec : pd.TargetFrame) (mask : pd.Mask) :
  is_operand p = true ->
  eval p n = inr (prec, n') ->
  mask_of prec (pp.PModifier toks) = inr (MFrame mask) ->
  eval (pp.PGroup [p; pp.PModifier toks]) n
  = if filter_raises_IndexError (pd.dropna_rows (pd.where_ mask prec))
    then inl (IndexError "")
    else inr (pd.set_filter_string
                (pd.filter_string prec ++ "[" ++ mod_to_str (pp.PModifier toks) ++ "]")
                (pd.filter_groups (pd.dropna_rows (pd.where_ mask prec))), n').
Proof.
  intros Hp Hprec Hmask. rewrite (get_tf_modifier p toks n Hp).
  unfold bind, lift. rewrite Hprec, Hmask. unfold modify.
  destruct (filter_raises_IndexError _); reflexivity.
Qed.

(** The rows and the columns a modifier keeps, from its mask: a row that
    has a value where the mask holds; a column of a column group that has
    such a value. *)
Lemma modifier_keeps (p : pp.ParseResults) (toks : list pp.ParseResults)
    (n n' n'' : nat) (prec t : pd.TargetFrame) (mask : pd.Mask) :
  is_operand p = true ->
  eval p n = inr (prec, n') ->
  mask_of prec (pp.PModifier toks) = inr (MFrame mask) ->
  eval (pp.PGroup [p; pp.PModifier toks]) n = inr (t, n'') ->
  (forall r, In r (pd.index t) <->
             In r (pd.index prec)
             /\ exists c, In c (pd.columns prec) /\ mask (pd.label c) r = true
                          /\ pd.notna (pd.cells c r) = true)
  /\ (forall c, In c (pd.columns t) ->
        exists k c1 r,
          pd.group_key (pd.label c) = Some k
          /\ In c1 (pd.columns prec) /\ pd.group_key (pd.label c1) = Some k
          /\ In r (pd.index prec)
          /\ mask (pd.label c1) r = true /\ pd.notna (pd.cells c1 r) = true).
Proof.
  intros Hp Hprec Hmask H.
  rewrite (get_tf_modifier_mask p toks n n' prec mask Hp Hprec Hmask) in H.
  destruct (filter_raises_IndexError _); [discriminate|].
  injection H as <- <-. split.
  - intros r. cbn. rewrite filter_In, existsb_exists. split.
    + intros [Hr [c [Hc Hn]]]. split; [exact Hr|].
      apply in_map_iff in Hc. destruct Hc as [c0 [<- Hc0]]. cbn [pd.cells pd.label] in Hn.
      exists c0. destruct (mask (pd.label c0) r); [auto | discriminate].
    + intros [Hr [c [Hc [Hm Hn]]]]. split; [exact Hr|].
      exists (pd.mkColumn (pd.label c)
                (fun r0 => if mask (pd.label c) r0 then pd.cells c r0 else pd.NaN)).
      split; [apply in_map_iff; exists c; auto|]. cbn. rewrite Hm. exact Hn.
  - intros c Hc. cbn [pd.set_filter_string pd.columns] in Hc.
    unfold pd.filter_groups, pd.derive in Hc. cbn [pd.columns] in Hc.
    apply filter_In in Hc. destruct Hc as [_ Hg].
    destruct (pd.group_key (pd.label c)) as [k|] eqn:Ek; [|discriminate].
    unfold pd.group_notna_any in Hg. apply existsb_exists in Hg.
    destruct Hg as [c' [Hc' Hg]]. apply andb_true_iff in Hg. destruct Hg as [Hin Hn].
    apply existsb_exists in Hn. destruct Hn as [r [Hr Hn]].
    cbn in Hc'. apply in_map_iff in Hc'. destruct Hc' as [c1 [<- Hc1]].
    cbn [pd.cells pd.label] in Hn.
    unfold pd.in_group in Hin. cbn [pd.label] in Hin.
    destruct (pd.group_key (pd.label c1)) as [k1|] eqn:Ek1; [|discriminate].
    apply key_eqb_eq in Hin. subst k1.
    cbn in Hr. apply filter_In in Hr. destruct Hr as [Hr _].
    exists k, c1, r. destruct (mask (pd.label c1) r); [auto 10 | discriminate].
Qed.

Lemma group_key_In_groups (df : pd.TargetFrame) (c : pd.Column) (k : string * Z) :
  In c (pd.columns df) -> pd.group_key (pd.label c) = Some k -> In k (groups df).
Proof.
  intros Hc Hk. unfold groups. apply In_sort.
  assert (forall a b, pd.key_eqb a b = true <-> a = b) as Heq
    by (intros a b; split; [apply key_eqb_eq | intros ->; apply key_eqb_refl]).
  apply (proj2 (In_dedup pd.key_eqb Heq _ _)). apply in_flat_map.
  exists (pd.label c). split; [apply in_map, Hc|]. rewrite Hk. left. reflexivity.
Qed.

(** X6. A modifier after an operand only removes: the rows kept are exactly
    the rows of the operand's table that have a value where the mask of
    the modifier holds; the columns kept are columns of the operand, in
    their order, with the cells the mask leaves and the others missing;
    the include flag is the operand's and the filter string gets the
    modifier in brackets; no token is drawn. *)
Theorem modifier_only_removes (p : pp.ParseResults) (toks : list pp.ParseResults)
    (n n' n'' : nat) (prec t : pd.TargetFrame) :
  is_operand p = true ->
  eval p n = inr (prec, n') ->
  eval (pp.PGroup [p; pp.PModifier toks]) n = inr (t, n'') ->
  exists mask,
    mask_of prec (pp.PModifier toks) = inr (MFrame mask)
    /\ n'' = n'
    /\ (forall r, In r (pd.index t) <->
                  In r (pd.index prec)
                  /\ exists c, In c (pd.columns prec) /\ mask (pd.label c) r = true
                               /\ pd.notna (pd.cells c r) = true)
    /\ (exists keep, pd.labels t = filter keep (pd.labels prec))
    /\ (forall c, In c (pd.columns t) ->
          exists c0, In c0 (pd.columns prec) /\ pd.label c = pd.label c0
                     /\ forall r, pd.cells c r
                                  = if mask (pd.label c0) r then pd.cells c0 r else pd.NaN)
    /\ pd.include t = pd.include prec
    /\ pd.filter_string t
       = pd.filter_string prec ++ "[" ++ mod_to_str (pp.PModifier toks) ++ "]".
Proof.
  intros Hp Hprec H.
  destruct (mask_of prec (pp.PModifier toks)) as [e|[s|mask]] eqn:Hmask.
  - rewrite (get_tf_modifier p toks n Hp) in H. unfold bind, lift in H.
    rewrite Hprec, Hmask in H. discriminate.
  - rewrite (get_tf_modifier p toks n Hp) in H. unfold bind, lift in H.
    rewrite Hprec, Hmask in H. discriminate.
  - rewrite (get_tf_modifier_mask p toks n n' prec mask Hp Hprec Hmask) in H.
    destruct (filter_raises_IndexError _); [discriminate|].
    injection H as <- <-. exists mask.
    split; [reflexivity|]. split; [reflexivity|]. split; [|split; [|split; [|split; reflexivity]]].
    + intros r. cbn. rewrite filter_In, existsb_exists. split.
      * intros [Hr [c [Hc Hn]]]. split; [exact Hr|].
        apply in_map_iff in Hc. destruct Hc as [c0 [<- Hc0]]. cbn [pd.cells pd.label] in Hn.
        exists c0. destruct (mask (pd.label c0) r); [auto | discriminate].
      * intros [Hr [c [Hc [Hm Hn]]]]. split; [exact Hr|].
        exists (pd.mkColumn (pd.label c)
                  (fun r0 => if mask (pd.label c) r0 then pd.cells c r0 else pd.NaN)).
        split; [apply in_map_iff; exists c; auto|]. cbn. rewrite Hm. exact Hn.
    + eexists.
      rewrite labels_set_filter_string, labels_filter_groups, labels_dropna_rows, labels_where.
      reflexivity.
    + intros c Hc. apply filter_In in Hc. destruct Hc as [Hc _].
      apply in_map_iff in Hc. destruct Hc as [c0 [<- Hc0]].
      exists c0. cbn [pd.label pd.cells]. auto.
Qed.

(** The mask of a condition on a key other than [pvalue] and [fc] does
    not depend on the operator. *)
Lemma get_mod_operator (df : pd.TargetFrame) (key o1 o2 value : string) :
  re_full_i "pvalue" key = false -> re_full_i "fc" key = false ->
  mask_of df (pp.PMod key o1 value) = mask_of df (pp.PMod key o2 value).
Proof. intros H1 H2. cbn [get_mod]. rewrite H1, H2. reflexivity. Qed.

(** X11. The comparison operator is read for pvalue and fc only: for a
    condition on any other key, two operators give the same outcome, the
    same rows, columns, cells and include flag (the filter strings
    differ). *)
Theorem operator_only_read_by_comparisons (p : pp.ParseResults) (key o1 o2 value : string)
    (n : nat) :
  is_operand p = true ->
  re_full_i "pvalue" key = false -> re_full_i "fc" key = false ->
  match eval (pp.PGroup [p; pp.PModifier [pp.PMod key o1 value]]) n,
        eval (pp.PGroup [p; pp.PModifier [pp.PMod key o2 value]]) n with
  | inr (t1, n1), inr (t2, n2) =>
      n1 = n2 /\ pd.index t1 = pd.index t2 /\ pd.columns t1 = pd.columns t2
      /\ pd.include t1 = pd.include t2
  | inl e1, inl e2 => e1 = e2
  | _, _ => False
  end.
Proof.
  intros Hp H1 H2. rewrite !(get_tf_modifier p _ n Hp). unfold bind, lift.
  destruct (eval p n) as [e|[prec n']]; [reflexivity|].
  rewrite !get_mod_single, (get_mod_operator prec key o1 o2 value H1 H2).
  destruct (mask_of prec (pp.PMod key o2 value)) as [e|[s|mask]]; [reflexivity|reflexivity|].
  unfold modify. destruct (filter_raises_IndexError _); [reflexivity|].
  repeat split.
Qed.

(** The mask of a condition on an annotation of the analyses. *)
Lemma get_mod_metadata (df : pd.TargetFrame) (key oper value : string) :
  re_full_i "pvalue" key = false -> re_full_i "fc" key = false ->
  re_full_i "additional_edge" key = false -> re_full_i "has_column" key = false ->
  mask_of df (pp.PModifier [pp.PMod key oper value])
  = inr (MFrame (query_metadata data df key value)).
Proof. intros H1 H2 H3 H4. cbn. rewrite H1, H2, H3, H4. reflexivity. Qed.

(** X9. After a condition on any other key, every column that is kept
    belongs to an analysis that carries an annotation with that key and
    that value, letter case apart. *)
Theorem metadata_modifier_keeps_annotated (p : pp.ParseResults) (key oper value : string)
    (n n' n'' : nat) (prec t : pd.TargetFrame) :
  is_operand p = true ->
  re_full_i "pvalue" key = false -> re_full_i "fc" key = false ->
  re_full_i "additional_edge" key = false -> re_full_i "has_column" key = false ->
  eval p n = inr (prec, n') ->
  eval (pp.PGroup [p; pp.PModifier [pp.PMod key oper value]]) n = inr (t, n'') ->
  forall c, In c (pd.columns t) ->
    exists a d,
      pd.analysis_of (pd.label c) = Some a
      /\ In d (db.AnalysisData data)
      /\ db.analysisdata__analysis_id d = a
      /\ Str.ieq (db.analysisdata__key__name d) key = true
      /\ Str.ieq (db.analysisdata__value d) value = true.
Proof.
  intros Hp H1 H2 H3 H4 Hprec H c Hc.
  rewrite (get_tf_modifier_mask p _ n n' prec _ Hp Hprec (get_mod_metadata prec key oper value H1 H2 H3 H4)) in H.
  destruct (filter_raises_IndexError _); [discriminate|].
  injection H as <- <-. cbn [pd.set_filter_string pd.columns] in Hc.
  unfold pd.filter_groups, pd.derive in Hc. cbn [pd.columns] in Hc.
  apply filter_In in Hc. destruct Hc as [Hc Hg].
  destruct (pd.group_key (pd.label c)) as [k|] eqn:Ek; [|discriminate].
  unfold pd.group_notna_any in Hg. apply existsb_exists in Hg.
  destruct Hg as [c' [Hc' Hg]]. apply andb_true_iff in Hg. destruct Hg as [Hin Hn].
  apply existsb_exists in Hn. destruct Hn as [r [_ Hn]].
  cbn in Hc'. apply in_map_iff in Hc'. destruct Hc' as [c0 [<- Hc0]].
  cbn [pd.cells pd.label] in Hn.
  unfold pd.in_group in Hin. cbn [pd.label] in Hin.
  destruct (pd.group_key (pd.label c0)) as [k0|] eqn:Ek0; [|discriminate].
  apply key_eqb_eq in Hin. subst k0.
  unfold pd.group_key in Ek, Ek0.
  destruct (pd.analysis_of (pd.label c)) as [a|]; [|discriminate].
  destruct (pd.analysis_of (pd.label c0)) as [a0|] eqn:Ea0; [|discriminate].
  assert (a0 = a) as -> by congruence.
  unfold query_metadata in Hn. rewrite Ea0 in Hn.
  destruct (zin a _) eqn:Ez; [|discriminate].
  unfold zin in Ez. apply existsb_exists in Ez. destruct Ez as [z [Hz Ez]].
  apply Z.eqb_eq in Ez. subst z.
  apply in_map_iff in Hz. destruct Hz as [d [Hd Hin]].
  apply filter_In in Hin. destruct Hin as [Hin Hd'].
  rewrite !andb_true_iff in Hd'. destruct Hd' as [[Hk Hv] _].
  exists a, d. auto.
Qed.

(** X10. A condition on an annotation that no analysis carries leaves
    nothing: the evaluation raises the [IndexError] of the column-group
    filter or returns a table without rows and without columns, which
    [parse_query] reports as an empty query. *)
Theorem metadata_modifier_without_match (p : pp.ParseResults) (key oper value : string)
    (n n' : nat) (prec : pd.TargetFrame) :
  is_operand p = true ->
  re_full_i "pvalue" key = false -> re_full_i "fc" key = false ->
  re_full_i "additional_edge" key = false -> re_full_i "has_column" key = false ->
  (forall d, In d (db.AnalysisData data) ->
             Str.ieq (db.analysisdata__key__name d) key
             && Str.ieq (db.analysisdata__value d) value = false) ->
  eval p n = inr (prec, n') ->
  eval (pp.PGroup [p; pp.PModifier [pp.PMod key oper value]]) n = inl (IndexError "")
  \/ exists t,
       eval (pp.PGroup [p; pp.PModifier [pp.PMod key oper value]]) n = inr (t, n')
       /\ pd.index t = [] /\ pd.columns t = [] /\ pd.empty t = true.
Proof.
  intros Hp H1 H2 H3 H4 Hno Hprec.
  rewrite (get_tf_modifier_mask p _ n n' prec _ Hp Hprec (get_mod_metadata prec key oper value H1 H2 H3 H4)).
  destruct (filter_raises_IndexError _); [left; reflexivity|].
  right. eexists. split; [reflexivity|].
  assert (forall lb r, query_metadata data prec key value lb r = false) as Hmask.
  { intros lb r. unfold query_metadata. rewrite filter_none; [destruct (pd.analysis_of lb); reflexivity|].
    intros d Hd. rewrite (Hno d Hd). reflexivity. }
  assert (pd.index (pd.dropna_rows (pd.where_ (query_metadata data prec key value) prec)) = []) as Hidx.
  { cbn. apply filter_none. intros r _.
    destruct (existsb _ _) eqn:E; [|reflexivity].
    apply existsb_exists in E. destruct E as [c [Hc Hn]].
    apply in_map_iff in Hc. destruct Hc as [c0 [<- _]]. cbn in Hn.
    rewrite Hmask in Hn. discriminate. }
  assert (pd.columns (pd.filter_groups
            (pd.dropna_rows (pd.where_ (query_metadata data prec key value) prec))) = []) as Hcols.
  { unfold pd.filter_groups at 1, pd.derive. cbn [pd.columns]. apply filter_none.
    intros c _. destruct (pd.group_key (pd.label c)); [|reflexivity].
    unfold pd.group_notna_any. rewrite Hidx.
    destruct (existsb _ _) eqn:E; [|reflexivity].
    apply existsb_exists in E. destruct E as [c' [_ E]].
    rewrite andb_false_r in E. discriminate. }
  cbn [pd.set_filter_string pd.index pd.columns].
  split; [exact Hidx|]. split; [exact Hcols|].
  unfold pd.empty. cbn [pd.index]. fold (pd.index (pd.dropna_rows (pd.where_ (query_metadata data prec key value) prec))).
  unfold pd.filter_groups, pd.derive. cbn [pd.index]. rewrite Hidx. reflexivity.
Qed.

(** The mask of a condition on [pvalue], [fc] or [has_column]. *)
Lemma get_mod_grouped (df : pd.TargetFrame) (key oper value : string) (mask : pd.Mask) :
  mask_of df (pp.PModifier [pp.PMod key oper value]) = inr (MFrame mask) ->
  (re_full_i "pvalue" key = true ->
   groupby_apply (fun k => apply_comp_mod float df k "Pvalue" oper value) (groups df) = inr mask)
  /\ (re_full_i "pvalue" key = false -> re_full_i "fc" key = true ->
      groupby_apply (fun k => apply_comp_mod float df k "Log2FC" oper value) (groups df) = inr mask)
  /\ (re_full_i "pvalue" key = false -> re_full_i "fc" key = false ->
      re_full_i "additional_edge" key = false -> re_full_i "has_column" key = true ->
      groupby_apply (fun k => inr (apply_has_column df k (Str.upper value))) (groups df) = inr mask).
Proof.
  intros H. cbn in H. repeat split; intros; repeat match goal with
    | E : re_full_i _ key = _ |- _ => rewrite E in H; clear E
    end;
    match type of H with
    | lift_mask ?g = _ => destruct g; cbn in H; congruence
    end.
Qed.

(** X7. After a condition on pvalue or fc, every row that is kept has, in
    the compared column (Pvalue or Log2FC) of some column group, a value
    for which the comparison with the number written holds. *)
Theorem comparison_modifier_rows (p : pp.ParseResults) (key oper value : string)
    (n n' n'' : nat) (prec t : pd.TargetFrame) :
  is_operand p = true ->
  re_full_i "pvalue" key = true \/ re_full_i "fc" key = true ->
  eval p n = inr (prec, n') ->
  eval (pp.PGroup [p; pp.PModifier [pp.PMod key oper value]]) n = inr (t, n'') ->
  forall r, In r (pd.index t) ->
    exists v k c,
      float value = Some v
      /\ In c (pd.columns prec)
      /\ pd.label_eqb (pd.label c)
           (fst k, Some (snd k), if re_full_i "pvalue" key then "Pvalue" else "Log2FC") = true
      /\ compare oper (pd.cells c r) v = Some (inr true).
Proof.
  intros Hp Hkey Hprec H r Hr.
  destruct (mask_of prec (pp.PModifier [pp.PMod key oper value])) as [e|[s|mask]] eqn:Hmask;
    try (rewrite (get_tf_modifier p _ n Hp) in H; unfold bind, lift in H;
         rewrite Hprec, Hmask in H; discriminate).
  destruct (modifier_keeps p _ n n' n'' prec t mask Hp Hprec Hmask H) as [Hrows _].
  apply Hrows in Hr. destruct Hr as [_ [c0 [Hc0 [Hm _]]]].
  set (col := if re_full_i "pvalue" key then "Pvalue" else "Log2FC").
  assert (groupby_apply (fun k => apply_comp_mod float prec k col oper value) (groups prec)
          = inr mask) as Hg.
  { destruct (get_mod_grouped prec key oper value mask Hmask) as [G1 [G2 _]]. unfold col.
    destruct (re_full_i "pvalue" key) eqn:E; [apply G1; reflexivity|].
    destruct Hkey as [Hk|Hk]; [discriminate | apply G2; auto]. }
  destruct (pd.group_key (pd.label c0)) as [k|] eqn:Ek.
  2:{ exfalso. clear - Hg Hm Ek. revert mask Hg Hm.
      induction (groups prec) as [|k0 ks IH]; intros mask Hg Hm; simpl in Hg.
      - injection Hg as <-. discriminate.
      - destruct (apply_comp_mod _ _ _ _ _ _); [discriminate|].
        destruct (groupby_apply _ ks); [discriminate|].
        injection Hg as <-. rewrite Ek in Hm. discriminate. }
  destruct (groupby_apply_group _ _ _ k Hg (group_key_In_groups prec c0 k Hc0 Ek)) as [mk [Hk Hmk]].
  rewrite (Hmk _ r Ek) in Hm.
  unfold apply_comp_mod in Hk.
  destruct (float value) as [v|]; [|discriminate].
  destruct (compare oper pd.NaN v); [|discriminate].
  destruct (find _ (pd.columns prec)) as [c|] eqn:Ef; [|injection Hk as <-; discriminate].
  apply find_some in Ef. destruct Ef as [Hc Hl].
  destruct (find _ (pd.index prec)) as [r0|].
  { destruct (compare oper (pd.cells c r0) v) as [[e|b]|]; [discriminate| |];
      injection Hk as <-; discriminate. }
  injection Hk as <-.
  exists v, k, c. split; [reflexivity|]. split; [exact Hc|]. split; [exact Hl|].
  destruct (compare oper (pd.cells c r) v) as [[e|[]]|]; try discriminate. reflexivity.
Qed.

(** X8. After a condition on has_column, every column that is kept belongs
    to a column group of the operand that has the named column (the name
    in upper case, PVALUE, FC and ADDITIONAL_EDGE translated). *)
Theorem has_column_modifier_columns (p : pp.ParseResults) (key oper value : string)
    (n n' n'' : nat) (prec t : pd.TargetFrame) :
  is_operand p = true ->
  re_full_i "pvalue" key = false -> re_full_i "fc" key = false ->
  re_full_i "additional_edge" key = false -> re_full_i "has_column" key = true ->
  eval p n = inr (prec, n') ->
  eval (pp.PGroup [p; pp.PModifier [pp.PMod key oper value]]) n = inr (t, n'') ->
  forall c, In c (pd.columns t) ->
    exists k,
      pd.group_key (pd.label c) = Some k
      /\ pd.label_in (fst k, Some (snd k), COL_TRANSLATE (Str.upper value)) (pd.labels prec) = true.
Proof.
  intros Hp H1 H2 H3 H4 Hprec H c Hc.
  destruct (mask_of prec (pp.PModifier [pp.PMod key oper value])) as [e|[s|mask]] eqn:Hmask;
    try (rewrite (get_tf_modifier p _ n Hp) in H; unfold bind, lift in H;
         rewrite Hprec, Hmask in H; discriminate).
  destruct (modifier_keeps p _ n n' n'' prec t mask Hp Hprec Hmask H) as [_ Hcols].
  destruct (Hcols c Hc) as [k [c1 [r [Ek [Hc1 [Ek1 [_ [Hm _]]]]]]]].
  exists k. split; [exact Ek|].
  destruct (get_mod_grouped prec key oper value mask Hmask) as [_ [_ G]].
  specialize (G H1 H2 H3 H4).
  destruct (groupby_apply_group _ _ _ k G (group_key_In_groups prec c1 k Hc1 Ek1)) as [mk [Hk Hmk]].
  rewrite (Hmk _ r Ek1) in Hm. injection Hk as <-.
  unfold apply_has_column in Hm.
  destruct (pd.label_in _ (pd.labels prec)); [reflexivity | discriminate].
Qed.

(** X12. A condition and its negation lose no row between them: a row of
    the operand that has a value is kept by the modifier or by the
    modifier under not. *)
Theorem modifier_and_negation_cover (p m : pp.ParseResults)
    (n n' n1 n2 : nat) (prec t1 t2 : pd.TargetFrame) :
  is_operand p = true ->
  is_str "and" m || is_str "or" m || is_str "not" m = false ->
  eval p n = inr (prec, n') ->
  eval (pp.PGroup [p; pp.PModifier [m]]) n = inr (t1, n1) ->
  eval (pp.PGroup [p; pp.PModifier [pp.PGroup [pp.PStr "not"; m]]]) n = inr (t2, n2) ->
  forall r, In r (pd.index prec) ->
    (exists c, In c (pd.columns prec) /\ pd.notna (pd.cells c r) = true) ->
    In r (pd.index t1) \/ In r (pd.index t2).
Proof.
  intros Hp Hm Hprec H1 H2 r Hr [c [Hc Hn]].
  rewrite !orb_false_iff in Hm. destruct Hm as [[Ma Mo] Mn].
  assert (mask_of prec (pp.PModifier [m]) = mask_of prec m) as E1.
  { cbn [get_mod get_mod_loop]. rewrite Ma, Mo, Mn. reflexivity. }
  destruct (mask_of prec m) as [e|[s|mask]] eqn:Hmask;
    try (rewrite (get_tf_modifier p _ n Hp) in H1; unfold bind, lift in H1;
         rewrite Hprec, E1 in H1; discriminate).
  assert (mask_of prec (pp.PModifier [pp.PGroup [pp.PStr "not"; m]])
          = inr (MFrame (fun lb r => negb (mask lb r)))) as E2.
  { cbn [get_mod get_mod_loop is_str String.eqb Ascii.eqb Bool.eqb orb]. rewrite Hmask.
    reflexivity. }
  destruct (modifier_keeps p _ n n' n1 prec t1 mask Hp Hprec E1 H1) as [R1 _].
  destruct (modifier_keeps p _ n n' n2 prec t2 _ Hp Hprec E2 H2) as [R2 _].
  destruct (mask (pd.label c) r) eqn:Em.
  - left. apply R1. split; [exact Hr|]. exists c. auto.
  - right. apply R2. split; [exact Hr|]. exists c. rewrite Em. auto.
Qed.

(** X13. Two binary operators in one group are applied from left to right:
    the first one to the first two operands, the second one to that
    result and the third operand. *)
Theorem get_tf_chain_left_to_right (a b c : pp.ParseResults) (op1 op2 : string) (n : nat) :
  is_operand a = true ->
  op1 = "and" \/ op1 = "or" -> op2 = "and" \/ op2 = "or" ->
  eval (pp.PGroup [a; pp.PStr op1; b; pp.PStr op2; c]) n
  = bind (eval (pp.PGroup [a; pp.PStr op1; b]))
      (fun ab => bind (eval c)
         (fun succ => binary uuid4 filter_raises_IndexError op2 ab succ)) n.
Proof.
  intros Hp Hop1 Hop2. unfold is_operand in Hp.
  apply negb_true_iff in Hp. rewrite !orb_false_iff in Hp.
  destruct Hp as [[[H1 H2] H3] H4].
  cbn [get_tf get_tf_loop]. rewrite H1, H2, H3, H4. cbn [orb].
  assert (is_str "and" (pp.PStr op1) || is_str "or" (pp.PStr op1) = true) as ->
    by (destruct Hop1 as [->| ->]; reflexivity).
  assert (is_str "and" (pp.PStr op2) || is_str "or" (pp.PStr op2) = true) as ->
    by (destruct Hop2 as [->| ->]; reflexivity).
  assert ((if is_str "and" (pp.PStr op1) then "and" else "or") = op1) as ->
    by (destruct Hop1 as [->| ->]; reflexivity).
  assert ((if is_str "and" (pp.PStr op2) then "and" else "or") = op2) as ->
    by (destruct Hop2 as [->| ->]; reflexivity).
  unfold bind, ret.
  destruct (eval a n) as [e|[prec n1]]; [reflexivity|].
  destruct (eval b n1) as [e|[succ n2]]; [reflexivity|].
  destruct (binary uuid4 filter_raises_IndexError op1 prec succ n2) as [e|[ab n3]]; [reflexivity|].
  destruct (eval c n3) as [e|[t n4]]; [reflexivity|].
  destruct (binary uuid4 filter_raises_IndexError op2 ab t n4) as [e|[df n5]]; reflexivity.
Qed.

End Modifiers.

(** *** The reorder keeps the table *)

Lemma Permutation_filter_split {A : Type} (p q : A -> bool) (l : list A) :
  (forall x, In x l -> p x = true -> q x = false) ->
  Permutation (filter (fun x => p x || q x) l) (filter p l ++ filter q l).
Proof.
  induction l as [|a l IH]; intros H; [reflexivity|]. simpl.
  assert (forall x, In x l -> p x = true -> q x = false) as H' by (intros; apply H; simpl; auto).
  destruct (p a) eqn:Ep; simpl.
  - rewrite (H a (or_introl eq_refl) Ep). constructor. apply IH, H'.
  - destruct (q a); [|apply IH, H'].
    rewrite (IH H'). apply Permutation_middle.
Qed.

Lemma Permutation_flat_map_pointwise {A B : Type} (f g : A -> list B) (l : list A) :
  (forall x, In x l -> Permutation (f x) (g x)) -> Permutation (flat_map f l) (flat_map g l).
Proof.
  induction l as [|a l IH]; intros H; [reflexivity|]. simpl.
  apply Permutation_app; [apply H; left; reflexivity | apply IH; intros; apply H; right; assumption].
Qed.

Section TakeBy.

Context {K : Type} (eqb : K -> K -> bool) (key : pd.Label -> option K).
Hypothesis eqb_eq : forall a b, eqb a b = true <-> a = b.

Lemma take_by_Permutation (order : list K) (cols : list pd.Column) :
  NoDup order -> Permutation (take_by eqb key order cols) (filter (keyed eqb key order) cols).
Proof.
  induction 1 as [|k order Hk Hnd IH]; unfold take_by; simpl.
  - rewrite filter_none; [reflexivity|]. intros c _. unfold keyed.
    destruct (key (pd.label c)); reflexivity.
  - fold (take_by eqb key order cols). rewrite IH.
    rewrite <- Permutation_filter_split.
    + apply Permutation_refl'. apply filter_ext. intros c. unfold keyed.
      destruct (key (pd.label c)) as [k'|]; [|reflexivity]. simpl.
      f_equal. destruct (eqb k k') eqn:E1, (eqb k' k) eqn:E2; try reflexivity.
      * apply eqb_eq in E1. subst. rewrite (proj2 (eqb_eq k' k') eq_refl) in E2. discriminate.
      * apply eqb_eq in E2. subst. rewrite (proj2 (eqb_eq k k) eq_refl) in E1. discriminate.
    + intros c _ Hc. unfold keyed. destruct (key (pd.label c)) as [k'|]; [|reflexivity].
      apply eqb_eq in Hc. subst k'.
      destruct (existsb (eqb k) order) eqn:E; [|reflexivity].
      apply existsb_exists in E. destruct E as [y [Hy E]]. apply eqb_eq in E. subst y.
      contradiction.
Qed.

(** The order [sort_values_desc] gives to the values of a level: each
    value of the level once. *)
Lemma level_order_Permutation (leb : K -> K -> bool) (df : pd.TargetFrame) :
  Permutation (sort_values_desc (level_counts eqb leb key df))
    (pd.dedup eqb (flat_map (fun lb => match key lb with
                                       | Some k => [k]
                                       | None => []
                                       end) (pd.labels df))).
Proof.
  unfold sort_values_desc, level_counts.
  rewrite <- Permutation_rev, sort_is_Permutation, map_map. cbn [fst].
  rewrite map_id. apply sort_is_Permutation.
Qed.

Lemma level_order_NoDup (leb : K -> K -> bool) (df : pd.TargetFrame) :
  NoDup (sort_values_desc (level_counts eqb leb key df)).
Proof.
  eapply Permutation_NoDup; [symmetry; apply level_order_Permutation|].
  apply NoDup_dedup, eqb_eq.
Qed.

Lemma level_order_In (leb : K -> K -> bool) (df : pd.TargetFrame) (k : K) :
  In k (sort_values_desc (level_counts eqb leb key df))
  <-> exists lb, In lb (pd.labels df) /\ key lb = Some k.
Proof.
  split.
  - intros H. apply (Permutation_in _ (level_order_Permutation leb df)) in H.
    apply (proj1 (In_dedup eqb eqb_eq _ _)) in H. apply in_flat_map in H.
    destruct H as [lb [Hlb H]]. exists lb. split; [exact Hlb|].
    destruct (key lb); [destruct H as [->|[]]; reflexivity | contradiction].
  - intros [lb [Hlb H]].
    apply (Permutation_in _ (Permutation_sym (level_order_Permutation leb df))).
    apply (proj2 (In_dedup eqb eqb_eq _ _)). apply in_flat_map. exists lb. split; [exact Hlb|].
    rewrite H. left. reflexivity.
Qed.

End TakeBy.

(** X14. [reorder_data] keeps the row index, the include flag and the filter
    string, and its columns are the columns of the table that have an
    analysis id, in another order: when every column has one, no column
    is lost or added. *)
Theorem reorder_data_permutes_columns (df : pd.TargetFrame) :
  pd.index (reorder_data df) = pd.index df
  /\ pd.include (reorder_data df) = pd.include df
  /\ pd.filter_string (reorder_data df) = pd.filter_string df
  /\ Permutation (pd.columns (reorder_data df)) (filter has_analysis (pd.columns df))
  /\ ((forall c, In c (pd.columns df) -> pd.analysis_of (pd.label c) <> None) ->
      Permutation (pd.columns (reorder_data df)) (pd.columns df)).
Proof.
  assert (Permutation (pd.columns (reorder_data df)) (filter has_analysis (pd.columns df))) as Hperm.
  { unfold reorder_data, reindex_level0, reindex_level1, pd.derive. cbn [pd.columns pd.index].
    set (ao := sort_values_desc (level_counts Z.eqb Z.leb pd.analysis_of df)).
    set (to := sort_values_desc (level_counts String.eqb String.leb (fun lb => Some (pd.tf_of lb)) df)).
    assert (Permutation (flat_map (take_by Z.eqb pd.analysis_of ao) (runs (pd.columns df)))
                        (filter has_analysis (pd.columns df))) as H1.
    { rewrite (Permutation_flat_map_pointwise _ (filter (keyed Z.eqb pd.analysis_of ao)))
        by (intros run _; apply (take_by_Permutation Z.eqb pd.analysis_of Z.eqb_eq),
                          (level_order_NoDup Z.eqb pd.analysis_of Z.eqb_eq)).
      rewrite <- filter_flat_map.
      rewrite flat_map_concat_map, map_id, (proj1 (runs_spec (pd.columns df))).
      apply Permutation_refl'. apply filter_ext_in. intros c Hc.
      unfold keyed, has_analysis. destruct (pd.analysis_of (pd.label c)) as [a|] eqn:Ea; [|reflexivity].
      apply existsb_exists. exists a. split; [|apply Z.eqb_refl].
      apply (level_order_In Z.eqb pd.analysis_of Z.eqb_eq). exists (pd.label c).
      split; [apply in_map, Hc | exact Ea]. }
    rewrite (take_by_Permutation String.eqb _ String.eqb_eq)
      by apply (level_order_NoDup String.eqb _ String.eqb_eq).
    rewrite filter_all; [exact H1|].
    intros c Hc. apply (Permutation_in _ H1) in Hc. apply filter_In in Hc. destruct Hc as [Hc _].
    unfold keyed. apply existsb_exists. exists (pd.tf_of (pd.label c)).
    split; [|apply String.eqb_refl].
    apply (level_order_In String.eqb _ String.eqb_eq). exists (pd.label c).
    split; [apply in_map, Hc | reflexivity]. }
  split; [reflexivity|]. split; [reflexivity|]. split; [reflexivity|]. split; [exact Hperm|].
  intros Hall. rewrite Hperm, filter_all; [reflexivity|].
  intros c Hc. unfold has_analysis. specialize (Hall c Hc).
  destruct (pd.analysis_of (pd.label c)); congruence.
Qed.

(** *** The reorder puts the transcription factors in the order of their counts *)

Lemma StronglySorted_app {A : Type} (R : A -> A -> Prop) (l1 l2 : list A) :
  StronglySorted R l1 -> StronglySorted R l2 ->
  (forall x y, In x l1 -> In y l2 -> R x y) ->
  StronglySorted R (l1 ++ l2).
Proof.
  induction 1 as [|a l1 Hl IH Ha]; intros H2 H; [exact H2|]. simpl.
  constructor.
  - apply IH; [exact H2|]. intros x y Hx Hy. apply H; [right; exact Hx | exact Hy].
  - rewrite Forall_forall in *. intros y Hy. apply in_app_iff in Hy.
    destruct Hy as [Hy|Hy]; [apply Ha, Hy | apply H; [left; reflexivity | exact Hy]].
Qed.

Lemma StronglySorted_rev {A : Type} (R : A -> A -> Prop) (l : list A) :
  StronglySorted R l -> StronglySorted (fun a b => R b a) (rev l).
Proof.
  induction 1 as [|a l Hl IH Ha]; [constructor|]. simpl.
  apply StronglySorted_app; [exact IH | repeat constructor|].
  intros x y Hx [<-|[]]. rewrite Forall_forall in Ha. apply Ha, in_rev, Hx.
Qed.

Lemma StronglySorted_map {A B : Type} (R : A -> A -> Prop) (R' : B -> B -> Prop)
    (f : A -> B) (l : list A) :
  (forall x y, In x l -> In y l -> R x y -> R' (f x) (f y)) ->
  StronglySorted R l -> StronglySorted R' (List.map f l).
Proof.
  intros H Hs. induction Hs as [|a l Hl IH Ha]; [constructor|]. simpl.
  constructor.
  - apply IH. intros x y Hx Hy. apply H; right; assumption.
  - rewrite Forall_forall in *. intros y Hy. apply in_map_iff in Hy.
    destruct Hy as [x [<- Hx]]. apply H; [left; reflexivity | right; exact Hx | apply Ha, Hx].
Qed.

Lemma StronglySorted_flat_map {A B : Type} (R : A -> A -> Prop) (f : A -> list B)
    (keyof : B -> A) (order : list A) :
  (forall k, R k k) ->
  (forall k c, In c (f k) -> keyof c = k) ->
  StronglySorted R order ->
  StronglySorted (fun c c' => R (keyof c) (keyof c')) (flat_map f order).
Proof.
  intros Hrefl Hkey Hs. induction Hs as [|k order Ho IH Hk]; [constructor|]. simpl.
  apply StronglySorted_app; [|exact IH|].
  - assert (forall l, (forall c, In c l -> keyof c = k) ->
                      StronglySorted (fun c c' => R (keyof c) (keyof c')) l) as Hsame.
    { induction l as [|c l IHl]; intros Hl; constructor.
      - apply IHl. intros; apply Hl; right; assumption.
      - rewrite Forall_forall. intros c' Hc'.
        rewrite (Hl c (or_introl eq_refl)), (Hl c' (or_intror Hc')). apply Hrefl. }
    apply Hsame. intros c Hc. apply Hkey, Hc.
  - intros x y Hx Hy. apply in_flat_map in Hy. destruct Hy as [k' [Hk' Hy]].
    rewrite (Hkey k x Hx), (Hkey k' y Hy). rewrite Forall_forall in Hk. apply Hk, Hk'.
Qed.

(** The values of a level come in the descending order of their counts. *)
Lemma sort_values_desc_sorted {K : Type} (cnt : K -> nat) (keys : list K) :
  StronglySorted (fun k1 k2 => cnt k2 <= cnt k1)
    (sort_values_desc (List.map (fun k => (k, cnt k)) keys)).
Proof.
  unfold sort_values_desc.
  set (s := List.map (fun k => (k, cnt k)) keys).
  assert (StronglySorted (fun a b : K * nat => snd a <= snd b)
            (pd.sort (fun a b => (snd a <=? snd b)%nat) s)) as Hs.
  { eapply StronglySorted_weaken; [|apply sort_StronglySorted].
    - intros a b H. apply Nat.leb_le, H.
    - intros a b. destruct (Nat.le_ge_cases (snd a) (snd b)); [left | right]; apply Nat.leb_le; assumption.
    - intros a b c H1 H2. apply Nat.leb_le. apply Nat.leb_le in H1, H2. lia. }
  apply StronglySorted_rev in Hs.
  eapply StronglySorted_map; [|exact Hs].
  intros x y Hx Hy Hxy. cbv beta in Hxy.
  assert (forall z, In z (rev (pd.sort (fun a b => (snd a <=? snd b)%nat) s)) -> snd z = cnt (fst z)) as Hz.
  { intros z Hin. apply in_rev in Hin. apply (Permutation_in _ (sort_is_Permutation _ _)) in Hin.
    apply in_map_iff in Hin. destruct Hin as [k [<- _]]. reflexivity. }
  rewrite <- (Hz x Hx), <- (Hz y Hy). exact Hxy.
Qed.

(** X15. In the table [reorder_data] returns, the transcription factors come
    in the descending order of their counts: a column never stands before
    a column of a transcription factor with more counted values. *)
Theorem reorder_data_tf_order (df : pd.TargetFrame) :
  StronglySorted (fun c1 c2 => tf_total df (pd.tf_of (pd.label c2))
                               <= tf_total df (pd.tf_of (pd.label c1)))
    (pd.columns (reorder_data df)).
Proof.
  unfold reorder_data, reindex_level0, pd.derive. cbn [pd.columns].
  unfold take_by at 1.
  apply (StronglySorted_flat_map (fun t1 t2 => tf_total df t2 <= tf_total df t1) _
           (fun c => pd.tf_of (pd.label c))).
  - intros k. apply Nat.le_refl.
  - intros k c Hc. apply filter_In in Hc. destruct Hc as [_ Hc].
    apply String.eqb_eq in Hc. symmetry. exact Hc.
  - unfold level_counts. apply (sort_values_desc_sorted (tf_total df)).
Qed.

(** *** Below a transcription factor, the analyses come in the order of their counts *)

Lemma StronglySorted_blocks {A B : Type} (R : B -> B -> Prop) (f : A -> list B)
    (order : list A) :
  StronglySorted (fun k1 k2 => forall x y, In x (f k1) -> In y (f k2) -> R x y) order ->
  (forall k, In k order -> StronglySorted R (f k)) ->
  StronglySorted R (flat_map f order).
Proof.
  induction 1 as [|k order Ho IH Hk]; intros Hin; [constructor|]. simpl.
  apply StronglySorted_app.
  - apply Hin. left. reflexivity.
  - apply IH. intros k' Hk'. apply Hin. right. exact Hk'.
  - intros x y Hx Hy. apply in_flat_map in Hy. destruct Hy as [k' [Hk' Hy]].
    rewrite Forall_forall in Hk. exact (Hk k' Hk' x y Hx Hy).
Qed.

Lemma NoDup_StronglySorted {A : Type} (l : list A) :
  NoDup l -> StronglySorted (fun a b => a <> b) l.
Proof.
  induction 1 as [|a l Ha Hl IH]; constructor; [exact IH|].
  rewrite Forall_forall. intros b Hb ->. contradiction.
Qed.

Lemma StronglySorted_same {A : Type} (R : A -> A -> Prop) (l : list A) :
  (forall x y, In x l -> In y l -> R x y) -> StronglySorted R l.
Proof.
  induction l as [|a l IH]; intros H; constructor.
  - apply IH. intros x y Hx Hy. apply H; right; assumption.
  - rewrite Forall_forall. intros y Hy. apply H; [left; reflexivity | right; exact Hy].
Qed.

(** X24. In the table [reorder_data] returns, below one transcription
    factor the analyses come in the descending order of their counts: a
    column never stands before a column of the same transcription factor
    whose analysis has more counted values. *)
Theorem reorder_data_analysis_order (df : pd.TargetFrame) :
  tf_adjacent df ->
  StronglySorted
    (fun c1 c2 =>
       pd.tf_of (pd.label c1) = pd.tf_of (pd.label c2) ->
       forall a1 a2, pd.analysis_of (pd.label c1) = Some a1 ->
                     pd.analysis_of (pd.label c2) = Some a2 ->
                     analysis_total df a2 <= analysis_total df a1)
    (pd.columns (reorder_data df)).
Proof.
  intros Hadj. rewrite (reorder_data_groups df Hadj).
  assert (forall t a c, In c (filter (pd.in_group (t, a)) (pd.columns df)) ->
                        pd.tf_of (pd.label c) = t /\ pd.analysis_of (pd.label c) = Some a) as Hgroup.
  { intros t a c Hc. apply filter_In in Hc. destruct Hc as [_ Hc].
    rewrite in_group_split in Hc. apply andb_true_iff in Hc. destruct Hc as [H1 H2].
    apply String.eqb_eq in H1. destruct (pd.analysis_of (pd.label c)) as [a'|]; [|discriminate].
    apply Z.eqb_eq in H2. subst. auto. }
  apply StronglySorted_blocks.
  - eapply StronglySorted_weaken;
      [|apply NoDup_StronglySorted, (level_order_NoDup String.eqb _ String.eqb_eq)].
    intros t1 t2 Hne x y Hx Hy Htf. exfalso.
    apply in_flat_map in Hx, Hy. destruct Hx as [a1 [_ Hx]], Hy as [a2 [_ Hy]].
    apply Hgroup in Hx, Hy. destruct Hx as [Hx _], Hy as [Hy _]. congruence.
  - intros t _. apply StronglySorted_blocks.
    + eapply StronglySorted_weaken;
        [|unfold level_counts; apply (sort_values_desc_sorted (analysis_total df))].
      intros a1 a2 Hle x y Hx Hy _ b1 b2 E1 E2.
      apply Hgroup in Hx, Hy. destruct Hx as [_ Hx], Hy as [_ Hy].
      assert (b1 = a1) as -> by congruence. assert (b2 = a2) as -> by congruence. exact Hle.
    + intros a _. apply StronglySorted_same. intros x y Hx Hy _ b1 b2 E1 E2.
      apply Hgroup in Hx, Hy. destruct Hx as [_ Hx], Hy as [_ Hy].
      assert (b1 = b2) as -> by congruence. apply Nat.le_refl.
Qed.

(** *** The metadata table *)

Lemma has_duplicate_keys_functional (m : Metadata) :
  has_duplicate_keys m = false ->
  forall a k v v', In (a, k, v) m -> In (a, k, v') m -> v = v'.
Proof.
  induction m as [|x m IH]; intros H a k v v' H1 H2; [contradiction|].
  simpl in H. apply orb_false_iff in H. destruct H as [Hx Hm].
  assert (forall y, In y m -> fst (fst x) = fst (fst y) -> snd (fst x) = snd (fst y) -> False) as Hnot.
  { intros y Hy E1 E2.
    assert (existsb (fun y => Z.eqb (fst (fst x)) (fst (fst y))
                              && String.eqb (snd (fst x)) (snd (fst y))) m = true) as Hex.
    { apply existsb_exists. exists y. split; [exact Hy|].
      rewrite E1, E2, Z.eqb_refl, String.eqb_refl. reflexivity. }
    congruence. }
  destruct H1 as [->|H1], H2 as [E|H2].
  - congruence.
  - exfalso. exact (Hnot _ H2 eq_refl eq_refl).
  - subst x. exfalso. exact (Hnot _ H1 eq_refl eq_refl).
  - exact (IH Hm a k v v' H1 H2).
Qed.

Section MetadataTable.

Variable data : db.Database.

(** X16. The metadata [get_metadata] returns: for every analysis asked for
    that exists, the gene id and the gene name of its transcription factor
    and each of its annotations; every entry is of an analysis asked for;
    an analysis has one value per key. *)
Theorem get_metadata_covers (ids : list (option Z)) (m : Metadata) :
  get_metadata data ids = inr m ->
  (forall an, In an (db.Analysis data) -> In (Some (db.id an)) ids ->
     In (db.id an, "GENE_ID", db.tf__gene_id an) m
     /\ In (db.id an, "GENE_NAME", db.tf__name an) m
     /\ forall d, In d (db.AnalysisData data) -> db.analysisdata__analysis_id d = db.id an ->
          In (db.id an, db.analysisdata__key__name d, db.analysisdata__value d) m)
  /\ (forall a k v, In (a, k, v) m ->
        In (Some a) ids /\ exists an, In an (db.Analysis data) /\ db.id an = a)
  /\ (forall a k v v', In (a, k, v) m -> In (a, k, v') m -> v = v').
Proof.
  unfold get_metadata.
  set (analyses := filter _ (db.Analysis data)).
  assert (forall an, In an analyses <-> In an (db.Analysis data) /\ In (Some (db.id an)) ids) as Han.
  { intros an. unfold analyses. rewrite filter_In, existsb_exists. split.
    - intros [H [[z|] [Hz E]]]; [|discriminate]. apply Z.eqb_eq in E. subst z. auto.
    - intros [H1 H2]. split; [exact H1|]. exists (Some (db.id an)). split; [exact H2|].
      apply Z.eqb_refl. }
  destruct (has_duplicate_keys _) eqn:Hdup; [discriminate|].
  intros H. injection H as <-. split; [|split].
  - intros an H1 H2. assert (In an analyses) as Hin by (apply Han; auto).
    split; [|split].
    + apply in_or_app. right. apply in_or_app. left.
      apply in_map_iff. exists an. auto.
    + apply in_or_app. right. apply in_or_app. right.
      apply in_map_iff. exists an. auto.
    + intros d Hd E. apply in_or_app. left. apply in_flat_map. exists an. split; [exact Hin|].
      apply in_map_iff. exists d. split; [reflexivity|].
      apply filter_In. split; [exact Hd | apply Z.eqb_eq, E].
  - intros a k v H.
    assert (exists an, In an analyses /\ db.id an = a) as [an [Hin E]].
    { apply in_app_or in H. destruct H as [H|H].
      - apply in_flat_map in H. destruct H as [an [Hin H]].
        apply in_map_iff in H. destruct H as [d [E _]]. exists an. split; [exact Hin | congruence].
      - apply in_app_or in H. destruct H as [H|H];
          apply in_map_iff in H; destruct H as [an [E Hin]]; exists an;
          (split; [exact Hin | congruence]). }
    apply Han in Hin. destruct Hin as [H1 H2]. subst a. split; [exact H2|]. exists an. auto.
  - apply has_duplicate_keys_functional, Hdup.
Qed.

End MetadataTable.

(** *** Counts and statistics *)

Lemma length_filter_sum {A : Type} (p : A -> bool) (l : list A) :
  length (filter p l) = list_sum (List.map (fun x => if p x then 1 else 0) l).
Proof.
  induction l as [|a l IH]; [reflexivity|]. simpl. destruct (p a); simpl; rewrite IH; reflexivity.
Qed.

Lemma list_sum_map_add {A : Type} (f g : A -> nat) (l : list A) :
  list_sum (List.map (fun x => f x + g x) l) = list_sum (List.map f l) + list_sum (List.map g l).
Proof. induction l as [|a l IH]; [reflexivity|]. simpl. rewrite IH. lia. Qed.

Lemma list_sum_map_zero {A : Type} (l : list A) : list_sum (List.map (fun _ => 0) l) = 0.
Proof. induction l as [|a l IH]; [reflexivity | exact IH]. Qed.

Lemma list_sum_exchange {A B : Type} (f : A -> B -> nat) (la : list A) (lb : list B) :
  list_sum (List.map (fun a => list_sum (List.map (f a) lb)) la)
  = list_sum (List.map (fun b => list_sum (List.map (fun a => f a b) la)) lb).
Proof.
  induction la as [|a la IH]; simpl.
  - rewrite list_sum_map_zero. reflexivity.
  - rewrite IH, <- list_sum_map_add. reflexivity.
Qed.

Lemma list_sum_flat_map {A B : Type} (g : B -> nat) (f : A -> list B) (l : list A) :
  list_sum (List.map g (flat_map f l)) = list_sum (List.map (fun x => list_sum (List.map g (f x))) l).
Proof.
  induction l as [|a l IH]; [reflexivity|]. simpl. rewrite map_app, list_sum_app, IH. reflexivity.
Qed.

(** The counts of the rows add up to the cells of the counted columns. *)
Lemma tf_counts_total (df : pd.TargetFrame) :
  list_sum (List.map (get_tf_count df) (pd.index df))
  = list_sum (List.map (pd.count_column (pd.index df)) (filter counted (pd.columns df))).
Proof.
  unfold get_tf_count, pd.count_column.
  rewrite (map_ext _ (fun r => list_sum (List.map (fun c => if pd.notna (pd.cells c r) then 1 else 0)
                                           (filter counted (pd.columns df))))).
  - rewrite list_sum_exchange. apply f_equal, map_ext. intros c. apply eq_sym, length_filter_sum.
  - intros r. rewrite <- length_filter_sum, filter_filter. reflexivity.
Qed.

(** X17. On a table whose counted columns all have an analysis id, the
    counts of [get_tf_count] over the rows add up to the totals of
    [get_stats] over the column groups. *)
Theorem tf_counts_add_up_to_stats (df : pd.TargetFrame) :
  (forall c, In c (pd.columns df) -> counted c = true -> pd.analysis_of (pd.label c) <> None) ->
  list_sum (List.map (get_tf_count df) (pd.index df))
  = list_sum (List.map snd (get_stats df)).
Proof.
  intros Hall. rewrite tf_counts_total. unfold get_stats. rewrite map_map. cbn [snd].
  set (cols := filter counted (pd.columns df)).
  set (ks := groups (pd.new_frame (pd.index df) cols)).
  rewrite (map_ext _ (fun k => list_sum (List.map (pd.count_column (pd.index df))
                                           (filter (pd.in_group k) cols)))).
  2:{ intros k. unfold cols. rewrite filter_filter. reflexivity. }
  rewrite <- list_sum_flat_map.
  apply Permutation_list_sum, Permutation_map. symmetry.
  assert (forall a b, pd.key_eqb a b = true <-> a = b) as Heq
    by (intros a b; split; [apply key_eqb_eq | intros ->; apply key_eqb_refl]).
  change (flat_map (fun k => filter (pd.in_group k) cols) ks)
    with (take_by pd.key_eqb pd.group_key ks cols).
  rewrite (take_by_Permutation pd.key_eqb pd.group_key Heq).
  - rewrite filter_all; [reflexivity|]. intros c Hc. unfold keyed.
    apply filter_In in Hc as Hc'. destruct Hc' as [Hin Hcnt]. specialize (Hall c Hin Hcnt).
    unfold pd.group_key. destruct (pd.analysis_of (pd.label c)) as [a|] eqn:Ea; [|congruence].
    apply existsb_exists. exists (pd.tf_of (pd.label c), a). split; [|apply key_eqb_refl].
    unfold ks, groups. apply In_sort. apply (proj2 (In_dedup pd.key_eqb Heq _ _)).
    apply in_flat_map. exists (pd.label c). split; [apply in_map, Hc|].
    unfold pd.group_key. rewrite Ea. left. reflexivity.
  - unfold ks, groups. eapply Permutation_NoDup; [symmetry; apply sort_is_Permutation|].
    apply NoDup_dedup, Heq.
Qed.

(** *** The assembled result *)

Lemma append_cancel_l (p a b : string) : p ++ a = p ++ b -> a = b.
Proof. induction p as [|c p IH]; simpl; intros H; [exact H | injection H as H; auto]. Qed.

Lemma read_pickle_other (path path' : string) (x : Pickle) (fs : Files) :
  path' <> path -> read_pickle path (to_pickle path' x fs) = read_pickle path fs.
Proof.
  intros H. unfold read_pickle, to_pickle. simpl.
  destruct (String.eqb path' path) eqn:E; [apply String.eqb_eq in E; contradiction | reflexivity].
Qed.

Lemma read_pickle_same (path : string) (x : Pickle) (fs : Files) :
  read_pickle path (to_pickle path x fs) = inr x.
Proof. unfold read_pickle, to_pickle. simpl. rewrite String.eqb_refl. reflexivity. Qed.

Section ResultAssembly.

Variable data : db.Database.
Variable add_edges : list Long -> list string -> Exn + list Long.
Variable float : string -> option Q.
Variable has_add_edges : pd.TargetFrame -> string -> Exn + pd.Mask.
Variable uuid4 : nat -> string.
Variable filter_raises_IndexError : pd.TargetFrame -> bool.
Variable annotations : string -> option (list string).

Local Abbreviation run_parse_query :=
  (parse_query data add_edges float has_add_edges uuid4 filter_raises_IndexError).

Local Abbreviation run_get_query_result :=
  (get_query_result data add_edges float has_add_edges uuid4 filter_raises_IndexError
     annotations).

(** The rows of an assembled table come in descending order of their
    count. *)
Lemma assemble_sorted (result : pd.TargetFrame) (user_lists : option UserLists) :
  StronglySorted (fun a b => out_tf_count b <= out_tf_count a)
    (snd (assemble annotations result user_lists)).
Proof.
  unfold assemble. cbn [snd].
  eapply StronglySorted_weaken;
    [|apply (sort_StronglySorted (fun a b => (out_tf_count b <=? out_tf_count a)%nat))].
  - intros a b H. apply Nat.leb_le, H.
  - intros a b. destruct (Nat.le_ge_cases (out_tf_count b) (out_tf_count a)) as [H|H];
      [left | right]; apply Nat.leb_le, H.
  - intros a b c H1 H2. apply Nat.leb_le. apply Nat.leb_le in H1, H2. lia.
Qed.

(** Whatever [get_query_result] returns, it went through the assembly of
    a table. *)
Lemma get_query_result_assembled (query : option string) (user_lists : option UserLists)
    (tf_filter_list edges : option (list string)) (cache_path : option string)
    (size_limit : option nat) (fs fs' : Files) (out : Output) :
  run_get_query_result query user_lists tf_filter_list edges cache_path size_limit fs
  = (fs', inr out) ->
  exists result u, fst (fst out) = assemble annotations result u.
Proof.
  unfold get_query_result. intros H.
  repeat match type of H with
         | (_, inl _) = _ => discriminate
         | (if ?c then _ else _) = _ => destruct c
         | match ?x with _ => _ end = _ => destruct x
         end;
    injection H as _ <-; eexists; eexists; reflexivity.
Qed.

(** X18. Whatever [get_query_result] returns, from a query or from the
    cache, its rows come in the descending order of their count. *)
Theorem result_sorted_by_tf_count (query : option string) (user_lists : option UserLists)
    (tf_filter_list edges : option (list string)) (cache_path : option string)
    (size_limit : option nat) (fs fs' : Files) (out : Output) :
  run_get_query_result query user_lists tf_filter_list edges cache_path size_limit fs
  = (fs', inr out) ->
  StronglySorted (fun a b => out_tf_count b <= out_tf_count a) (snd (fst (fst out))).
Proof.
  intros H. destruct (get_query_result_assembled _ _ _ _ _ _ _ _ _ H) as [result [u ->]].
  apply assemble_sorted.
Qed.


(** The rows without user lists: one per row of the table, with its cells,
    its count and its annotation; the columns are those of the table. *)
Lemma assemble_rows (result : pd.TargetFrame) :
  fst (assemble annotations result None) = pd.labels result
  /\ Permutation (List.map out_gene (snd (assemble annotations result None))) (pd.index result)
  /\ forall row, In row (snd (assemble annotations result None)) ->
       out_cells row = pd.row result (out_gene row)
       /\ out_tf_count row = get_tf_count result (out_gene row)
       /\ out_annotation row = annotations (out_gene row)
       /\ out_user_list row = None.
Proof.
  unfold assemble. cbn [fst snd]. split; [reflexivity|]. split.
  - rewrite (Permutation_map out_gene (sort_is_Permutation _ _)).
    rewrite map_map. cbn [out_gene]. rewrite map_id. reflexivity.
  - intros row Hrow.
    apply (Permutation_in _ (sort_is_Permutation _ _)) in Hrow.
    apply in_map_iff in Hrow. destruct Hrow as [g [<- _]]. cbn.
    repeat split.
Qed.

(** X19. Without user lists, the result of a query has the columns of the
    reordered table of the query and one row per row of that table, with
    its cells, its count, its annotation and no user list; the statistics
    are those of that table. *)
Theorem result_rows_without_user_lists (query : string)
    (tf_filter_list edges : option (list string)) (cache_path : option string)
    (size_limit : option nat) (fs fs' : Files) (result : pd.TargetFrame)
    (labels : list pd.Label) (rows : list OutRow) (metadata : Metadata)
    (stats : list (string * Z * nat)) :
  run_parse_query query edges tf_filter_list None = inr result ->
  run_get_query_result (Some query) None tf_filter_list edges cache_path size_limit fs
  = (fs', inr ((labels, rows), metadata, stats)) ->
  labels = pd.labels result
  /\ Permutation (List.map out_gene rows) (pd.index result)
  /\ (forall row, In row rows ->
        out_cells row = pd.row result (out_gene row)
        /\ out_tf_count row = get_tf_count result (out_gene row)
        /\ out_annotation row = annotations (out_gene row)
        /\ out_user_list row = None)
  /\ stats = get_stats result.
Proof.
  intros Hq H. unfold get_query_result in H. rewrite Hq in H.
  destruct (get_metadata data _) as [e|md]; [discriminate|].
  destruct (pd.empty result); [discriminate|].
  match type of H with
  | (if ?c then _ else _) = _ => destruct c; [discriminate|]
  end.
  injection H as _ Hl Hr _ Hs.
  destruct (assemble_rows result) as [H1 [H2 H3]].
  unfold assemble in H1, H2, H3. cbn [fst snd] in H1, H2, H3.
  rewrite Hr in H2, H3. rewrite <- Hl, <- Hs. auto.
Qed.

(** X20. With user lists, every row of the result is a gene of the user
    lists that the table of the query has, with the name and the count of
    its entry in the user lists. *)
Theorem result_rows_with_user_lists (query : string) (u : UserLists)
    (tf_filter_list edges : option (list string)) (cache_path : option string)
    (size_limit : option nat) (fs fs' : Files) (result : pd.TargetFrame) (out : Output) :
  run_parse_query query edges tf_filter_list None = inr result ->
  run_get_query_result (Some query) (Some u) tf_filter_list edges cache_path size_limit fs
  = (fs', inr out) ->
  forall row, In row (snd (fst (fst out))) ->
    In (out_gene row) (pd.index result)
    /\ exists name count,
         In (out_gene row, name, count) u /\ out_user_list row = Some (name, count).
Proof.
  intros Hq H row Hrow. unfold get_query_result in H. rewrite Hq in H.
  destruct (get_metadata data _) as [e|md]; [discriminate|].
  match type of H with
  | (if ?c then _ else _) = _ => destruct c; [discriminate|]
  end.
  match type of H with
  | (if ?c then _ else _) = _ => destruct c; [discriminate|]
  end.
  injection H as _ <-. cbn [fst snd] in Hrow. unfold assemble in Hrow. cbn [snd] in Hrow.
  apply (Permutation_in _ (sort_is_Permutation _ _)) in Hrow.
  apply (Permutation_in _ (sort_is_Permutation _ _)) in Hrow.
  apply in_flat_map in Hrow. destruct Hrow as [[[g name] count] [Hu Hrow]].
  cbn [fst snd] in Hrow.
  destruct (pd.isin g _) eqn:E; [|contradiction].
  destruct Hrow as [<-|[]]. cbn [out_gene out_user_list].
  split.
  - apply isin_In in E. unfold pd.dropna_columns, pd.loc_rows, pd.derive in E.
    cbn [pd.index] in E. apply filter_In in E. apply E.
  - exists name, count. auto.
Qed.

(** The three files of a cache directory have different names. *)
Lemma cache_paths_differ (p : string) :
  p ++ "/metadata.pickle.gz" <> p ++ "/tabular_output.pickle.gz"
  /\ p ++ "/metadata.pickle.gz" <> p ++ "/tabular_output_unfiltered.pickle.gz"
  /\ p ++ "/tabular_output.pickle.gz" <> p ++ "/tabular_output_unfiltered.pickle.gz"
  /\ p ++ "/metadata.pickle.gz" <> p ++ "/target_genes.pickle.gz"
  /\ p ++ "/tabular_output.pickle.gz" <> p ++ "/target_genes.pickle.gz"
  /\ p ++ "/tabular_output_unfiltered.pickle.gz" <> p ++ "/target_genes.pickle.gz".
Proof.
  repeat split; intros H; apply append_cancel_l in H; discriminate.
Qed.

(** X21. A result computed for a query with a cache directory (not the
    empty path) is read back from that directory: a later call without
    query on the files left by the first one returns the same result,
    when the directory holds no file of target genes. *)
Theorem cached_result_is_read_back (query : string) (user_lists : option UserLists)
    (tf_filter_list edges tf_filter_list' edges' : option (list string))
    (p : string) (size_limit : option nat) (fs fs' : Files) (out : Output) :
  p <> "" ->
  read_pickle (p ++ "/target_genes.pickle.gz") fs
  = inl (FileNotFoundError (p ++ "/target_genes.pickle.gz")) ->
  run_get_query_result (Some query) user_lists tf_filter_list edges (Some p) size_limit fs
  = (fs', inr out) ->
  run_get_query_result None user_lists tf_filter_list' edges' (Some p) size_limit fs'
  = (fs', inr out).
Proof.
  intros Hp Hgenes H.
  destruct (cache_paths_differ p) as [D1 [D2 [D3 [D4 [D5 D6]]]]].
  unfold get_query_result in H.
  destruct (run_parse_query query edges tf_filter_list None) as [e|result]; [discriminate|].
  destruct (get_metadata data _) as [e|md]; [discriminate|].
  destruct p as [|c p]; [congruence|].
  match type of H with
  | (if pd.empty ?r then _ else _) = _ => set (filtered := r) in *
  end.
  destruct (pd.empty filtered); [discriminate|].
  destruct (match size_limit with
            | Some limit => (limit <? pd.size filtered)%nat
            | None => false
            end) eqn:Esize; [discriminate|].
  injection H as <- <-.
  unfold get_query_result, read_table, read_metadata.
  rewrite (read_pickle_other _ _ _ _ D1), read_pickle_same.
  rewrite read_pickle_same.
  rewrite (read_pickle_other _ _ _ _ D2), (read_pickle_other _ _ _ _ D3), read_pickle_same.
  rewrite (read_pickle_other _ _ _ _ D4), (read_pickle_other _ _ _ _ D5),
    (read_pickle_other _ _ _ _ D6), Hgenes.
  rewrite Esize. reflexivity.
Qed.

End ResultAssembly.

(** *** The uploaded gene lists *)

Lemma In_set_add (v x : string) (s : list string) :
  In x (file.set_add v s) <-> In x s \/ x = v.
Proof.
  unfold file.set_add. destruct (pd.isin v s) eqn:E.
  - apply isin_In in E. split; [auto|]. intros [H| ->]; assumption.
  - rewrite in_app_iff. simpl. intuition.
Qed.

Lemma NoDup_set_add (v : string) (s : list string) : NoDup s -> NoDup (file.set_add v s).
Proof.
  intros H. unfold file.set_add. destruct (pd.isin v s) eqn:E; [exact H|].
  apply NoDup_app; [exact H | repeat constructor; intros [] |].
  intros x Hx [<-|[]]. apply isin_In in Hx. congruence.
Qed.

Lemma set_add_not_nil (v : string) (s : list string) : file.set_add v s <> [].
Proof.
  unfold file.set_add. destruct (pd.isin v s) eqn:E.
  - intros ->. discriminate.
  - destruct s; discriminate.
Qed.

Lemma member_cons (k0 : string) (s0 : list string) (d : file.Dict) (k x : string) :
  member ((k0, s0) :: d) k x <-> (k = k0 /\ In x s0) \/ member d k x.
Proof.
  unfold member. simpl. split.
  - intros [s [[E|H] Hx]]; [injection E as -> ->; auto | right; exists s; auto].
  - intros [[-> Hx]|[s [H Hx]]]; [exists s0; auto | exists s; auto].
Qed.

Lemma member_nil (k x : string) : member [] k x <-> False.
Proof. unfold member. split; [intros [s [[] _]] | intros []]. Qed.

Lemma setdefault_add_member (k v k' x : string) (d : file.Dict) :
  member (file.setdefault_add k v d) k' x <-> member d k' x \/ (k' = k /\ x = v).
Proof.
  induction d as [|[k0 s0] d IH]; simpl.
  - rewrite member_cons, !member_nil. simpl. intuition.
  - destruct (String.eqb k0 k) eqn:E.
    + apply String.eqb_eq in E. subst k0. rewrite !member_cons, In_set_add. intuition.
    + rewrite !member_cons, IH. intuition.
Qed.

Lemma setdefault_add_keys (k v : string) (d : file.Dict) :
  List.map fst (file.setdefault_add k v d)
  = if pd.isin k (List.map fst d) then List.map fst d else (List.map fst d ++ [k])%list.
Proof.
  induction d as [|[k0 s0] d IH]; [reflexivity|]. simpl.
  unfold pd.isin in *. simpl. rewrite (String.eqb_sym k k0).
  destruct (String.eqb k0 k); simpl; [reflexivity|].
  rewrite IH. destruct (existsb (String.eqb k) (List.map fst d)); reflexivity.
Qed.

Lemma setdefault_add_entry (k v k' : string) (s' : list string) (d : file.Dict) :
  In (k', s') (file.setdefault_add k v d) ->
  In (k', s') d \/ (exists s, In (k', s) d /\ s' = file.set_add v s) \/ s' = [v].
Proof.
  induction d as [|[k0 s0] d IH]; simpl.
  - intros [E|[]]. injection E as <- <-. auto.
  - destruct (String.eqb k0 k).
    + intros [E|H]; [|auto]. injection E as <- <-. right. left. exists s0. auto.
    + intros [E|H]; [auto|]. destruct (IH H) as [H1|[[s [H1 H2]]|H1]]; auto.
      right. left. exists s. auto.
Qed.

Lemma setdefault_add_well_formed (k v : string) (d : file.Dict) :
  well_formed d -> well_formed (file.setdefault_add k v d).
Proof.
  intros [Hk Hs]. split.
  - rewrite setdefault_add_keys. destruct (pd.isin k (List.map fst d)) eqn:E; [exact Hk|].
    apply NoDup_app; [exact Hk | repeat constructor; intros [] |].
    intros x Hx [<-|[]]. apply isin_In in Hx. congruence.
  - intros k' s' H. destruct (setdefault_add_entry _ _ _ _ _ H) as [H1|[[s [H1 ->]]| ->]].
    + exact (Hs k' s' H1).
    + split; [apply NoDup_set_add, (Hs k' s H1) | apply set_add_not_nil].
    + split; [repeat constructor; intros [] | discriminate].
Qed.

Lemma read_line_inverse (st : string * file.Dict * file.Dict) (line : string) :
  inverse_tables st -> inverse_tables (file.read_line st line).
Proof.
  destruct st as [[list_name g2n] n2g]. intros [H1 [H2 H3]]. unfold file.read_line.
  destruct (file.startswith ">" (file.strip line)); [exact (conj H1 (conj H2 H3))|].
  split; [apply setdefault_add_well_formed, H1|].
  split; [apply setdefault_add_well_formed, H2|].
  intros g name. cbn [fst snd] in *. rewrite !setdefault_add_member, H3. tauto.
Qed.

Lemma read_lines_inverse (lines : list string) (st : string * file.Dict * file.Dict) :
  inverse_tables st -> inverse_tables (fold_left file.read_line lines st).
Proof.
  revert st. induction lines as [|line lines IH]; intros st H; [exact H|].
  simpl. apply IH, read_line_inverse, H.
Qed.

Lemma read_lines_genes (lines : list string) (st : string * file.Dict * file.Dict) (g : string) :
  In g (List.map fst (snd (fst (fold_left file.read_line lines st))))
  <-> In g (List.map fst (snd (fst st)))
      \/ exists line, In line lines /\ file.strip line = g /\ file.startswith ">" g = false.
Proof.
  revert st. induction lines as [|line lines IH]; intros st; simpl.
  - split; [auto|]. intros [H|[line [[] _]]]. exact H.
  - rewrite IH. destruct st as [[list_name g2n] n2g]. unfold file.read_line.
    destruct (file.startswith ">" (file.strip line)) eqn:E; cbn [fst snd].
    + split.
      * intros [H|[l [Hl H]]]; [auto|]. right. exists l. auto.
      * intros [H|[l [[<-|Hl] [H1 H2]]]]; [auto| |].
        -- rewrite H1 in E. congruence.
        -- right. exists l. auto.
    + rewrite setdefault_add_keys.
      assert (In g (if pd.isin (file.strip line) (List.map fst g2n)
                    then List.map fst g2n else (List.map fst g2n ++ [file.strip line])%list)
              <-> In g (List.map fst g2n) \/ file.strip line = g) as ->.
      { destruct (pd.isin _ _) eqn:Ei.
        - apply isin_In in Ei. split; [auto|]. intros [H|<-]; assumption.
        - rewrite in_app_iff. simpl. tauto. }
      split.
      * intros [[H|H]|[l [Hl H]]]; [auto| |].
        -- right. exists line. subst g. auto.
        -- right. exists l. auto.
      * intros [H|[l [[<-|Hl] [H1 H2]]]]; [auto|auto|].
        right. exists l. auto.
Qed.

(** X22. The two tables [get_gene_lists] returns: the genes are distinct
    and are the stripped lines of the file that do not start with the
    mark of a list name (an empty line is the gene with the empty name);
    the count of a gene is the number of lists that have it, at least
    one, and its lists are those under whose name the second table has the
    gene; the second table has distinct names and no empty list. *)
Theorem get_gene_lists_tables (iter : list string -> list string) (lines : list string) :
  let df := fst (file.get_gene_lists iter lines) in
  let name_to_gene := snd (file.get_gene_lists iter lines) in
  NoDup (user_genes df)
  /\ (forall g, In g (user_genes df) <->
                exists line, In line lines /\ file.strip line = g
                             /\ file.startswith ">" g = false)
  /\ (forall g user_list count, In (g, user_list, count) df ->
        1 <= count
        /\ exists names,
             NoDup names /\ length names = count
             /\ user_list = Str.join ", " (iter names)
             /\ forall name, In name names <-> member name_to_gene name g)
  /\ well_formed name_to_gene.
Proof.
  unfold file.get_gene_lists, file.read_lines. cbn [fst snd].
  assert (inverse_tables ("default_list", [], [])) as H0.
  { split; [split; [constructor | intros k s []]|].
    split; [split; [constructor | intros k s []]|].
    intros g name. split; intros [s [[] _]]. }
  pose proof (read_lines_inverse lines _ H0) as Hinv.
  pose proof (fun g => read_lines_genes lines ("default_list", [], []) g) as Hgenes.
  destruct (fold_left file.read_line lines ("default_list", [], [])) as [[list_name g2n] n2g].
  destruct Hinv as [[K1 S1] [W2 Hmem]]. cbn [fst snd] in *.
  assert (user_genes (file.gene_list_to_df iter g2n) = List.map fst g2n) as Hkeys.
  { unfold user_genes, file.gene_list_to_df. rewrite map_map. reflexivity. }
  split; [rewrite Hkeys; exact K1|]. split; [|split; [|exact W2]].
  - intros g. rewrite Hkeys, Hgenes. simpl. tauto.
  - intros g ul cnt H. unfold file.gene_list_to_df in H. apply in_map_iff in H.
    destruct H as [[g' s] [E Hin]]. cbn [fst snd] in E. injection E as -> <- <-.
    destruct (S1 g s Hin) as [Hnd Hne].
    split; [destruct s; [congruence | simpl; lia]|].
    exists s. split; [exact Hnd|]. split; [reflexivity|]. split; [reflexivity|].
    intros name. rewrite <- Hmem. split.
    + intros Hn. exists s. auto.
    + intros [s' [Hin' Hn]].
      assert (s' = s) as ->; [|exact Hn].
      clear - K1 Hin Hin'. induction g2n as [|[k0 s0] d IH]; [contradiction|].
      simpl in K1. inversion K1 as [|? ? Hnot Hd]; subst.
      destruct Hin as [E|Hin], Hin' as [E'|Hin'].
      * congruence.
      * injection E as -> ->. exfalso. apply Hnot. apply in_map_iff. exists (g, s'). auto.
      * injection E' as -> ->. exfalso. apply Hnot. apply in_map_iff. exists (g, s). auto.
      * exact (IH Hd Hin Hin').
Qed.

(** *** Column names *)

Lemma column_step_smaller (n : Z) : (0 < n -> 0 <= (n - 1) / 26 < n)%Z.
Proof.
  intros H. split; [apply Z.div_pos; lia | apply Z.div_lt_upper_bound; lia].
Qed.

Lemma column_string_loop_app (n : Z) (s : string) :
  column_string_loop n s = column_string_loop n "" ++ s.
Proof.
  revert s. induction n as [n IH] using (well_founded_induction (Z.lt_wf 0)). intros s.
  rewrite (column_string_loop_equation n s), (column_string_loop_equation n "").
  destruct (0 <? n)%Z eqn:E; [|reflexivity].
  apply Z.ltb_lt in E. pose proof (column_step_smaller n E) as Hq.
  rewrite (IH ((n - 1) / 26)%Z Hq (String _ s)), (IH ((n - 1) / 26)%Z Hq (String _ "")).
  rewrite append_assoc. reflexivity.
Qed.

Lemma column_string_step (n : Z) :
  (0 < n)%Z ->
  column_string n
  = column_string ((n - 1) / 26)
    ++ String (ascii_of_nat (65 + Z.to_nat ((n - 1) mod 26)%Z)) "".
Proof.
  intros H. unfold column_string at 1. rewrite column_string_loop_equation.
  apply Z.ltb_lt in H. rewrite H. apply column_string_loop_app.
Qed.

Lemma column_number_app (a : string) (c : ascii) :
  column_number (a ++ String c "")
  = (26 * column_number a + (Z.of_nat (nat_of_ascii c) - 64))%Z.
Proof.
  unfold column_number.
  assert (list_ascii_of_string (a ++ String c "") = (list_ascii_of_string a ++ [c])%list) as ->.
  { induction a as [|x a IH]; [reflexivity|]. simpl. rewrite IH. reflexivity. }
  rewrite fold_left_app. reflexivity.
Qed.

Lemma letter_code (r : Z) :
  (0 <= r < 26)%Z ->
  (Z.of_nat (nat_of_ascii (ascii_of_nat (65 + Z.to_nat r))) - 64 = r + 1)%Z
  /\ Str.is_upper (ascii_of_nat (65 + Z.to_nat r)) = true.
Proof.
  intros H. assert (exists k, (k < 26)%nat /\ r = Z.of_nat k) as [k [Hk ->]]
    by (exists (Z.to_nat r); lia).
  rewrite Nat2Z.id.
  do 26 (destruct k as [|k]; [split; reflexivity|]). lia.
Qed.

Lemma column_string_spec (n : Z) :
  (0 <= n)%Z ->
  column_number (column_string n) = n
  /\ all Str.is_upper (column_string n) = true
  /\ (column_string n = "" <-> n = 0%Z).
Proof.
  induction n as [n IH] using (well_founded_induction (Z.lt_wf 0)). intros Hn.
  destruct (Z.eq_dec n 0) as [->|Hne].
  - assert (column_string 0 = "") as ->
      by (unfold column_string; rewrite column_string_loop_equation; reflexivity).
    split; [reflexivity|]. split; [reflexivity|]. split; reflexivity.
  - assert (0 < n)%Z as Hpos by lia.
    pose proof (column_step_smaller n Hpos) as Hq.
    destruct (IH _ Hq (proj1 Hq)) as [IH1 [IH2 _]].
    assert (0 <= (n - 1) mod 26 < 26)%Z as Hr by (apply Z.mod_pos_bound; lia).
    destruct (letter_code _ Hr) as [Hc Hu].
    rewrite (column_string_step n Hpos). split; [|split].
    + rewrite column_number_app, IH1, Hc.
      pose proof (Z.div_mod (n - 1) 26). lia.
    + rewrite all_app, IH2. cbn [all andb]. rewrite Hu. reflexivity.
    + split; [|lia]. intros H. exfalso.
      destruct (column_string ((n - 1) / 26)); discriminate.
Qed.

(** X23. [column_string] on a number that is not negative gives a word of
    capital letters that stands for that number in base 26 with the digits
    1 to 26: the empty word for zero only, and different words for
    different numbers. *)
Theorem column_string_names (n m : Z) :
  (0 <= n)%Z -> (0 <= m)%Z ->
  column_number (column_string n) = n
  /\ all Str.is_upper (column_string n) = true
  /\ (column_string n = "" <-> n = 0%Z)
  /\ (column_string n = column_string m -> n = m).
Proof.
  intros Hn Hm. destruct (column_string_spec n Hn) as [H1 [H2 H3]].
  split; [exact H1|]. split; [exact H2|]. split; [exact H3|].
  intros H. rewrite <- H1, H. apply (column_string_spec m Hm).
Qed.

(** *** Runs on the sample data *)

Lemma sample_add_edges_joins_only : joins_only Sample.add_edges.
Proof. intros rows es rows' H. discriminate H. Qed.

Lemma word_query_is_a_fetch_witness :
  pp.parseString (pp.expr (pp.fuel_for "and")) "and" = pp.Ok [pp.PStr "and"] "".
Proof.
  apply (word_query_is_a_fetch Sample.data Sample.add_edges Sample.float Sample.has_add_edges
           Sample.uuid4 Sample.filter_raises_IndexError "and" None None None).
  - discriminate.
  - reflexivity.
Defined.

Lemma operator_word_first_raises_IndexError_witness :
  Sample.parse_query Sample.data "or and G1" = inl (IndexError "pop from an empty deque").
Proof.
  apply (operator_word_first_raises_IndexError Sample.data Sample.add_edges Sample.float
           Sample.has_add_edges Sample.uuid4 Sample.filter_raises_IndexError
           "or" "G1" None None None).
  - right. reflexivity.
  - discriminate.
  - reflexivity.
Defined.

Lemma get_tf_data_rows_witness :
  exists t,
    get_tf_data Sample.data Sample.add_edges "g2" None None (Some ["b"; "D"]) = inr t
    /\ pd.index t = ["B"; "D"]
    /\ forall r, In r (pd.index t) -> upper_isin r ["b"; "D"] = true.
Proof.
  eexists. split; [vm_compute; reflexivity|]. split; [reflexivity|].
  refine (proj1 (proj2 (proj2 (proj2
            (get_tf_data_rows Sample.data Sample.add_edges "g2" None None (Some ["b"; "D"]) _
               sample_add_edges_joins_only _)))) _ eq_refl).
  vm_compute. reflexivity.
Defined.

Lemma get_tf_data_columns_witness :
  exists t,
    get_tf_data Sample.data Sample.add_edges "g2" None None None = inr t
    /\ pd.filter_string t = "g2"
    /\ List.map pd.tf_of (pd.labels t) = ["g2"; "g2"].
Proof.
  eexists. split; [vm_compute; reflexivity|]. split; [|reflexivity].
  refine (proj1 (get_tf_data_columns Sample.data Sample.add_edges "g2" None None None _
                   sample_add_edges_joins_only _)).
  vm_compute. reflexivity.
Defined.

Lemma get_all_tf_respects_filters_witness :
  exists t,
    get_all_tf Sample.data Sample.add_edges "andalltfs" None None None = inr t
    /\ pd.index t = ["B"; "C"]
    /\ forall r c, In r (pd.index t) -> In c (pd.columns t) -> counted c = true ->
                   pd.notna (pd.cells c r) = true.
Proof.
  eexists. split; [vm_compute; reflexivity|]. split; [reflexivity|].
  refine (proj2 (proj2 (proj2 (proj2 (proj2
            (get_all_tf_respects_filters Sample.data Sample.add_edges "andalltfs" None None None _
               sample_add_edges_joins_only _))))) eq_refl).
  vm_compute. reflexivity.
Defined.

Lemma modifier_only_removes_witness :
  pd.index (Sample.evaluated
              (pp.PGroup [pp.PStr "G2"; pp.PModifier [pp.PMod "PVALUE" "<" "0.05"]]))
  = ["B"; "D"]
  /\ pd.filter_string
       (Sample.evaluated (pp.PGroup [pp.PStr "G2"; pp.PModifier [pp.PMod "PVALUE" "<" "0.05"]]))
     = pd.filter_string (Sample.evaluated (pp.PStr "G2"))
       ++ "[" ++ mod_to_str (pp.PModifier [pp.PMod "PVALUE" "<" "0.05"]) ++ "]".
Proof.
  split; [reflexivity|].
  destruct (modifier_only_removes Sample.data Sample.add_edges Sample.float Sample.has_add_edges
              Sample.uuid4 Sample.filter_raises_IndexError None None None
              (pp.PStr "G2") [pp.PMod "PVALUE" "<" "0.05"] 0 0 0
              (Sample.evaluated (pp.PStr "G2"))
              (Sample.evaluated
                 (pp.PGroup [pp.PStr "G2"; pp.PModifier [pp.PMod "PVALUE" "<" "0.05"]]))
              eq_refl eq_refl eq_refl)
    as [mask [_ [_ [_ [_ [_ [_ H]]]]]]].
  exact H.
Defined.

Lemma comparison_modifier_rows_witness :
  exists v k c,
    Sample.float "0.05" = Some v
    /\ In c (pd.columns (Sample.evaluated (pp.PStr "G2")))
    /\ pd.label_eqb (pd.label c) (fst k, Some (snd k), "Pvalue") = true
    /\ compare "<" (pd.cells c "D") v = Some (inr true).
Proof.
  apply (comparison_modifier_rows Sample.data Sample.add_edges Sample.float Sample.has_add_edges
           Sample.uuid4 Sample.filter_raises_IndexError None None None
           (pp.PStr "G2") "PVALUE" "<" "0.05" 0 0 0
           (Sample.evaluated (pp.PStr "G2"))
           (Sample.evaluated
              (pp.PGroup [pp.PStr "G2"; pp.PModifier [pp.PMod "PVALUE" "<" "0.05"]]))
           eq_refl (or_introl eq_refl) eq_refl eq_refl "D").
  right. left. reflexivity.
Defined.

Lemma has_column_modifier_columns_witness :
  pd.labels (Sample.evaluated
               (pp.PGroup [pp.PStr "G2"; pp.PModifier [pp.PMod "has_column" "=" "fc"]]))
  = [("G2", Some 2%Z, "Pvalue"); ("G2", Some 2%Z, "Log2FC")]
  /\ forall c,
       In c (pd.columns (Sample.evaluated
                           (pp.PGroup [pp.PStr "G2"; pp.PModifier [pp.PMod "has_column" "=" "fc"]]))) ->
       exists k,
         pd.group_key (pd.label c) = Some k
         /\ pd.label_in (fst k, Some (snd k), "Log2FC") (pd.labels (Sample.evaluated (pp.PStr "G2")))
            = true.
Proof.
  split; [reflexivity|].
  apply (has_column_modifier_columns Sample.data Sample.add_edges Sample.float Sample.has_add_edges
           Sample.uuid4 Sample.filter_raises_IndexError None None None
           (pp.PStr "G2") "has_column" "=" "fc" 0 0 0
           (Sample.evaluated (pp.PStr "G2"))
           (Sample.evaluated
              (pp.PGroup [pp.PStr "G2"; pp.PModifier [pp.PMod "has_column" "=" "fc"]]))
           eq_refl eq_refl eq_refl eq_refl eq_refl eq_refl eq_refl).
Defined.

Lemma metadata_modifier_keeps_annotated_witness :
  pd.labels (Sample.evaluated
               (pp.PGroup [pp.PStr "G1"; pp.PModifier [pp.PMod "edge_type" "=" "dap"]]))
  = [("G1", Some 1%Z, "EDGE")]
  /\ forall c,
       In c (pd.columns (Sample.evaluated
                           (pp.PGroup [pp.PStr "G1"; pp.PModifier [pp.PMod "edge_type" "=" "dap"]]))) ->
       exists a d,
         pd.analysis_of (pd.label c) = Some a
         /\ In d (db.AnalysisData Sample.data)
         /\ db.analysisdata__analysis_id d = a
         /\ Str.ieq (db.analysisdata__key__name d) "edge_type" = true
         /\ Str.ieq (db.analysisdata__value d) "dap" = true.
Proof.
  split; [reflexivity|].
  apply (metadata_modifier_keeps_annotated Sample.data Sample.add_edges Sample.float
           Sample.has_add_edges Sample.uuid4 Sample.filter_raises_IndexError None None None
           (pp.PStr "G1") "edge_type" "=" "dap" 0 0 0
           (Sample.evaluated (pp.PStr "G1"))
           (Sample.evaluated
              (pp.PGroup [pp.PStr "G1"; pp.PModifier [pp.PMod "edge_type" "=" "dap"]]))
           eq_refl eq_refl eq_refl eq_refl eq_refl eq_refl eq_refl).
Defined.

Lemma metadata_modifier_without_match_witness :
  Sample.parse_query Sample.data "G1[edge_type=chip]" = inl (QueryError "empty query")
  /\ (Sample.get_tf Sample.data
        (pp.PGroup [pp.PStr "G1"; pp.PModifier [pp.PMod "edge_type" "=" "chip"]]) 0
      = inl (IndexError "")
      \/ exists t,
           Sample.get_tf Sample.data
             (pp.PGroup [pp.PStr "G1"; pp.PModifier [pp.PMod "edge_type" "=" "chip"]]) 0
           = inr (t, 0)
           /\ pd.index t = [] /\ pd.columns t = [] /\ pd.empty t = true).
Proof.
  split; [reflexivity|].
  apply (metadata_modifier_without_match Sample.data Sample.add_edges Sample.float
           Sample.has_add_edges Sample.uuid4 Sample.filter_raises_IndexError None None None
           (pp.PStr "G1") "edge_type" "=" "chip" 0 0
           (Sample.evaluated (pp.PStr "G1"))
           eq_refl eq_refl eq_refl eq_refl eq_refl).
  - intros d Hd. vm_compute in Hd. destruct Hd as [<-|[<-|[]]]; reflexivity.
  - reflexivity.
Defined.

Lemma operator_only_read_by_comparisons_witness :
  match Sample.get_tf Sample.data
          (pp.PGroup [pp.PStr "G1"; pp.PModifier [pp.PMod "edge_type" "=" "dap"]]) 0,
        Sample.get_tf Sample.data
          (pp.PGroup [pp.PStr "G1"; pp.PModifier [pp.PMod "edge_type" "!=" "dap"]]) 0 with
  | inr (t1, n1), inr (t2, n2) =>
      n1 = n2 /\ pd.index t1 = pd.index t2 /\ pd.columns t1 = pd.columns t2
      /\ pd.include t1 = pd.include t2
  | inl e1, inl e2 => e1 = e2
  | _, _ => False
  end.
Proof.
  apply (operator_only_read_by_comparisons Sample.data Sample.add_edges Sample.float
           Sample.has_add_edges Sample.uuid4 Sample.filter_raises_IndexError None None None
           (pp.PStr "G1") "edge_type" "=" "!=" "dap" 0 eq_refl eq_refl eq_refl).
Defined.

Lemma modifier_and_negation_cover_witness :
  In "C" (pd.index (Sample.evaluated
                      (pp.PGroup [pp.PStr "G2"; pp.PModifier [pp.PMod "PVALUE" "<" "0.05"]])))
  \/ In "C" (pd.index (Sample.evaluated
                         (pp.PGroup [pp.PStr "G2";
                                     pp.PModifier [pp.PGroup [pp.PStr "not";
                                                              pp.PMod "PVALUE" "<" "0.05"]]]))).
Proof.
  apply (modifier_and_negation_cover Sample.data Sample.add_edges Sample.float
           Sample.has_add_edges Sample.uuid4 Sample.filter_raises_IndexError None None None
           (pp.PStr "G2") (pp.PMod "PVALUE" "<" "0.05") 0 0 0 0
           (Sample.evaluated (pp.PStr "G2"))
           (Sample.evaluated
              (pp.PGroup [pp.PStr "G2"; pp.PModifier [pp.PMod "PVALUE" "<" "0.05"]]))
           (Sample.evaluated
              (pp.PGroup [pp.PStr "G2";
                          pp.PModifier [pp.PGroup [pp.PStr "not"; pp.PMod "PVALUE" "<" "0.05"]]]))
           eq_refl eq_refl eq_refl eq_refl eq_refl "C").
  - right. left. reflexivity.
  - eexists. split; [left; reflexivity | reflexivity].
Defined.

Lemma get_tf_chain_left_to_right_witness :
  Sample.get_tf Sample.data
    (pp.PGroup [pp.PStr "G1"; pp.PStr "and"; pp.PStr "G2"; pp.PStr "or"; pp.PStr "G1"]) 0
  = bind (Sample.get_tf Sample.data (pp.PGroup [pp.PStr "G1"; pp.PStr "and"; pp.PStr "G2"]))
      (fun ab => bind (Sample.get_tf Sample.data (pp.PStr "G1"))
         (fun succ => binary Sample.uuid4 Sample.filter_raises_IndexError "or" ab succ)) 0.
Proof.
  apply (get_tf_chain_left_to_right Sample.data Sample.add_edges Sample.float
           Sample.has_add_edges Sample.uuid4 Sample.filter_raises_IndexError None None None
           (pp.PStr "G1") (pp.PStr "G2") (pp.PStr "G1") "and" "or" 0 eq_refl
           (or_introl eq_refl) (or_intror eq_refl)).
Defined.

Lemma reorder_data_permutes_columns_witness :
  Permutation (pd.columns (reorder_data (Sample.evaluated
                                           (pp.PGroup [pp.PStr "G1"; pp.PStr "or"; pp.PStr "G2"]))))
    (pd.columns (Sample.evaluated (pp.PGroup [pp.PStr "G1"; pp.PStr "or"; pp.PStr "G2"]))).
Proof.
  apply (reorder_data_permutes_columns
           (Sample.evaluated (pp.PGroup [pp.PStr "G1"; pp.PStr "or"; pp.PStr "G2"]))).
  intros c Hc. vm_compute in Hc.
  destruct Hc as [<-|[<-|[<-|[]]]]; discriminate.
Defined.

Lemma get_metadata_covers_witness :
  exists m,
    get_metadata Sample.data [Some 2%Z; None] = inr m
    /\ In (2%Z, "GENE_ID", "G2") m
    /\ In (2%Z, "GENE_NAME", "gene two") m.
Proof.
  eexists. split; [vm_compute; reflexivity|].
  destruct (proj1 (get_metadata_covers Sample.data [Some 2%Z; None] _ eq_refl)
              (db.mkAnalysis 2 20 "G2" "gene two")) as [H1 [H2 _]].
  - right. left. reflexivity.
  - left. reflexivity.
  - split; [exact H1 | exact H2].
Defined.

Lemma tf_counts_add_up_to_stats_witness :
  list_sum (List.map (get_tf_count (Sample.table "G1 or G2")) (pd.index (Sample.table "G1 or G2")))
  = 6%nat
  /\ list_sum (List.map snd (get_stats (Sample.table "G1 or G2"))) = 6%nat.
Proof.
  split; [reflexivity|].
  rewrite <- (tf_counts_add_up_to_stats (Sample.table "G1 or G2")); [reflexivity|].
  intros c Hc _. vm_compute in Hc.
  destruct Hc as [<-|[<-|[<-|[]]]]; discriminate.
Defined.

Lemma result_sorted_by_tf_count_witness :
  exists out,
    get_query_result Sample.data Sample.add_edges Sample.float Sample.has_add_edges
      Sample.uuid4 Sample.filter_raises_IndexError Sample.annotations
      (Some "G1 or G2") None None None None None []
    = ([], inr out)
    /\ List.map out_tf_count (snd (fst (fst out))) = [2; 2; 1; 1]%nat
    /\ StronglySorted (fun a b => out_tf_count b <= out_tf_count a) (snd (fst (fst out))).
Proof.
  eexists. split; [vm_compute; reflexivity|]. split; [reflexivity|].
  refine (result_sorted_by_tf_count Sample.data Sample.add_edges Sample.float Sample.has_add_edges
            Sample.uuid4 Sample.filter_raises_IndexError Sample.annotations
            (Some "G1 or G2") None None None None None [] [] _ _).
  vm_compute. reflexivity.
Defined.

Lemma result_rows_without_user_lists_witness :
  exists labels rows metadata stats,
    get_query_result Sample.data Sample.add_edges Sample.float Sample.has_add_edges
      Sample.uuid4 Sample.filter_raises_IndexError Sample.annotations
      (Some "G1 or G2") None None None None None []
    = ([], inr ((labels, rows), metadata, stats))
    /\ labels = pd.labels (Sample.table "G1 or G2")
    /\ Permutation (List.map out_gene rows) (pd.index (Sample.table "G1 or G2")).
Proof.
  edestruct (result_rows_without_user_lists Sample.data Sample.add_edges Sample.float
               Sample.has_add_edges Sample.uuid4 Sample.filter_raises_IndexError
               Sample.annotations "G1 or G2" None None None None [] []
               (Sample.table "G1 or G2")) as [H1 [H2 _]];
    [reflexivity | vm_compute; reflexivity |].
  do 4 eexists. split; [vm_compute; reflexivity|].
  split; [exact H1 | exact H2].
Defined.

Lemma result_rows_with_user_lists_witness :
  exists out,
    get_query_result Sample.data Sample.add_edges Sample.float Sample.has_add_edges
      Sample.uuid4 Sample.filter_raises_IndexError Sample.annotations
      (Some "G1 or G2") (Some [("D", "mine", 1%nat); ("E", "mine", 1%nat)]) None None None None []
    = ([], inr out)
    /\ List.map out_gene (snd (fst (fst out))) = ["D"]
    /\ forall row, In row (snd (fst (fst out))) ->
         In (out_gene row) (pd.index (Sample.table "G1 or G2"))
         /\ exists name count,
              In (out_gene row, name, count) [("D", "mine", 1%nat); ("E", "mine", 1%nat)]
              /\ out_user_list row = Some (name, count).
Proof.
  eexists. split; [vm_compute; reflexivity|]. split; [reflexivity|].
  refine (result_rows_with_user_lists Sample.data Sample.add_edges Sample.float
            Sample.has_add_edges Sample.uuid4 Sample.filter_raises_IndexError
            Sample.annotations "G1 or G2" [("D", "mine", 1%nat); ("E", "mine", 1%nat)]
            None None None None [] [] (Sample.table "G1 or G2") _ eq_refl _).
  vm_compute. reflexivity.
Defined.

Lemma cached_result_is_read_back_witness :
  exists fs out,
    get_query_result Sample.data Sample.add_edges Sample.float Sample.has_add_edges
      Sample.uuid4 Sample.filter_raises_IndexError Sample.annotations
      (Some "G1 or G2") None None None (Some "cache") None []
    = (fs, inr out)
    /\ List.map fst fs
       = ["cache/metadata.pickle.gz"; "cache/tabular_output.pickle.gz";
          "cache/tabular_output_unfiltered.pickle.gz"]
    /\ get_query_result Sample.data Sample.add_edges Sample.float Sample.has_add_edges
         Sample.uuid4 Sample.filter_raises_IndexError Sample.annotations
         None None None None (Some "cache") None fs
       = (fs, inr out).
Proof.
  do 2 eexists. split; [vm_compute; reflexivity|]. split; [reflexivity|].
  refine (cached_result_is_read_back Sample.data Sample.add_edges Sample.float
            Sample.has_add_edges Sample.uuid4 Sample.filter_raises_IndexError
            Sample.annotations "G1 or G2" None None None None None "cache" None [] _ _ _ eq_refl _).
  - discriminate.
  - vm_compute. reflexivity.
Defined.

Lemma column_string_names_witness :
  column_string 28 = "AB"
  /\ column_number "AB" = 28%Z
  /\ (column_string 28 = column_string 53 -> 28 = 53)%Z.
Proof.
  destruct (column_string_names 28 53) as [H1 [_ [_ H2]]]; [lia | lia |].
  split; [vm_compute; reflexivity|]. split; [reflexivity | exact H2].
Defined.

Lemma reorder_data_analysis_order_witness :
  List.map pd.analysis_of
    (pd.labels (reorder_data (Sample.evaluated
                                (pp.PGroup [pp.PStr "G1"; pp.PStr "or"; pp.PStr "G2"]))))
  = [Some 2%Z; Some 2%Z; Some 1%Z]
  /\ StronglySorted
       (fun c1 c2 =>
          pd.tf_of (pd.label c1) = pd.tf_of (pd.label c2) ->
          forall a1 a2, pd.analysis_of (pd.label c1) = Some a1 ->
                        pd.analysis_of (pd.label c2) = Some a2 ->
                        analysis_total (Sample.evaluated
                                          (pp.PGroup [pp.PStr "G1"; pp.PStr "or"; pp.PStr "G2"])) a2
                        <= analysis_total (Sample.evaluated
                                             (pp.PGroup [pp.PStr "G1"; pp.PStr "or"; pp.PStr "G2"])) a1)
       (pd.columns (reorder_data (Sample.evaluated
                                    (pp.PGroup [pp.PStr "G1"; pp.PStr "or"; pp.PStr "G2"])))).
Proof.
  split; [reflexivity|].
  apply (reorder_data_analysis_order
           (Sample.evaluated (pp.PGroup [pp.PStr "G1"; pp.PStr "or"; pp.PStr "G2"]))).
  vm_compute. repeat constructor; simpl; intuition discriminate.
Defined.

Lemma operator_letter_case_witness :
  pp.parseString (pp.expr (pp.fuel_for "G1 AnD G2")) "G1 AnD G2"
  = pp.Ok [pp.PGroup [pp.PStr "G1"; pp.PStr "and"; pp.PStr "G2"]] ""
  /\ Sample.parse_query Sample.data "G1 AnD G2" = Sample.parse_query Sample.data "G1 and G2".
Proof.
  apply (operator_letter_case Sample.data Sample.add_edges Sample.float Sample.has_add_edges
           Sample.uuid4 Sample.filter_raises_IndexError "G1" "AnD" "G2" "and" None None None).
  - left. reflexivity.
  - reflexivity.
  - discriminate.
  - reflexivity.
  - discriminate.
  - discriminate.
  - reflexivity.
Defined.

Lemma gene_condition_parse_witness :
  pp.parseString (pp.expr (pp.fuel_for "G2[pvalue<=0.05]")) "G2[pvalue<=0.05]"
  = pp.Ok [pp.PGroup [pp.PStr "G2"; pp.PModifier [pp.PMod "pvalue" "<=" "0.05"]]] "".
Proof.
  apply (gene_condition_parse "G2" "pvalue" "<=" "0.05").
  - discriminate.
  - reflexivity.
  - discriminate.
  - reflexivity.
  - left. reflexivity.
  - discriminate.
  - reflexivity.
Defined.
